(** * FreeFileSync, [Source/lib/parallel_scan.cpp]: the parallel directory scan

    A shallow embedding of the scan core:
    - [AsyncCallback], the coordinator shared by the worker threads and the
      foreground thread;
    - [DirCallback] and [BaseDirCallback], the traversal callbacks that fill a
      [DirectoryValue];
    - [fillBuffer], the dispatcher that groups the requested folders by root
      device, starts one worker per device and drains the coordinator.

    Conventions.  A C++ reference held by an object ([FolderContainer&],
    [std::map&], [AsyncCallback&], [time_point&]) is a component of the state
    that the embedded member functions thread through; a reference into the
    folder tree is the list of child names leading to the node.  Blocking
    calls and the clock are answered by an explicit environment.  Exceptions
    are results. *)

From Stdlib Require Import ZArith NArith String Ascii List Lia.
From stdpp Require Import base option list sorting gmap sets strings pretty.

#[local] Set Warnings "-register-all,-clear-no-such-hyp".
#[local] Open Scope Z_scope.

(** ** Machine integers and strings *)

(** [int] is a 32-bit two's complement integer; [std::atomic<int>] arithmetic
    wraps around. *)
Definition INT_MAX : Z := 2147483647.
Definition int_wrap (z : Z) : Z := (z + 2 ^ 31) mod 2 ^ 32 - 2 ^ 31.

(** [size_t] is an unsigned 64-bit integer. *)
Definition size_t_wrap (n : N) : N := (n mod 2 ^ 64)%N.

(** [Zstring] (file system strings) and [std::wstring] (user interface
    strings) are both sequences of characters. *)
Abbreviation Zstring := string (only parsing).
Abbreviation wstring := string (only parsing).

(** [std::chrono::steady_clock::time_point] and durations, counted in one
    common tick. *)
Abbreviation time_point := Z (only parsing).
Abbreviation duration := Z (only parsing).

(** ** Helpers of the [zen] library that the file calls

    Their headers ([zen/string_tools.h], [zen/basic_math.h], [zen/file_error.h],
    [zen/i18n.h]) are not part of the sources at hand. *)
Module zen.

(** Modelled from the spec: [endsWith(str, postfix)], used for "entries whose
    name ends with a reserved database or lock suffix". *)
Definition endsWith (str postfix : Zstring) : bool :=
  let strLen := String.length str in
  let pfLen := String.length postfix in
  if (strLen <? pfLen)%nat then false
  else String.eqb (substring (strLen - pfLen) pfLen str) postfix.

Inductive FailureReturnVal := IF_MISSING_RETURN_ALL | IF_MISSING_RETURN_NONE.

(** The part of [str] before the last occurrence of [term], if there is one. *)
Fixpoint search_last (str : Zstring) (term : ascii) : option Zstring :=
  match str with
  | EmptyString => None
  | String c rest =>
      match search_last rest term with
      | Some before => Some (String c before)
      | None => if Ascii.eqb c term then Some EmptyString else None
      end
  end.

(** Modelled from the spec: [beforeLast(str, term, rv)], "the segment before
    the final separator"; when the separator is missing the result is the
    whole string or the empty string, as [rv] says. *)
Definition beforeLast (str : Zstring) (term : ascii) (rv : FailureReturnVal) : Zstring :=
  match search_last str term with
  | Some before => before
  | None => match rv with
            | IF_MISSING_RETURN_ALL => str
            | IF_MISSING_RETURN_NONE => EmptyString
            end
  end.

(** Modelled from the spec: [numeric::dist], the distance between two time
    points "computed in a wrap-safe way". *)
Definition dist (a b : Z) : Z := if b <? a then a - b else b - a.

(** [replaceCpy(str, oldTerm, newTerm)]: every occurrence replaced, left to
    right; [fuel] bounds the number of characters looked at. *)
Fixpoint replace_from (fuel : nat) (str oldTerm newTerm : string) : string :=
  match fuel, str with
  | S fuel', String c rest =>
      if String.prefix oldTerm str
      then newTerm +:+
           replace_from fuel' (substring (String.length oldTerm)
                                         (String.length str - String.length oldTerm) str)
                        oldTerm newTerm
      else String c (replace_from fuel' rest oldTerm newTerm)
  | _, _ => str
  end.

Definition replaceCpy (str oldTerm newTerm : string) : string :=
  if String.eqb oldTerm EmptyString then str
  else replace_from (String.length str) str oldTerm newTerm.
Arguments replaceCpy : simpl never.

(** The translation macro [_()] with no language file loaded. *)
Definition translate (s : wstring) : wstring := s.

(** [_P(singular, plural, n)] with no language file loaded; [%x] stands for
    the number. *)
Definition numberTo (n : N) : wstring := pretty n.
Definition translate_plural (singular plural : wstring) (n : N) : wstring :=
  replaceCpy (if (n =? 1)%N then singular else plural) "%x" (numberTo n).

(** [FileError(msg, details)] and its [toString()]. *)
Definition newline : string := String (ascii_of_nat 10) EmptyString.
Record FileError := { toString : wstring }.
Definition FileError2 (msg details : wstring) : FileError :=
  {| toString := msg +:+ newline +:+ newline +:+ details |}.

End zen.

(** ** Snapshot model ([file_hierarchy.h], [structures.h]; not under the sources at hand) *)

Inductive SymLinkHandling := EXCLUDE | DIRECT | FOLLOW.

Record FileAttributes := {
  fa_modTime : Z;              (* modification time *)
  fa_fileSize : N;             (* byte size *)
  fa_fileId : string;          (* native file identifier *)
  fa_isFollowedSymlink : bool  (* reached through a symlink *)
}.

Record LinkAttributes := { la_modTime : Z }.

Module FolderContainer.

(** What a child name maps to. *)
Inductive Item (node : Type) :=
| FileRecord (attr : FileAttributes)
| SymlinkRecord (attr : LinkAttributes)
| SubFolder (isFollowedSymlink : bool) (sub : node).
Arguments FileRecord {node} attr.
Arguments SymlinkRecord {node} attr.
Arguments SubFolder {node} isFollowedSymlink sub.

(** Modelled from the spec: the tree node, "an ordered mapping of child name
    to { file record | sub-folder node | symlink record }.  Child names are
    unique within a folder."  Names compare as strings. *)
Inductive t := Node (children : gmap Zstring (Item t)).

Definition children (fc : t) : gmap Zstring (Item t) :=
  match fc with Node c => c end.

Definition empty : t := Node ∅.

(** Modelled from the spec: "append a FileRecord (mod-time, size, id,
    symlink-origin flag) to the current FolderContainer"; a record already
    stored under the name is replaced. *)
Definition addSubFile (itemName : Zstring) (attr : FileAttributes) (fc : t) : t :=
  Node (<[itemName := FileRecord attr]> (children fc)).

(** Modelled from the spec: "append a SymlinkRecord (mod-time)". *)
Definition addSubLink (itemName : Zstring) (attr : LinkAttributes) (fc : t) : t :=
  Node (<[itemName := SymlinkRecord attr]> (children fc)).

(** Modelled from the spec: "create the sub-folder node".  A sub-folder already
    stored under the name keeps its content and takes the new flag.  The C++
    function returns a reference to the nested container: here that is the
    child name, appended to the path of the current node by the caller. *)
Definition addSubFolder (itemName : Zstring) (isFollowedSymlink : bool) (fc : t) : t :=
  match children fc !! itemName with
  | Some (SubFolder _ sub) =>
      Node (<[itemName := SubFolder isFollowedSymlink sub]> (children fc))
  | _ => Node (<[itemName := SubFolder isFollowedSymlink empty]> (children fc))
  end.

(** A [FolderContainer&] is the list of folder names leading from the root
    container to the node it refers to. *)
Definition Ref := list Zstring.

(** The node a reference designates. *)
Fixpoint deref (r : Ref) (root : t) : option t :=
  match r with
  | [] => Some root
  | name :: r' =>
      match children root !! name with
      | Some (SubFolder _ sub) => deref r' sub
      | _ => None
      end
  end.

(** A write through a reference: [f] applied to the designated node. *)
Fixpoint update (r : Ref) (f : t → t) (root : t) : t :=
  match r with
  | [] => f root
  | name :: r' =>
      match children root !! name with
      | Some (SubFolder b sub) =>
          Node (<[name := SubFolder b (update r' f sub)]> (children root))
      | _ => root
      end
  end.

(** The item stored under the path [r ++ [name]], if any. *)
Definition item (r : Ref) (name : Zstring) (root : t) : option (Item t) :=
  fc ← deref r root; children fc !! name.

End FolderContainer.

(** Per-base output.  The two error maps are
    [std::map<Zstring, std::wstring, LessFilePath>]; keys compare as strings. *)
Record DirectoryValue := {
  folderCont : FolderContainer.t;
  failedFolderReads : gmap Zstring wstring;
  failedItemReads : gmap Zstring wstring
}.

(** A default-constructed [DirectoryValue]. *)
Definition DirectoryValue_default : DirectoryValue :=
  {| folderCont := FolderContainer.empty; failedFolderReads := ∅; failedItemReads := ∅ |}.

(** ** The foreground observer ([FillBufferCallback], declared in [parallel_scan.h]) *)
Module FillBufferCallback.

Inductive HandleError := ON_ERROR_RETRY | ON_ERROR_CONTINUE.

(** Both member functions may throw ("throw X"): [reportStatus] answers
    [false] and [reportError] answers [None] when they do. *)
Record t := {
  reportStatus : wstring → Z → bool;
  reportError : wstring → N → option HandleError
}.

(** A call received by the observer. *)
Inductive Call :=
| ReportStatus (statusText : wstring) (itemsScanned : Z)
| ReportError (msg : wstring) (retryNumber : N).

End FillBufferCallback.

(** ** [std::map<int, size_t>]

    The coordinator reads [begin()->first], so the map is kept as the sequence
    [begin() .. end()]: pairs in increasing key order. *)
Module stdmap.

Definition t := list (Z * N).

(** [emplace(k, v)]: inserts at the key's place; a key already present keeps
    its value. *)
Fixpoint emplace (k : Z) (v : N) (m : t) : t :=
  match m with
  | [] => [(k, v)]
  | (k', v') :: rest =>
      if k <? k' then (k, v) :: m
      else if k =? k' then m
      else (k', v') :: emplace k v rest
  end.

(** [erase(k)] *)
Fixpoint erase (k : Z) (m : t) : t :=
  match m with
  | [] => []
  | (k', v') :: rest => if k =? k' then rest else (k', v') :: erase k rest
  end.

Definition keys (m : t) : list Z := m.*1.

(** The class invariant of [std::map]: keys strictly increasing. *)
Definition ordered (m : t) : Prop := StronglySorted Z.lt (keys m).

End stdmap.

(** ** [class AsyncCallback] (lines 158-318) *)
Module AsyncCallback.

Import FillBufferCallback.

(** The data members.  The mutexes and condition variables have no state of
    their own here: a member function is one atomic step, and a blocking wait
    is resolved by the caller's environment. *)
Record t := {
  errorRequest_ : option (wstring * N);      (* error message + retry number *)
  errorResponse_ : option HandleError;
  threadsToFinish_ : N;
  currentFile_ : wstring;
  activeThreadIdxs_ : stdmap.t;              (* threadIdx -> parallelOps *)
  notifyingThreadIdx_ : Z;                   (* std::atomic<int> *)
  cbInterval_ : duration;
  itemsScanned_ : Z                          (* std::atomic<int> *)
}.

Definition textScanning_ : wstring := zen.translate "Scanning:" +:+ " ".

(** The constructor. *)
Definition create (threadsToFinish : N) (cbInterval : duration) : t :=
  {| errorRequest_ := None; errorResponse_ := None;
     threadsToFinish_ := threadsToFinish;
     currentFile_ := EmptyString; activeThreadIdxs_ := [];
     notifyingThreadIdx_ := 0; cbInterval_ := cbInterval; itemsScanned_ := 0 |}.

Definition set_slots (req : option (wstring * N)) (resp : option HandleError) (self : t) : t :=
  {| errorRequest_ := req; errorResponse_ := resp;
     threadsToFinish_ := threadsToFinish_ self;
     currentFile_ := currentFile_ self; activeThreadIdxs_ := activeThreadIdxs_ self;
     notifyingThreadIdx_ := notifyingThreadIdx_ self; cbInterval_ := cbInterval_ self;
     itemsScanned_ := itemsScanned_ self |}.

Definition set_threadsToFinish (n : N) (self : t) : t :=
  {| errorRequest_ := errorRequest_ self; errorResponse_ := errorResponse_ self;
     threadsToFinish_ := n;
     currentFile_ := currentFile_ self; activeThreadIdxs_ := activeThreadIdxs_ self;
     notifyingThreadIdx_ := notifyingThreadIdx_ self; cbInterval_ := cbInterval_ self;
     itemsScanned_ := itemsScanned_ self |}.

Definition set_currentFile (filePath : wstring) (self : t) : t :=
  {| errorRequest_ := errorRequest_ self; errorResponse_ := errorResponse_ self;
     threadsToFinish_ := threadsToFinish_ self;
     currentFile_ := filePath; activeThreadIdxs_ := activeThreadIdxs_ self;
     notifyingThreadIdx_ := notifyingThreadIdx_ self; cbInterval_ := cbInterval_ self;
     itemsScanned_ := itemsScanned_ self |}.

Definition set_active (active : stdmap.t) (notifying : Z) (self : t) : t :=
  {| errorRequest_ := errorRequest_ self; errorResponse_ := errorResponse_ self;
     threadsToFinish_ := threadsToFinish_ self;
     currentFile_ := currentFile_ self; activeThreadIdxs_ := active;
     notifyingThreadIdx_ := notifying; cbInterval_ := cbInterval_ self;
     itemsScanned_ := itemsScanned_ self |}.

Definition set_itemsScanned (n : Z) (self : t) : t :=
  {| errorRequest_ := errorRequest_ self; errorResponse_ := errorResponse_ self;
     threadsToFinish_ := threadsToFinish_ self;
     currentFile_ := currentFile_ self; activeThreadIdxs_ := activeThreadIdxs_ self;
     notifyingThreadIdx_ := notifyingThreadIdx_ self; cbInterval_ := cbInterval_ self;
     itemsScanned_ := n |}.

(** [reportError] (lines 164-184), the blocking call of a worker thread, as the
    worker sees it.  The worker waits until both slots are empty, installs its
    request, and waits for the response, which the foreground thread computes
    as [callback.reportError(msg, retryNumber)] (line 203); it then takes the
    response and empties both slots.  Both waits are interruptible: when the
    thread has been interrupted the call throws ThreadInterruption ([None]).
    A foreground whose observer throws unwinds [fillBuffer], which interrupts
    every worker: the waiting worker then throws as well, its request still
    installed. *)
Definition reportError (interrupted : bool) (foreground : FillBufferCallback.t)
    (msg : wstring) (retryNumber : N) (self : t) : option HandleError * t :=
  if interrupted then (None, self)
  else
    match FillBufferCallback.reportError foreground msg retryNumber with
    | Some rv => (Some rv, set_slots None None self)
    | None => (None, set_slots (Some (msg, retryNumber)) None self)
    end.

(** [mayReportCurrentFile] (lines 220-234); [now] is the reading of the steady
    clock.  The result carries the new value of the caller's [lastReportTime]. *)
Definition mayReportCurrentFile (threadIdx : Z) (now lastReportTime : time_point)
    (self : t) : bool * time_point :=
  if negb (threadIdx =? notifyingThreadIdx_ self) then (false, lastReportTime)
  else if cbInterval_ self <? zen.dist now lastReportTime then (true, now)
  else (false, lastReportTime).

(** [reportCurrentFile] (lines 236-241) *)
Definition reportCurrentFile (filePath : wstring) (self : t) : t :=
  set_currentFile filePath self.

(** [incItemsScanned] (line 243) *)
Definition incItemsScanned (self : t) : t :=
  set_itemsScanned (int_wrap (itemsScanned_ self + 1)) self.

(** [notifyWorkBegin] (lines 245-254) *)
Definition notifyWorkBegin (threadIdx : Z) (parallelOps : N) (self : t) : t :=
  let active := stdmap.emplace threadIdx parallelOps (activeThreadIdxs_ self) in
  set_active active
    (match active with
     | (first, _) :: _ => first
     | [] => notifyingThreadIdx_ self
     end) self.

(** [notifyWorkEnd] (lines 256-273) *)
Definition notifyWorkEnd (threadIdx : Z) (self : t) : t :=
  let active := stdmap.erase threadIdx (activeThreadIdxs_ self) in
  let self := set_active active
                (match active with
                 | [] => 0
                 | (first, _) :: _ => first
                 end) self in
  set_threadsToFinish (size_t_wrap (threadsToFinish_ self + (2 ^ 64 - 1))) self.

(** [getCurrentStatus] (lines 276-296) *)
Definition getCurrentStatus (self : t) : wstring :=
  let parallelOpsTotal :=
    foldl (λ total item, size_t_wrap (total + item.2)) 0%N (activeThreadIdxs_ self) in
  let filePath := currentFile_ self in
  let output := textScanning_ in
  let output :=
    if (2 <=? parallelOpsTotal)%N
    then output +:+ ("[" +:+ zen.translate_plural "1 thread" "%x threads" parallelOpsTotal +:+ "] ")
    else output in
  output +:+ filePath.

(** The predicate the foreground waits for (line 196). *)
Definition newRequestOrDone (self : t) : bool :=
  (bool_decide (is_Some (errorRequest_ self)) && negb (bool_decide (is_Some (errorResponse_ self))))
  || (threadsToFinish_ self =? 0)%N.

(** How [waitUntilDone] ends: it returns, the observer throws out of it, or it
    is still waiting when the model's fuel is used up. *)
Inductive Exit := NormalReturn | Thrown | StillWaiting.

(** [waitUntilDone] (lines 187-217), the loop of the foreground thread.  One
    unit of [fuel] is one return of [wait_until].  [workers n] is what the
    worker threads do to the coordinator while the foreground is blocked in
    its [n]-th wait (the mutex is released then); a wait whose predicate
    already holds returns at once.  [calls] collects the calls made to the
    observer. *)
Fixpoint waitUntilDone (fuel : nat) (workers : nat → t → t) (callback : FillBufferCallback.t)
    (n : nat) (calls : list Call) (self : t) : Exit * list Call * t :=
  match fuel with
  | O => (StillWaiting, calls, self)
  | S fuel' =>
      let self := if newRequestOrDone self then self else workers n self in
      let rv := newRequestOrDone self in
      if negb rv then
        (* time-out + condition not met: leave the inner loop *)
        let status := getCurrentStatus self in
        let calls := calls ++ [ReportStatus status (itemsScanned_ self)] in
        if reportStatus callback status (itemsScanned_ self)
        then waitUntilDone fuel' workers callback (S n) calls self
        else (Thrown, calls, self)
      else
        let answered :=
          match errorRequest_ self, errorResponse_ self with
          | Some (msg, retryNumber), None =>
              match FillBufferCallback.reportError callback msg retryNumber with
              | Some rv =>
                  inr (calls ++ [ReportError msg retryNumber],
                       set_slots (errorRequest_ self) (Some rv) self)
              | None => inl (calls ++ [ReportError msg retryNumber], self)
              end
          | _, _ => inr (calls, self)
          end in
        match answered with
        | inl (calls, self) => (Thrown, calls, self)
        | inr (calls, self) =>
            if (threadsToFinish_ self =? 0)%N then
              (* one last call for accurate stat-reporting *)
              let status := getCurrentStatus self in
              let calls := calls ++ [ReportStatus status (itemsScanned_ self)] in
              if reportStatus callback status (itemsScanned_ self)
              then (NormalReturn, calls, self)
              else (Thrown, calls, self)
            else waitUntilDone fuel' workers callback (S n) calls self
        end
  end.

End AsyncCallback.

(** ** External collaborators: abstract file system, platform constants, filter *)

(** [AbstractPath], "thread-safe like an int". *)
Abbreviation AbstractPath := string (only parsing).

Record PathComponents := { rootPath : AbstractPath; relPath : list Zstring }.

(** The static interface [AFS::] of [fs/abstract.h], as far as this file calls
    it. *)
Class AFS := {
  getPathComponents : AbstractPath → PathComponents;
  appendRelPath : AbstractPath → Zstring → AbstractPath;
  getDisplayPath : AbstractPath → wstring
}.

(** Constants of [zen/zstring.h], [db_file.h] and [lock_holder.h]. *)
Class Platform := {
  FILE_NAME_SEPARATOR : ascii;
  SYNC_DB_FILE_ENDING : Zstring;
  LOCK_FILE_ENDING : Zstring
}.

(** [HardFilter]: the two virtual member functions the scan calls.
    [passDirFilter(relPath, &childItemMightMatch)] is called with
    [childItemMightMatch == true]; the pair is its return value and the value
    of [childItemMightMatch] after the call. *)
Record HardFilter := {
  passFileFilter : Zstring → bool;
  passDirFilter : Zstring → bool * bool
}.

(** [HardFilter::FilterRef], a shared reference: filters are looked up by
    handle, and equal handles denote equal filters. *)
Definition FilterRef := nat.

(** [AFS::TraverserCallback] (lines 349-354 override it). *)
Module TraverserCallback.
Inductive HandleLink := LINK_FOLLOW | LINK_SKIP.
Inductive HandleError := ON_ERROR_RETRY | ON_ERROR_CONTINUE.
End TraverserCallback.

Module SymlinkInfo.
Record t := { itemName : Zstring; modTime : Z }.
End SymlinkInfo.

Module FileInfo.
Record t := {
  itemName : Zstring;
  fileSize : N;
  modTime : Z;
  fileId : string;
  symlinkInfo : option SymlinkInfo.t   (* a pointer: nullptr is [None] *)
}.
End FileInfo.

Module FolderInfo.
Record t := { itemName : Zstring; symlinkInfo : option SymlinkInfo.t }.
End FolderInfo.

(** [struct DirectoryKey] ([parallel_scan.h]) *)
Module DirectoryKey.
Record t := {
  folderPath : AbstractPath;
  filter : FilterRef;
  handleSymlinks : SymLinkHandling
}.
End DirectoryKey.

(** [struct TraverserConfig] (lines 322-334).  Its members [failedDirReads],
    [failedItemReads], [acb] and [lastReportTime] are references: what they
    refer to is in [ScanState]. *)
Module TraverserConfig.
Record t := {
  baseFolderPath : AbstractPath;
  filter : HardFilter;
  handleSymlinks : SymLinkHandling;
  threadIdx : Z
}.
End TraverserConfig.

(** ** The state a callback works on, and the monad of its member functions *)

(** What a worker thread reads from outside during one call. *)
Record ThreadEnv := {
  interrupted : bool;                  (* the thread's interruption flag *)
  steady_clock_now : time_point;       (* std::chrono::steady_clock::now() *)
  foreground : FillBufferCallback.t    (* who answers [AsyncCallback::reportError] *)
}.

(** What the references of a [TraverserConfig] and of a [DirCallback]
    designate. *)
Record ScanState := {
  output : DirectoryValue;         (* folderCont, failedFolderReads, failedItemReads *)
  acb : AsyncCallback.t;
  lastReportTime : time_point      (* thread-level *)
}.

Inductive Result (A : Type) :=
| Returned (a : A) (s : ScanState)
| ThreadInterruption (s : ScanState)     (* thrown *)
| NoAnswerYet.                           (* a retry loop outlasted the model's fuel *)
Arguments Returned {A} a s.
Arguments ThreadInterruption {A} s.
Arguments NoAnswerYet {A}.

Definition M (A : Type) : Type := ThreadEnv → ScanState → Result A.

Definition ret {A} (a : A) : M A := λ _ s, Returned a s.

Definition bind {A B} (m : M A) (k : A → M B) : M B :=
  λ env s,
    match m env s with
    | Returned a s' => k a env s'
    | ThreadInterruption s' => ThreadInterruption s'
    | NoAnswerYet => NoAnswerYet
    end.

Declare Scope scan_scope.
Delimit Scope scan_scope with scan.
Notation "x <- m ;; k" := (bind m (λ x, k))
  (at level 100, m at next level, right associativity) : scan_scope.
Notation "m ;; k" := (bind m (λ _, k))
  (at level 100, right associativity) : scan_scope.
#[local] Open Scope scan_scope.

Definition when (b : bool) (m : M unit) : M unit := if b then m else ret tt.

(** [zen::interruptionPoint()] *)
Definition interruptionPoint : M unit :=
  λ env s, if interrupted env then ThreadInterruption s else Returned tt s.

Definition set_output (o : DirectoryValue) (s : ScanState) : ScanState :=
  {| output := o; acb := acb s; lastReportTime := lastReportTime s |}.

Definition set_acb (a : AsyncCallback.t) (s : ScanState) : ScanState :=
  {| output := output s; acb := a; lastReportTime := lastReportTime s |}.

(** [cfg_.acb.mayReportCurrentFile(cfg_.threadIdx, cfg_.lastReportTime)] *)
Definition acb_mayReportCurrentFile (threadIdx : Z) : M bool :=
  λ env s,
    let '(rv, t) := AsyncCallback.mayReportCurrentFile threadIdx (steady_clock_now env)
                      (lastReportTime s) (acb s) in
    Returned rv {| output := output s; acb := acb s; lastReportTime := t |}.

(** [cfg_.acb.reportCurrentFile(filePath)] *)
Definition acb_reportCurrentFile (filePath : wstring) : M unit :=
  λ _ s, Returned tt (set_acb (AsyncCallback.reportCurrentFile filePath (acb s)) s).

(** [cfg_.acb.incItemsScanned()] *)
Definition acb_incItemsScanned : M unit :=
  λ _ s, Returned tt (set_acb (AsyncCallback.incItemsScanned (acb s)) s).

(** [cfg_.acb.reportError(msg, retryNumber)] *)
Definition acb_reportError (msg : wstring) (retryNumber : N) : M FillBufferCallback.HandleError :=
  λ env s,
    match AsyncCallback.reportError (interrupted env) (foreground env) msg retryNumber (acb s) with
    | (Some rv, a) => Returned rv (set_acb a s)
    | (None, a) => ThreadInterruption (set_acb a s)
    end.

(** A write to the container a [FolderContainer&] refers to. *)
Definition modify_folder (r : FolderContainer.Ref) (f : FolderContainer.t → FolderContainer.t) : M unit :=
  λ _ s,
    Returned tt
      (set_output {| folderCont := FolderContainer.update r f (folderCont (output s));
                     failedFolderReads := failedFolderReads (output s);
                     failedItemReads := failedItemReads (output s) |} s).

(** [cfg_.failedDirReads[key] = msg] *)
Definition failedDirReads_assign (key : Zstring) (msg : wstring) : M unit :=
  λ _ s,
    Returned tt
      (set_output {| folderCont := folderCont (output s);
                     failedFolderReads := <[key := msg]> (failedFolderReads (output s));
                     failedItemReads := failedItemReads (output s) |} s).

(** [cfg_.failedItemReads[key] = msg] *)
Definition failedItemReads_assign (key : Zstring) (msg : wstring) : M unit :=
  λ _ s,
    Returned tt
      (set_output {| folderCont := folderCont (output s);
                     failedFolderReads := failedFolderReads (output s);
                     failedItemReads := <[key := msg]> (failedItemReads (output s)) |} s).

(** Modelled from the spec: [tryReportingItemError(cmd, callback, itemName)]
    ([fs/abstract.h]), which "executes action; on an I/O failure it builds an
    error message, increments the retry counter, and calls reportItemError;
    returns CONTINUE or loops on RETRY".  Its result is tested as a boolean
    (line 453): [true] when the action succeeded, [false] when its failure was
    answered with CONTINUE.  [cmd tt] is [Some e] when the action throws
    [e]; [report] is the callback's [reportItemError]. *)
Fixpoint tryReportingItemError (fuel : nat) (cmd : unit → option zen.FileError)
    (report : wstring → N → Zstring → M TraverserCallback.HandleError)
    (itemName : Zstring) (retryNumber : N) : M bool :=
  match fuel with
  | O => λ _ _, NoAnswerYet
  | S fuel' =>
      match cmd tt with
      | None => ret true
      | Some e =>
          rv <- report (zen.toString e) retryNumber itemName ;;
          match rv with
          | TraverserCallback.ON_ERROR_RETRY =>
              tryReportingItemError fuel' cmd report itemName (size_t_wrap (retryNumber + 1))
          | TraverserCallback.ON_ERROR_CONTINUE => ret false
          end
      end
  end.

(** ** [class DirCallback] (lines 337-361, 391-533) *)

(** The data members.  [output_] is a [FolderContainer&] into the tree of
    the [DirectoryValue] being filled. *)
Record DirCallback := {
  cfg_ : TraverserConfig.t;
  parentRelPathPf_ : Zstring;          (* postfixed with FILE_NAME_SEPARATOR *)
  output_ : FolderContainer.Ref;
  level_ : Z
}.

Section Callbacks.
Context {afs : AFS} {platform : Platform}.

Import TraverserCallback.

(** [DirCallback::reportDirError] (lines 504-517) *)
Definition reportDirError (self : DirCallback) (msg : wstring) (retryNumber : N) : M HandleError :=
  rv <- acb_reportError msg retryNumber ;;
  match rv with
  | FillBufferCallback.ON_ERROR_CONTINUE =>
      failedDirReads_assign
        (zen.beforeLast (parentRelPathPf_ self) FILE_NAME_SEPARATOR zen.IF_MISSING_RETURN_NONE)
        msg ;;
      ret ON_ERROR_CONTINUE
  | FillBufferCallback.ON_ERROR_RETRY => ret ON_ERROR_RETRY
  end.

(** [DirCallback::reportItemError] (lines 520-533) *)
Definition reportItemError (self : DirCallback) (msg : wstring) (retryNumber : N)
    (itemName : Zstring) : M HandleError :=
  rv <- acb_reportError msg retryNumber ;;
  match rv with
  | FillBufferCallback.ON_ERROR_CONTINUE =>
      failedItemReads_assign (parentRelPathPf_ self +:+ itemName) msg ;;
      ret ON_ERROR_CONTINUE
  | FillBufferCallback.ON_ERROR_RETRY => ret ON_ERROR_RETRY
  end.

(** The status update every callback starts with (lines 403-404, 435-436,
    470-471). *)
Definition updateStatus (self : DirCallback) (itemRelPath : Zstring) : M unit :=
  may <- acb_mayReportCurrentFile (TraverserConfig.threadIdx (cfg_ self)) ;;
  when may
    (acb_reportCurrentFile
       (getDisplayPath (appendRelPath (TraverserConfig.baseFolderPath (cfg_ self)) itemRelPath))).

(** [DirCallback::onFile] (lines 391-425) *)
Definition onFile (self : DirCallback) (fi : FileInfo.t) : M unit :=
  interruptionPoint ;;
  (* do not list the database file(s) sync.ffs_db, sync.x64.ffs_db, etc. or lock files *)
  if zen.endsWith (FileInfo.itemName fi) SYNC_DB_FILE_ENDING
     || zen.endsWith (FileInfo.itemName fi) LOCK_FILE_ENDING
  then ret tt
  else
    let fileRelPath := parentRelPathPf_ self +:+ FileInfo.itemName fi in
    (* update status information no matter whether item is excluded or not! *)
    updateStatus self fileRelPath ;;
    (* apply filter before processing (use relative name!) *)
    if negb (passFileFilter (TraverserConfig.filter (cfg_ self)) fileRelPath)
    then ret tt
    else
      modify_folder (output_ self)
        (FolderContainer.addSubFile (FileInfo.itemName fi)
           {| fa_modTime := FileInfo.modTime fi;
              fa_fileSize := FileInfo.fileSize fi;
              fa_fileId := FileInfo.fileId fi;
              fa_isFollowedSymlink := bool_decide (FileInfo.symlinkInfo fi ≠ None) |}) ;;
      acb_incItemsScanned.   (* add 1 element to the progress indicator *)

(** The error thrown at line 455. *)
Definition endlessRecursion (self : DirCallback) (folderRelPath : Zstring) : zen.FileError :=
  zen.FileError2
    (zen.replaceCpy (zen.translate "Cannot read directory %x.") "%x"
       (getDisplayPath (appendRelPath (TraverserConfig.baseFolderPath (cfg_ self)) folderRelPath)))
    "Endless recursion.".

(** [DirCallback::onFolder] (lines 428-460).  [None] is [nullptr].  [fuel]
    bounds the retry loop of [tryReportingItemError]. *)
Definition onFolder (fuel : nat) (self : DirCallback) (fi : FolderInfo.t) : M (option DirCallback) :=
  interruptionPoint ;;
  let folderRelPath := parentRelPathPf_ self +:+ FolderInfo.itemName fi in
  (* update status information no matter whether item is excluded or not! *)
  updateStatus self folderRelPath ;;
  (* apply filter before processing (use relative name!) *)
  let '(passFilter, childItemMightMatch) :=
    passDirFilter (TraverserConfig.filter (cfg_ self)) folderRelPath in
  if negb passFilter && negb childItemMightMatch
  then ret None   (* do NOT traverse subdirs *)
  else
    modify_folder (output_ self)
      (FolderContainer.addSubFolder (FolderInfo.itemName fi)
         (bool_decide (FolderInfo.symlinkInfo fi ≠ None))) ;;
    let subFolder := output_ self ++ [FolderInfo.itemName fi] in
    when passFilter acb_incItemsScanned ;;   (* add 1 element to the progress indicator *)
    let child :=
      {| cfg_ := cfg_ self;
         parentRelPathPf_ := folderRelPath +:+ String FILE_NAME_SEPARATOR EmptyString;
         output_ := subFolder;
         level_ := level_ self + 1 |} in
    if 100 <? level_ self   (* check after FolderContainer::addSubFolder() *)
    then
      ok <- tryReportingItemError fuel (λ _, Some (endlessRecursion self folderRelPath))
              (reportItemError self) (FolderInfo.itemName fi) 0%N ;;
      if negb ok then ret None else ret (Some child)
    else ret (Some child).

(** [DirCallback::onSymlink] (lines 463-501) *)
Definition onSymlink (self : DirCallback) (si : SymlinkInfo.t) : M HandleLink :=
  interruptionPoint ;;
  let linkRelPath := parentRelPathPf_ self +:+ SymlinkInfo.itemName si in
  (* update status information no matter whether item is excluded or not! *)
  updateStatus self linkRelPath ;;
  match TraverserConfig.handleSymlinks (cfg_ self) with
  | EXCLUDE => ret LINK_SKIP
  | DIRECT =>
      (if passFileFilter (TraverserConfig.filter (cfg_ self)) linkRelPath
       then
         modify_folder (output_ self)
           (FolderContainer.addSubLink (SymlinkInfo.itemName si)
              {| la_modTime := SymlinkInfo.modTime si |}) ;;
         acb_incItemsScanned
       else ret tt) ;;
      ret LINK_SKIP
  | FOLLOW =>
      (* filter symlinks before trying to follow them *)
      if negb (passFileFilter (TraverserConfig.filter (cfg_ self)) linkRelPath)
         && negb (passDirFilter (TraverserConfig.filter (cfg_ self)) linkRelPath).1
         && negb (passDirFilter (TraverserConfig.filter (cfg_ self)) linkRelPath).2
      then ret LINK_SKIP
      else ret LINK_FOLLOW
  end.

(** [BaseDirCallback::BaseDirCallback] (lines 367-384).  The arguments
    [output], [acb] and [lastReportTime] are references: the [ScanState] the
    result runs on.  [filters] resolves the key's filter handle. *)
Definition BaseDirCallback (filters : FilterRef → HardFilter) (baseFolderKey : DirectoryKey.t)
    (threadIdx : Z) : M DirCallback :=
  let travCfg_ :=
    {| TraverserConfig.baseFolderPath := DirectoryKey.folderPath baseFolderKey;
       TraverserConfig.filter := filters (DirectoryKey.filter baseFolderKey);
       TraverserConfig.handleSymlinks := DirectoryKey.handleSymlinks baseFolderKey;
       TraverserConfig.threadIdx := threadIdx |} in
  let self :=
    {| cfg_ := travCfg_; parentRelPathPf_ := EmptyString; output_ := []; level_ := 0 |} in
  may <- acb_mayReportCurrentFile threadIdx ;;
  (* just in case first directory access is blocking *)
  when may (acb_reportCurrentFile (getDisplayPath (DirectoryKey.folderPath baseFolderKey))) ;;
  ret self.

End Callbacks.

(** ** [fff::fillBuffer] (lines 537-600) *)

#[global] Instance SymLinkHandling_eq_dec : EqDecision SymLinkHandling.
Proof. solve_decision. Defined.

#[global] Instance SymLinkHandling_countable : Countable SymLinkHandling :=
  inj_countable'
    (λ h, match h with EXCLUDE => 0%nat | DIRECT => 1%nat | FOLLOW => 2%nat end)
    (λ n, match n with 0%nat => EXCLUDE | 1%nat => DIRECT | _ => FOLLOW end)
    (λ h, match h with EXCLUDE | DIRECT | FOLLOW => eq_refl end).

#[global] Instance DirectoryKey_eq_dec : EqDecision DirectoryKey.t.
Proof. solve_decision. Defined.

#[global] Instance DirectoryKey_countable : Countable DirectoryKey.t :=
  inj_countable'
    (λ k, (DirectoryKey.folderPath k, DirectoryKey.filter k, DirectoryKey.handleSymlinks k))
    (λ '(p, f, h), {| DirectoryKey.folderPath := p; DirectoryKey.filter := f;
                      DirectoryKey.handleSymlinks := h |})
    (λ k, match k with DirectoryKey.Build_t _ _ _ => eq_refl end).

(** What the foreground thread does to the structure of [buf], and when it
    starts a thread. *)
Inductive BufEvent :=
| BufClear
| BufInsert (key : DirectoryKey.t)
| ThreadStart (threadIdx : Z).

(** What the thread function of a worker captures (line 578).  [workload] is a
    [std::map<DirectoryKey, DirectoryValue*>]; each pointer is [&buf[key]], so
    the key stands for it. *)
Record Worker := {
  w_rootPath : AbstractPath;
  w_workload : list DirectoryKey.t;
  w_threadIdx : Z;
  w_parallelOps : N
}.

(** The worker threads as the foreground thread meets them: what thread
    [threadIdx] does to the coordinator while the foreground is blocked in its
    [n]-th wait, and what has been written through the [DirectoryValue*] of a
    key by the time the threads are joined.  A worker has no other access to
    [buf]. *)
Record WorkerThreads := {
  onCoordinator : Z → nat → AsyncCallback.t → AsyncCallback.t;
  throughPointer : DirectoryKey.t → DirectoryValue → DirectoryValue
}.

(** The local variables [buf], [worker] of the foreground thread, and the
    events so far. *)
Record Dispatch := {
  d_buf : gmap DirectoryKey.t DirectoryValue;
  d_worker : list Worker;
  d_events : list BufEvent
}.

(** What a call of [fillBuffer] leaves behind. *)
Record FillBufferRun := {
  exit : AsyncCallback.Exit;
  buf_out : gmap DirectoryKey.t DirectoryValue;
  calls : list FillBufferCallback.Call;       (* received by the observer, in order *)
  events : list BufEvent;
  threads : list Worker;
  acb_out : AsyncCallback.t
}.

Section Dispatcher.
Context {afs : AFS}.

(** Which traverser the build selects (lines 567-572). *)
Variable ZEN_LINUX_TRAVERSER_LEGACY : bool.

(** Lines 549-552.  A [std::set] is iterated in the order of its elements;
    here that is the order of [elements]. *)
Definition perDeviceFolders (foldersToRead : gset DirectoryKey.t)
    : gmap AbstractPath (gset DirectoryKey.t) :=
  foldl (λ devices key,
           let root := rootPath (getPathComponents (DirectoryKey.folderPath key)) in
           <[root := {[key]} ∪ default ∅ (devices !! root)]> devices)
        ∅ (elements foldersToRead).

(** [&buf[key]] (line 576): [operator[]] inserts a default-constructed value
    when the key is missing. *)
Definition buf_index (st : Dispatch) (key : DirectoryKey.t) : Dispatch :=
  match d_buf st !! key with
  | Some _ => st
  | None =>
      {| d_buf := <[key := DirectoryValue_default]> (d_buf st);
         d_worker := d_worker st;
         d_events := d_events st ++ [BufInsert key] |}
  end.

(** One round of the loop at lines 562-597.  The devices are visited in
    the order of [map_to_list] and the keys of a device in the order of
    [elements]; the code visits them in the order of [std::map] and
    [std::set], whose comparisons are outside this file.  Which device gets
    which thread index, and the order of the insertions into [buf], may
    therefore differ from the code's. *)
Definition startWorker (deviceParallelOps : gmap AbstractPath N) (st : Dispatch)
    (item : AbstractPath * gset DirectoryKey.t) : Dispatch :=
  let rootPath := item.1 in
  let threadIdx := int_wrap (Z.of_nat (length (d_worker st))) in
  let parallelOps :=
    if ZEN_LINUX_TRAVERSER_LEGACY then 1%N
    else N.max (default 1%N (deviceParallelOps !! rootPath)) 1 in
  let workload := elements item.2 in
  let st := foldl buf_index st workload in
  {| d_buf := d_buf st;
     d_worker := d_worker st ++ [{| w_rootPath := rootPath; w_workload := workload;
                                    w_threadIdx := threadIdx; w_parallelOps := parallelOps |}];
     d_events := d_events st ++ [ThreadStart threadIdx] |}.

(** The workload of [AFS::traverseFolderParallel]: relative path and
    callback of every base folder. *)
Definition TraverserWorkload := list (list Zstring * DirCallback).

(** Lines 589-594, one round of the loop of the thread function: the
    [BaseDirCallback] of a key is constructed and appended to the traversal's
    workload.  The constructor (lines 367-384) displays the base folder when
    this thread may report; [clock key] is the reading of the steady clock
    then.  The callback's [output_] is the root container of [*wl.second]. *)
Definition addCallback (filters : FilterRef → HardFilter) (threadIdx : Z)
    (clock : DirectoryKey.t → time_point)
    (st : TraverserWorkload * AsyncCallback.t * time_point) (key : DirectoryKey.t)
    : TraverserWorkload * AsyncCallback.t * time_point :=
  let '(travWorkload, a, lastReportTime) := st in
  let pc := getPathComponents (DirectoryKey.folderPath key) in
  let '(may, lastReportTime) :=
    AsyncCallback.mayReportCurrentFile threadIdx (clock key) lastReportTime a in
  let a := if may
           then AsyncCallback.reportCurrentFile (getDisplayPath (DirectoryKey.folderPath key)) a
           else a in
  let callback :=
    {| cfg_ := {| TraverserConfig.baseFolderPath := DirectoryKey.folderPath key;
                  TraverserConfig.filter := filters (DirectoryKey.filter key);
                  TraverserConfig.handleSymlinks := DirectoryKey.handleSymlinks key;
                  TraverserConfig.threadIdx := threadIdx |};
       parentRelPathPf_ := EmptyString; output_ := []; level_ := 0 |} in
  (travWorkload ++ [(relPath pc, callback)], a, lastReportTime).

(** The thread function of a worker (lines 578-596), as the coordinator
    meets it.  [traverse] is [AFS::traverseFolderParallel], which is outside
    this file: what the traversal does to the coordinator through the
    callbacks it is given, however it ends.  [notifyWorkEnd] is a scope
    guard: it runs on every exit. *)
Definition workerThread (filters : FilterRef → HardFilter)
    (clock : DirectoryKey.t → time_point)
    (traverse : AbstractPath → TraverserWorkload → N → AsyncCallback.t → AsyncCallback.t)
    (w : Worker) (a : AsyncCallback.t) : AsyncCallback.t :=
  let a := AsyncCallback.notifyWorkBegin (w_threadIdx w) (w_parallelOps w) a in
  (* ZEN_ON_SCOPE_EXIT(acb.notifyWorkEnd(threadIdx)) *)
  let lastReportTime := 0 in   (* default-constructed; kept at thread level *)
  let '(travWorkload, a, _) :=
    foldl (addCallback filters (w_threadIdx w) clock) ([], a, lastReportTime) (w_workload w) in
  let a := traverse (w_rootPath w) travWorkload (w_parallelOps w) a in
  AsyncCallback.notifyWorkEnd (w_threadIdx w) a.

(** What the started threads together do to the coordinator during the
    foreground's [n]-th wait. *)
Definition interference (scan : WorkerThreads) (started : list Worker) (n : nat)
    (a : AsyncCallback.t) : AsyncCallback.t :=
  foldl (λ a w, onCoordinator scan (w_threadIdx w) n a) a started.

(** [fillBuffer].  The argument [buf] is the caller's map as it is on entry. *)
Definition fillBuffer (fuel : nat) (scan : WorkerThreads)
    (foldersToRead : gset DirectoryKey.t)
    (buf : gmap DirectoryKey.t DirectoryValue)
    (deviceParallelOps : gmap AbstractPath N)
    (callback : FillBufferCallback.t)
    (cbInterval : duration) : FillBufferRun :=
  (* buf.clear() *)
  let st := {| d_buf := ∅; d_worker := []; d_events := [BufClear] |} in
  let devices := perDeviceFolders foldersToRead in
  let acb := AsyncCallback.create (size_t_wrap (N.of_nat (size devices))) cbInterval in
  (* init worker threads *)
  let st := foldl (startWorker deviceParallelOps) st (map_to_list devices) in
  let '(how, received, acb) :=
    AsyncCallback.waitUntilDone fuel (interference scan (d_worker st)) callback 0 [] acb in
  (* scope exit: the workers are joined *)
  {| exit := how;
     buf_out := map_imap (λ key value, Some (throughPointer scan key value)) (d_buf st);
     calls := received;
     events := d_events st;
     threads := d_worker st;
     acb_out := acb |}.

End Dispatcher.

(** ** Concrete collaborators, for the examples below *)

(** Splits a path at every separator; empty components are skipped. *)
Fixpoint split_path (sep : ascii) (acc : string) (s : string) : list string :=
  match s with
  | EmptyString => if String.eqb acc EmptyString then [] else [acc]
  | String c rest =>
      if Ascii.eqb c sep
      then (if String.eqb acc EmptyString then [] else [acc]) ++ split_path sep EmptyString rest
      else split_path sep (acc +:+ String c EmptyString) rest
  end.

(** The Linux build: separator and reserved file name endings. *)
Definition linux : Platform :=
  {| FILE_NAME_SEPARATOR := "/"%char;
     SYNC_DB_FILE_ENDING := ".ffs_db";
     LOCK_FILE_ENDING := ".ffs_lock" |}.

(** A file system whose root devices are the first path components (mount
    points such as [/dev1]); a path displays as itself. *)
Definition mounts : AFS :=
  {| getPathComponents p :=
       match split_path "/"%char EmptyString p with
       | [] => {| rootPath := "/"; relPath := [] |}
       | device :: rest => {| rootPath := "/" +:+ device; relPath := rest |}
       end;
     appendRelPath base rel :=
       if String.eqb rel EmptyString then base else base +:+ "/" +:+ rel;
     getDisplayPath p := p |}.

(** A filter that lets everything pass. *)
Definition passAll : HardFilter :=
  {| passFileFilter _ := true; passDirFilter _ := (true, true) |}.

(** A filter that excludes [*.log] files, and the folder [tmp] with all of
    its content. *)
Definition noLogs : HardFilter :=
  {| passFileFilter p := negb (zen.endsWith p ".log");
     passDirFilter p := if String.eqb p "tmp" then (false, false) else (true, true) |}.

(** An include filter for [src/*]: the folder [src] passes; any other folder
    does not pass itself, but items below it might. *)
Definition onlyBelowSrc : HardFilter :=
  {| passFileFilter p := String.prefix "src/" p;
     passDirFilter p := if String.prefix "src" p then (true, true) else (false, true) |}.

Definition filterTable (ref : FilterRef) : HardFilter :=
  match ref with
  | 0%nat => passAll
  | 1%nat => noLogs
  | _ => onlyBelowSrc
  end.

(** An observer that accepts every status and ignores every error. *)
Definition continueAlways : FillBufferCallback.t :=
  {| FillBufferCallback.reportStatus _ _ := true;
     FillBufferCallback.reportError _ _ := Some FillBufferCallback.ON_ERROR_CONTINUE |}.

(** An observer that asks for a retry twice and then ignores the error. *)
Definition retryTwice : FillBufferCallback.t :=
  {| FillBufferCallback.reportStatus _ _ := true;
     FillBufferCallback.reportError _ retryNumber :=
       Some (if (retryNumber <? 2)%N then FillBufferCallback.ON_ERROR_RETRY
             else FillBufferCallback.ON_ERROR_CONTINUE) |}.

(** An observer that never gives up. *)
Definition retryForever : FillBufferCallback.t :=
  {| FillBufferCallback.reportStatus _ _ := true;
     FillBufferCallback.reportError _ _ := Some FillBufferCallback.ON_ERROR_RETRY |}.

Definition calm (now : time_point) (obs : FillBufferCallback.t) : ThreadEnv :=
  {| interrupted := false; steady_clock_now := now; foreground := obs |}.

(** The state a worker with index 0 starts a base folder in: an empty
    [DirectoryValue], the coordinator after [notifyWorkBegin(0, 1)], and a
    default-constructed [lastReportTime]. *)
Definition freshState (cbInterval : duration) : ScanState :=
  {| output := DirectoryValue_default;
     acb := AsyncCallback.notifyWorkBegin 0 1 (AsyncCallback.create 1 cbInterval);
     lastReportTime := 0 |}.

Definition keyX : DirectoryKey.t :=
  {| DirectoryKey.folderPath := "/dev1/x"; DirectoryKey.filter := 0%nat;
     DirectoryKey.handleSymlinks := EXCLUDE |}.

Definition keyY : DirectoryKey.t :=
  {| DirectoryKey.folderPath := "/dev2/y"; DirectoryKey.filter := 0%nat;
     DirectoryKey.handleSymlinks := EXCLUDE |}.

(** The threads [fillBuffer] starts for [keyX] and [keyY]. *)
Definition workerX : Worker :=
  {| w_rootPath := "/dev1"; w_workload := [keyX]; w_threadIdx := 0; w_parallelOps := 1 |}.

Definition workerY : Worker :=
  {| w_rootPath := "/dev2"; w_workload := [keyY]; w_threadIdx := 1; w_parallelOps := 1 |}.

(** The worker threads of a scan of [/dev1/x] and [/dev2/y], two empty
    folders: each thread runs its thread function from begin to end during
    the foreground's first wait, at time 1000.  The traversal of an empty
    folder calls no callback, and writes nothing through the pointers. *)
Definition quietWorkers : WorkerThreads :=
  {| onCoordinator threadIdx n a :=
       match n, find (λ w, w_threadIdx w =? threadIdx) [workerX; workerY] with
       | O, Some w => workerThread (afs := mounts) filterTable (λ _, 1000) (λ _ _ _ a, a) w a
       | _, _ => a
       end;
     throughPointer _ value := value |}.

(** The notifications a coordinator receives from worker threads. *)
Inductive WorkNotice :=
| WorkBegin (threadIdx : Z) (parallelOps : N)
| WorkEnd (threadIdx : Z).

Definition notify (a : AsyncCallback.t) (e : WorkNotice) : AsyncCallback.t :=
  match e with
  | WorkBegin threadIdx parallelOps => AsyncCallback.notifyWorkBegin threadIdx parallelOps a
  | WorkEnd threadIdx => AsyncCallback.notifyWorkEnd threadIdx a
  end.

(** ** Auxiliary definitions for the statements below *)

(** The state a call leaves behind, when it ends. *)
Definition stateOf {A} (r : Result A) : option ScanState :=
  match r with
  | Returned _ s | ThreadInterruption s => Some s
  | NoAnswerYet => None
  end.

(** The state after a round trip of [AsyncCallback::reportError]: both slots
    are empty again. *)
Definition answered (s : ScanState) : ScanState :=
  set_acb (AsyncCallback.set_slots None None (acb s)) s.

Section Statements.
Context {afs : AFS} {platform : Platform}.

(** What the status update of a callback amounts to: nothing, or a new
    displayed path together with a new report time. *)
Definition statusUpdated (self : DirCallback) (itemRelPath : Zstring) (env : ThreadEnv)
    (s : ScanState) : ScanState :=
  if (AsyncCallback.mayReportCurrentFile (TraverserConfig.threadIdx (cfg_ self))
        (steady_clock_now env) (lastReportTime s) (acb s)).1
  then {| output := output s;
          acb := AsyncCallback.reportCurrentFile
                   (getDisplayPath
                      (appendRelPath (TraverserConfig.baseFolderPath (cfg_ self)) itemRelPath))
                   (acb s);
          lastReportTime := steady_clock_now env |}
  else s.

(** The item recorded in a tree under a relative path such as [sub/a.txt]. *)
Definition recordedAt (relPath : Zstring) (root : FolderContainer.t)
    : option (FolderContainer.Item FolderContainer.t) :=
  match reverse (split_path FILE_NAME_SEPARATOR EmptyString relPath) with
  | [] => None
  | name :: dirs => FolderContainer.item (reverse dirs) name root
  end.

(** The root device of a key (line 552). *)
Definition rootOf (key : DirectoryKey.t) : AbstractPath :=
  rootPath (getPathComponents (DirectoryKey.folderPath key)).

(** [perDeviceFolders[root].insert(key)] (line 552). *)
Definition addToDevice (devices : gmap AbstractPath (gset DirectoryKey.t))
    (key : DirectoryKey.t) : gmap AbstractPath (gset DirectoryKey.t) :=
  <[rootOf key := {[key]} ∪ default ∅ (devices !! rootOf key)]> devices.

(** The foreground's locals when it reaches [waitUntilDone] (line 599). *)
Definition dispatched (legacy : bool) (deviceParallelOps : gmap AbstractPath N)
    (foldersToRead : gset DirectoryKey.t) : Dispatch :=
  foldl (startWorker legacy deviceParallelOps)
        {| d_buf := ∅; d_worker := []; d_events := [BufClear] |}
        (map_to_list (perDeviceFolders foldersToRead)).

End Statements.

(** The events of one round of the loop at lines 562-597: the entries of the
    worker's keys are inserted, then its thread is started. *)
Definition spawnEvents (w : Worker) : list BufEvent :=
  (BufInsert <$> w_workload w) ++ [ThreadStart (w_threadIdx w)].

(** ** Concrete scans *)

Section OnLinux.
#[local] Existing Instance mounts.
#[local] Existing Instance linux.

Definition cfgX (flt : HardFilter) (mode : SymLinkHandling) : TraverserConfig.t :=
  {| TraverserConfig.baseFolderPath := "/dev1/x"; TraverserConfig.filter := flt;
     TraverserConfig.handleSymlinks := mode; TraverserConfig.threadIdx := 0 |}.

(** The base callback of [/dev1/x]. *)
Definition baseX (flt : HardFilter) (mode : SymLinkHandling) : DirCallback :=
  {| cfg_ := cfgX flt mode; parentRelPathPf_ := EmptyString; output_ := []; level_ := 0 |}.

Definition folderNamed (name : Zstring) : FolderInfo.t :=
  {| FolderInfo.itemName := name; FolderInfo.symlinkInfo := None |}.

Definition fileA : FileInfo.t :=
  {| FileInfo.itemName := "a.txt"; FileInfo.fileSize := 10; FileInfo.modTime := 1;
     FileInfo.fileId := "inode-17"; FileInfo.symlinkInfo := None |}.

Definition linkL : SymlinkInfo.t :=
  {| SymlinkInfo.itemName := "l"; SymlinkInfo.modTime := 7 |}.

(** The calls a traversal makes when the folder [sub] of [/dev1/x] cannot be
    listed: the base callback is built, [sub] is announced, and the failure
    to enumerate it goes to the callback returned for [sub]. *)
Definition scanUnreadableSub : M TraverserCallback.HandleError :=
  base <- BaseDirCallback filterTable keyX 0 ;;
  child <- onFolder 1 base (folderNamed "sub") ;;
  match child with
  | Some cb => reportDirError cb "Cannot open directory /dev1/x/sub." 0%N
  | None => ret TraverserCallback.ON_ERROR_CONTINUE
  end.

(** [n] nested folders named [d], entered one after the other. *)
Fixpoint descend (n : nat) (cb : DirCallback) : M DirCallback :=
  match n with
  | O => ret cb
  | S n' =>
      child <- onFolder 1 cb (folderNamed "d") ;;
      match child with
      | Some cb' => descend n' cb'
      | None => ret cb
      end
  end.

Fixpoint deepPrefix (n : nat) : Zstring :=
  match n with
  | O => EmptyString
  | S n' => "d/" +:+ deepPrefix n'
  end.

(** The callback and the state reached 101 folders below [/dev1/x]. *)
Definition deepCallback : DirCallback :=
  {| cfg_ := cfgX passAll EXCLUDE; parentRelPathPf_ := deepPrefix 101;
     output_ := replicate 101 "d"; level_ := 101 |}.

Definition deepState : ScanState :=
  match descend 101 (baseX passAll EXCLUDE) (calm 1000 continueAlways) (freshState 100) with
  | Returned _ s => s
  | _ => freshState 100
  end.

End OnLinux.

(** ** Further notions: the error round trip step by step, histories,
    callbacks a traversal can hold *)

(** [AsyncCallback::reportError], lines 167-171: once both slots are empty
    the worker installs its request.  [None]: the slots are in use, the worker
    keeps waiting. *)
Definition reportError_install (msg : wstring) (retryNumber : N) (a : AsyncCallback.t)
    : option AsyncCallback.t :=
  match AsyncCallback.errorRequest_ a, AsyncCallback.errorResponse_ a with
  | None, None => Some (AsyncCallback.set_slots (Some (msg, retryNumber)) None a)
  | _, _ => None
  end.

(** [AsyncCallback::reportError], lines 173-178: once the response is there
    the worker takes it and empties both slots.  [None]: no response yet. *)
Definition reportError_take (a : AsyncCallback.t)
    : option (FillBufferCallback.HandleError * AsyncCallback.t) :=
  match AsyncCallback.errorResponse_ a with
  | Some rv => Some (rv, AsyncCallback.set_slots None None a)
  | None => None
  end.

(** Whether thread [k] has announced its begin and not yet its end, at the
    end of a history. *)
Definition activeAfter (history : list WorkNotice) (k : Z) : bool :=
  foldl (λ active e,
           match e with
           | WorkBegin threadIdx _ => if threadIdx =? k then true else active
           | WorkEnd threadIdx => if threadIdx =? k then false else active
           end) false history.

(** The number of [notifyWorkEnd] calls in a history. *)
Definition endsIn (history : list WorkNotice) : N :=
  foldl (λ n e, match e with WorkEnd _ => (n + 1)%N | WorkBegin _ _ => n end) 0%N history.

Definition isStatusCall (c : FillBufferCallback.Call) : bool :=
  match c with
  | FillBufferCallback.ReportStatus _ _ => true
  | FillBufferCallback.ReportError _ _ => false
  end.

Section Reaching.
Context {afs : AFS} {platform : Platform}.

(** The relative prefix of the folder reached through [names]: every name
    followed by the separator. *)
Fixpoint prefixOf (names : list Zstring) : Zstring :=
  match names with
  | [] => EmptyString
  | name :: rest => name +:+ String FILE_NAME_SEPARATOR EmptyString +:+ prefixOf rest
  end.

(** The callbacks a traversal of [base] can hold: [base] itself, and every
    callback some [onFolder] of such a callback returned. *)
Inductive Reachable (base : DirCallback) : DirCallback → Prop :=
| reach_base : Reachable base base
| reach_child (fuel : nat) (parent : DirCallback) (fi : FolderInfo.t) (env : ThreadEnv)
    (s : ScanState) (child : DirCallback) (s' : ScanState) :
    Reachable base parent →
    onFolder fuel parent fi env s = Returned (Some child) s' →
    Reachable base child.

End Reaching.

(** Whether a call made the observer throw. *)
Definition threw (callback : FillBufferCallback.t) (c : FillBufferCallback.Call) : Prop :=
  match c with
  | FillBufferCallback.ReportStatus text items =>
      FillBufferCallback.reportStatus callback text items = false
  | FillBufferCallback.ReportError msg retryNumber =>
      FillBufferCallback.reportError callback msg retryNumber = None
  end.

(** What an exit of [waitUntilDone] guarantees, for a loop entered with the
    observer calls [calls] already made: earlier calls are kept; a normal
    return happens with no thread left to finish, right after a final status
    call the observer accepted; an exception is the one of the last call. *)
Definition exitSound (callback : FillBufferCallback.t) (calls : list FillBufferCallback.Call)
    (r : AsyncCallback.Exit * list FillBufferCallback.Call * AsyncCallback.t) : Prop :=
  calls `prefix_of` r.1.2
  ∧ match r.1.1 with
    | AsyncCallback.NormalReturn =>
        AsyncCallback.threadsToFinish_ r.2 = 0%N
        ∧ last r.1.2 = Some (FillBufferCallback.ReportStatus (AsyncCallback.getCurrentStatus r.2)
                               (AsyncCallback.itemsScanned_ r.2))
        ∧ FillBufferCallback.reportStatus callback (AsyncCallback.getCurrentStatus r.2)
            (AsyncCallback.itemsScanned_ r.2) = true
    | AsyncCallback.Thrown => ∃ c, last r.1.2 = Some c ∧ threw callback c
    | AsyncCallback.StillWaiting => True
    end.

(** Closes goals that say "unchanged", possibly as one side of a
    disjunction. *)
Ltac settle :=
  first [ done | by left | by right
        | by (split; [done|]; split; [done|]; first [by left | right; done])
        | naive_solver ].

(** * Properties *)

(** ** The ordered map *)

Lemma emplace_keys k v m k' :
  k' ∈ stdmap.keys (stdmap.emplace k v m) ↔ k' = k ∨ k' ∈ stdmap.keys m.
Proof.
  unfold stdmap.keys. induction m as [|[k0 v0] m IH]; simpl.
  - rewrite list_elem_of_singleton, elem_of_nil. tauto.
  - destruct (Z.ltb_spec k k0); [by rewrite fmap_cons, elem_of_cons|].
    destruct (Z.eqb_spec k k0) as [->|]; simpl.
    + rewrite elem_of_cons. tauto.
    + rewrite !elem_of_cons, IH. tauto.
Qed.

Lemma emplace_ordered k v m : stdmap.ordered m → stdmap.ordered (stdmap.emplace k v m).
Proof.
  unfold stdmap.ordered, stdmap.keys. induction m as [|[k0 v0] m IH]; simpl; intros Hs.
  - repeat constructor.
  - destruct (Z.ltb_spec k k0).
    + simpl. constructor; [done|]. apply StronglySorted_inv in Hs as [_ Hall].
      constructor; [lia|]. eapply Forall_impl; [exact Hall|]. simpl. lia.
    + destruct (Z.eqb_spec k k0) as [->|]; [done|]. simpl.
      apply StronglySorted_inv in Hs as [Hs Hall].
      constructor; [by apply IH|].
      apply Forall_forall. intros x Hx.
      apply (emplace_keys k v m x) in Hx as [->|Hx]; [lia|].
      rewrite Forall_forall in Hall. by apply Hall.
Qed.

Lemma erase_keys_sub k m k' :
  k' ∈ stdmap.keys (stdmap.erase k m) → k' ∈ stdmap.keys m.
Proof.
  unfold stdmap.keys. induction m as [|[k0 v0] m IH]; simpl; [done|].
  destruct (Z.eqb_spec k k0); simpl; rewrite !elem_of_cons; [tauto|].
  intros [?|?]; [by left|right; by apply IH].
Qed.

Lemma erase_ordered k m : stdmap.ordered m → stdmap.ordered (stdmap.erase k m).
Proof.
  unfold stdmap.ordered, stdmap.keys. induction m as [|[k0 v0] m IH]; simpl; intros Hs; [done|].
  apply StronglySorted_inv in Hs as [Hs Hall].
  destruct (Z.eqb_spec k k0); [done|]. simpl.
  constructor; [by apply IH|].
  apply Forall_forall. intros x Hx. apply erase_keys_sub in Hx.
  rewrite Forall_forall in Hall. by apply Hall.
Qed.

Lemma erase_keys k m k' :
  stdmap.ordered m →
  k' ∈ stdmap.keys (stdmap.erase k m) ↔ k' ≠ k ∧ k' ∈ stdmap.keys m.
Proof.
  unfold stdmap.ordered, stdmap.keys. induction m as [|[k0 v0] m IH]; simpl; intros Hs.
  - rewrite elem_of_nil. tauto.
  - apply StronglySorted_inv in Hs as [Hs Hall]. rewrite Forall_forall in Hall.
    destruct (Z.eqb_spec k k0) as [->|]; simpl.
    + rewrite elem_of_cons. split.
      * intros Hin. split; [|by right]. apply Hall in Hin. lia.
      * intros [? [?|?]]; done.
    + rewrite !elem_of_cons, (IH Hs). split; [|tauto].
      intros [->|[? ?]]; [split; [congruence|by left]|tauto].
Qed.

Lemma begin_is_least k v m k' :
  stdmap.ordered ((k, v) :: m) → k' ∈ stdmap.keys ((k, v) :: m) → k ≤ k'.
Proof.
  unfold stdmap.ordered, stdmap.keys. simpl. intros Hs Hin.
  apply StronglySorted_inv in Hs as [_ Hall]. rewrite Forall_forall in Hall.
  apply elem_of_cons in Hin as [->|Hin]; [lia|]. apply Hall in Hin. lia.
Qed.

Lemma emplace_not_empty k v m : stdmap.emplace k v m ≠ [].
Proof. destruct m as [|[k0 v0] m]; simpl; [done|]. by repeat case_match. Qed.

(** ** The coordinator *)

Lemma notify_ordered a e :
  stdmap.ordered (AsyncCallback.activeThreadIdxs_ a) →
  stdmap.ordered (AsyncCallback.activeThreadIdxs_ (notify a e)).
Proof.
  destruct e; simpl; intros Ho.
  - by apply emplace_ordered.
  - by apply erase_ordered.
Qed.

Lemma history_ordered a history :
  stdmap.ordered (AsyncCallback.activeThreadIdxs_ a) →
  stdmap.ordered (AsyncCallback.activeThreadIdxs_ (foldl notify a history)).
Proof.
  revert a. induction history as [|e history IH]; simpl; intros a Ho; [done|].
  apply IH. by apply notify_ordered.
Qed.

(** After a notification the notifying index is the first key of the map, or
    0 when the map is empty. *)
Lemma notify_begin a e :
  AsyncCallback.notifyingThreadIdx_ (notify a e) =
    match AsyncCallback.activeThreadIdxs_ (notify a e) with
    | [] => 0
    | (first, _) :: _ => first
    end.
Proof.
  destruct e; simpl.
  - pose proof (emplace_not_empty threadIdx parallelOps (AsyncCallback.activeThreadIdxs_ a)).
    destruct (stdmap.emplace _ _ _) as [|[? ?] ?]; done.
  - destruct (stdmap.erase _ _) as [|[? ?] ?]; done.
Qed.

Lemma mayReport_spec threadIdx now lastReportTime a :
  AsyncCallback.mayReportCurrentFile threadIdx now lastReportTime a =
    if bool_decide (threadIdx = AsyncCallback.notifyingThreadIdx_ a
                    ∧ AsyncCallback.cbInterval_ a < zen.dist now lastReportTime)
    then (true, now) else (false, lastReportTime).
Proof.
  unfold AsyncCallback.mayReportCurrentFile.
  destruct (Z.eqb_spec threadIdx (AsyncCallback.notifyingThreadIdx_ a)); simpl.
  - destruct (Z.ltb_spec (AsyncCallback.cbInterval_ a) (zen.dist now lastReportTime)).
    + by rewrite bool_decide_eq_true_2.
    + rewrite bool_decide_eq_false_2; [done|]. lia.
  - rewrite bool_decide_eq_false_2; [done|]. tauto.
Qed.

(** C8.  After every [notifyWorkBegin] and [notifyWorkEnd] of any history of
    such calls on a new coordinator, [notifyingThreadIdx_] is 0 when
    [activeThreadIdxs_] is empty and otherwise is its least key.
    [mayReportCurrentFile] answers true iff the caller's index is
    [notifyingThreadIdx_] and the distance between the clock and
    [lastReportTime] (which is the elapsed time, the steady clock being
    monotonic) exceeds [cbInterval_]; [lastReportTime] becomes the clock's
    reading when the answer is true and is unchanged otherwise.  Hence two
    callers that are both allowed to report have the same index. *)
Theorem reporting_worker_is_lowest_active
    (threadsToFinish : N) (cbInterval : duration) (history : list WorkNotice) (e : WorkNotice) :
  let a := foldl notify (AsyncCallback.create threadsToFinish cbInterval) (history ++ [e]) in
  (AsyncCallback.activeThreadIdxs_ a = [] → AsyncCallback.notifyingThreadIdx_ a = 0)
  ∧ (AsyncCallback.activeThreadIdxs_ a ≠ [] →
       AsyncCallback.notifyingThreadIdx_ a ∈ stdmap.keys (AsyncCallback.activeThreadIdxs_ a)
       ∧ ∀ k, k ∈ stdmap.keys (AsyncCallback.activeThreadIdxs_ a) →
              AsyncCallback.notifyingThreadIdx_ a ≤ k)
  ∧ (∀ threadIdx now lastReportTime,
       let rv := AsyncCallback.mayReportCurrentFile threadIdx now lastReportTime a in
       (rv.1 = true ↔
          threadIdx = AsyncCallback.notifyingThreadIdx_ a
          ∧ AsyncCallback.cbInterval_ a < zen.dist now lastReportTime)
       ∧ (lastReportTime ≤ now → zen.dist now lastReportTime = now - lastReportTime)
       ∧ rv.2 = (if rv.1 then now else lastReportTime))
  ∧ (∀ i1 i2 now1 now2 last1 last2,
       (AsyncCallback.mayReportCurrentFile i1 now1 last1 a).1 = true →
       (AsyncCallback.mayReportCurrentFile i2 now2 last2 a).1 = true → i1 = i2).
Proof.
  intros a.
  assert (Hord : stdmap.ordered (AsyncCallback.activeThreadIdxs_ a)).
  { apply history_ordered. constructor. }
  assert (Hbegin : AsyncCallback.notifyingThreadIdx_ a =
                   match AsyncCallback.activeThreadIdxs_ a with
                   | [] => 0
                   | (first, _) :: _ => first
                   end).
  { subst a. rewrite foldl_snoc. apply notify_begin. }
  split; [|split; [|split]].
  - intros Hempty. by rewrite Hbegin, Hempty.
  - intros Hne. destruct (AsyncCallback.activeThreadIdxs_ a) as [|[first v] rest] eqn:Hact; [done|].
    rewrite Hbegin. split.
    + unfold stdmap.keys. simpl. apply elem_of_cons. by left.
    + intros k Hk. by eapply begin_is_least.
  - intros threadIdx now lastReportTime rv. subst rv. rewrite mayReport_spec.
    split; [|split].
    + case_bool_decide; simpl; [tauto|]. split; [done|tauto].
    + intros Hmono. unfold zen.dist. destruct (Z.ltb_spec lastReportTime now); lia.
    + by case_bool_decide.
  - intros i1 i2 now1 now2 last1 last2. rewrite !mayReport_spec.
    do 2 case_bool_decide; simpl; try done. intros _ _. destruct H, H0. congruence.
Qed.

(** ** The traversal callbacks *)

(** A write through a reference reaches the node the reference designates. *)
Lemma deref_update r f root current :
  FolderContainer.deref r root = Some current →
  FolderContainer.deref r (FolderContainer.update r f root) = Some (f current).
Proof.
  revert root. induction r as [|name r IH]; simpl; intros root Hd.
  - congruence.
  - destruct (FolderContainer.children root !! name) as [[?|?|b sub]|] eqn:Hc; try done.
    simpl. rewrite lookup_insert_eq. by apply IH.
Qed.

Lemma addSubFolder_item name flag current :
  ∃ sub, FolderContainer.children (FolderContainer.addSubFolder name flag current) !! name
         = Some (FolderContainer.SubFolder flag sub).
Proof.
  unfold FolderContainer.addSubFolder.
  destruct (FolderContainer.children current !! name) as [[?|?|b sub]|]; simpl;
    eexists; apply lookup_insert_eq.
Qed.

Lemma int_wrap_succ z : - 2 ^ 31 ≤ z < INT_MAX → int_wrap (z + 1) = z + 1.
Proof.
  unfold int_wrap, INT_MAX. intros Hz.
  rewrite Z.mod_small; lia.
Qed.

Section CallbackFacts.
Context {afs : AFS} {platform : Platform}.

Lemma updateStatus_run self itemRelPath env s :
  updateStatus self itemRelPath env s = Returned tt (statusUpdated self itemRelPath env s).
Proof.
  unfold updateStatus, statusUpdated, bind, acb_mayReportCurrentFile, when,
    acb_reportCurrentFile, ret, set_acb.
  rewrite (surjective_pairing (AsyncCallback.mayReportCurrentFile _ _ _ _)).
  unfold AsyncCallback.mayReportCurrentFile. destruct s as [o a t]; simpl.
  destruct (negb _); simpl; [done|]. by destruct (_ <? _).
Qed.

Lemma statusUpdated_output self p env s : output (statusUpdated self p env s) = output s.
Proof. unfold statusUpdated. by destruct (_.1). Qed.

Lemma statusUpdated_itemsScanned self p env s :
  AsyncCallback.itemsScanned_ (acb (statusUpdated self p env s))
  = AsyncCallback.itemsScanned_ (acb s).
Proof. unfold statusUpdated. by destruct (_.1). Qed.

(** C6.  When the cancellation check passes, [onFile] returns, and: an entry
    whose name ends with the database or the lock ending leaves the state as
    it was (nothing recorded, nothing counted); otherwise an entry whose
    relative path fails [passFileFilter] leaves the output and the count as
    they were; otherwise the container [output_] refers to has the entry's
    [FileAttributes] (modification time, size, file id, symlink flag) under
    its name, the error maps are untouched and [itemsScanned_] is one more. *)
Theorem onFile_skips_filters_or_records
    (self : DirCallback) (fi : FileInfo.t) (env : ThreadEnv) (s : ScanState)
    (current : FolderContainer.t) :
  interrupted env = false →
  FolderContainer.deref (output_ self) (folderCont (output s)) = Some current →
  0 ≤ AsyncCallback.itemsScanned_ (acb s) < INT_MAX →
  let fileRelPath := parentRelPathPf_ self +:+ FileInfo.itemName fi in
  let record :=
    {| fa_modTime := FileInfo.modTime fi; fa_fileSize := FileInfo.fileSize fi;
       fa_fileId := FileInfo.fileId fi;
       fa_isFollowedSymlink := bool_decide (FileInfo.symlinkInfo fi ≠ None) |} in
  ∃ s', onFile self fi env s = Returned tt s'
    ∧ if zen.endsWith (FileInfo.itemName fi) SYNC_DB_FILE_ENDING
         || zen.endsWith (FileInfo.itemName fi) LOCK_FILE_ENDING
      then s' = s
      else if passFileFilter (TraverserConfig.filter (cfg_ self)) fileRelPath
      then FolderContainer.deref (output_ self) (folderCont (output s'))
             = Some (FolderContainer.addSubFile (FileInfo.itemName fi) record current)
           ∧ FolderContainer.item (output_ self) (FileInfo.itemName fi) (folderCont (output s'))
             = Some (FolderContainer.FileRecord record)
           ∧ failedFolderReads (output s') = failedFolderReads (output s)
           ∧ failedItemReads (output s') = failedItemReads (output s)
           ∧ AsyncCallback.itemsScanned_ (acb s') = AsyncCallback.itemsScanned_ (acb s) + 1
      else output s' = output s
           ∧ AsyncCallback.itemsScanned_ (acb s') = AsyncCallback.itemsScanned_ (acb s).
Proof.
  intros Hint Hcur Hcount fileRelPath record.
  unfold onFile, bind, interruptionPoint. rewrite Hint.
  destruct (_ || _); [by exists s|].
  rewrite updateStatus_run. fold fileRelPath.
  set (s1 := statusUpdated self fileRelPath env s).
  destruct (passFileFilter _ _); simpl.
  - eexists. split; [reflexivity|]. simpl.
    subst s1. rewrite !statusUpdated_output, statusUpdated_itemsScanned.
    assert (Hd := deref_update (output_ self)
                    (FolderContainer.addSubFile (FileInfo.itemName fi) record) _ _ Hcur).
    fold record. repeat split; try done.
    + unfold FolderContainer.item. rewrite Hd. simpl. apply lookup_insert_eq.
    + apply int_wrap_succ. unfold INT_MAX in *. lia.
  - exists s1. subst s1. by rewrite statusUpdated_output, statusUpdated_itemsScanned.
Qed.

Lemma acb_reportError_run msg retryNumber env s decision :
  interrupted env = false →
  FillBufferCallback.reportError (foreground env) msg retryNumber = Some decision →
  acb_reportError msg retryNumber env s = Returned decision (answered s).
Proof.
  intros Hint Hans. unfold acb_reportError, AsyncCallback.reportError.
  by rewrite Hint, Hans.
Qed.

Lemma reportDirError_run self msg retryNumber env s decision :
  interrupted env = false →
  FillBufferCallback.reportError (foreground env) msg retryNumber = Some decision →
  reportDirError self msg retryNumber env s =
    match decision with
    | FillBufferCallback.ON_ERROR_CONTINUE =>
        Returned TraverserCallback.ON_ERROR_CONTINUE
          (set_output
             {| folderCont := folderCont (output s);
                failedFolderReads :=
                  <[zen.beforeLast (parentRelPathPf_ self) FILE_NAME_SEPARATOR
                      zen.IF_MISSING_RETURN_NONE := msg]> (failedFolderReads (output s));
                failedItemReads := failedItemReads (output s) |} (answered s))
    | FillBufferCallback.ON_ERROR_RETRY =>
        Returned TraverserCallback.ON_ERROR_RETRY (answered s)
    end.
Proof.
  intros Hint Hans. unfold reportDirError, bind.
  rewrite (acb_reportError_run _ _ _ _ _ Hint Hans). by destruct decision.
Qed.

Lemma reportItemError_run self msg retryNumber itemName env s decision :
  interrupted env = false →
  FillBufferCallback.reportError (foreground env) msg retryNumber = Some decision →
  reportItemError self msg retryNumber itemName env s =
    match decision with
    | FillBufferCallback.ON_ERROR_CONTINUE =>
        Returned TraverserCallback.ON_ERROR_CONTINUE
          (set_output
             {| folderCont := folderCont (output s);
                failedFolderReads := failedFolderReads (output s);
                failedItemReads :=
                  <[parentRelPathPf_ self +:+ itemName := msg]> (failedItemReads (output s)) |}
             (answered s))
    | FillBufferCallback.ON_ERROR_RETRY =>
        Returned TraverserCallback.ON_ERROR_RETRY (answered s)
    end.
Proof.
  intros Hint Hans. unfold reportItemError, bind.
  rewrite (acb_reportError_run _ _ _ _ _ Hint Hans). by destruct decision.
Qed.

(** C7.  When the coordinator's decision on an error is CONTINUE,
    [reportDirError] stores the message in [failedFolderReads] under
    [beforeLast(parentRelPathPf_, FILE_NAME_SEPARATOR)] and [reportItemError]
    stores it in [failedItemReads] under [parentRelPathPf_ + itemName], each
    leaving the other map alone, and both return CONTINUE.  When the decision
    is RETRY both return RETRY and the output, with its two error maps, is
    what it was. *)
Theorem error_recorded_on_continue_only
    (self : DirCallback) (msg : wstring) (retryNumber : N) (itemName : Zstring)
    (env : ThreadEnv) (s : ScanState) (decision : FillBufferCallback.HandleError) :
  interrupted env = false →
  FillBufferCallback.reportError (foreground env) msg retryNumber = Some decision →
  ∃ sDir sItem,
    match decision with
    | FillBufferCallback.ON_ERROR_CONTINUE =>
        reportDirError self msg retryNumber env s
          = Returned TraverserCallback.ON_ERROR_CONTINUE sDir
        ∧ failedFolderReads (output sDir)
          = <[zen.beforeLast (parentRelPathPf_ self) FILE_NAME_SEPARATOR zen.IF_MISSING_RETURN_NONE
              := msg]> (failedFolderReads (output s))
        ∧ failedItemReads (output sDir) = failedItemReads (output s)
        ∧ reportItemError self msg retryNumber itemName env s
          = Returned TraverserCallback.ON_ERROR_CONTINUE sItem
        ∧ failedItemReads (output sItem)
          = <[parentRelPathPf_ self +:+ itemName := msg]> (failedItemReads (output s))
        ∧ failedFolderReads (output sItem) = failedFolderReads (output s)
    | FillBufferCallback.ON_ERROR_RETRY =>
        reportDirError self msg retryNumber env s
          = Returned TraverserCallback.ON_ERROR_RETRY sDir
        ∧ output sDir = output s
        ∧ reportItemError self msg retryNumber itemName env s
          = Returned TraverserCallback.ON_ERROR_RETRY sItem
        ∧ output sItem = output s
    end.
Proof.
  intros Hint Hans.
  rewrite (reportDirError_run self _ _ _ s _ Hint Hans).
  rewrite (reportItemError_run self _ _ itemName _ s _ Hint Hans).
  destruct decision; by eexists _, _.
Qed.

Lemma BaseDirCallback_run filters key threadIdx env s :
  ∃ s', BaseDirCallback filters key threadIdx env s
          = Returned {| cfg_ := {| TraverserConfig.baseFolderPath := DirectoryKey.folderPath key;
                                   TraverserConfig.filter := filters (DirectoryKey.filter key);
                                   TraverserConfig.handleSymlinks := DirectoryKey.handleSymlinks key;
                                   TraverserConfig.threadIdx := threadIdx |};
                        parentRelPathPf_ := EmptyString; output_ := []; level_ := 0 |} s'
        ∧ output s' = output s.
Proof.
  unfold BaseDirCallback, bind, acb_mayReportCurrentFile, when, acb_reportCurrentFile, ret.
  destruct (AsyncCallback.mayReportCurrentFile _ _ _ _) as [[] t]; simpl; by eexists.
Qed.

(** C10.  The callback [BaseDirCallback] builds has the empty string as
    [parentRelPathPf_]; [beforeLast] of it, with "return none when missing",
    is the empty string; so when enumerating the base folder fails and the
    decision is CONTINUE, [reportDirError] of the base callback stores the
    message in [failedFolderReads] under the empty relative path. *)
Theorem base_folder_error_recorded_under_empty_path
    (filters : FilterRef → HardFilter) (key : DirectoryKey.t) (threadIdx : Z)
    (env : ThreadEnv) (s : ScanState)
    (msg : wstring) (retryNumber : N) (env' : ThreadEnv) :
  interrupted env' = false →
  FillBufferCallback.reportError (foreground env') msg retryNumber
    = Some FillBufferCallback.ON_ERROR_CONTINUE →
  ∃ base s1 s2,
    BaseDirCallback filters key threadIdx env s = Returned base s1
    ∧ parentRelPathPf_ base = EmptyString
    ∧ zen.beforeLast (parentRelPathPf_ base) FILE_NAME_SEPARATOR zen.IF_MISSING_RETURN_NONE
      = EmptyString
    ∧ reportDirError base msg retryNumber env' s1
      = Returned TraverserCallback.ON_ERROR_CONTINUE s2
    ∧ failedFolderReads (output s2) = <[EmptyString := msg]> (failedFolderReads (output s))
    ∧ failedFolderReads (output s2) !! EmptyString = Some msg.
Proof.
  intros Hint Hans.
  destruct (BaseDirCallback_run filters key threadIdx env s) as [s1 [Hbase Hout]].
  eexists _, s1, _. split; [exact Hbase|].
  rewrite (reportDirError_run _ _ _ _ s1 _ Hint Hans). simpl.
  repeat split; try done.
  - by rewrite Hout.
  - apply lookup_insert_eq.
Qed.

(** The retry loop: the observer answers RETRY [n] times and then CONTINUE. *)
Lemma tryReportingItemError_retries (n : nat) :
  ∀ (fuel : nat) (e : zen.FileError) (self : DirCallback) (itemName : Zstring)
    (retryNumber : N) (env : ThreadEnv) (s : ScanState),
  interrupted env = false →
  (n < fuel)%nat →
  (retryNumber + N.of_nat n < 2 ^ 64)%N →
  (∀ i, (i < n)%nat →
     FillBufferCallback.reportError (foreground env) (zen.toString e) (retryNumber + N.of_nat i)
       = Some FillBufferCallback.ON_ERROR_RETRY) →
  FillBufferCallback.reportError (foreground env) (zen.toString e) (retryNumber + N.of_nat n)
    = Some FillBufferCallback.ON_ERROR_CONTINUE →
  tryReportingItemError fuel (λ _, Some e) (reportItemError self) itemName retryNumber env s
    = Returned false
        (set_output
           {| folderCont := folderCont (output s);
              failedFolderReads := failedFolderReads (output s);
              failedItemReads :=
                <[parentRelPathPf_ self +:+ itemName := zen.toString e]> (failedItemReads (output s)) |}
           (answered s)).
Proof.
  induction n as [|n IH]; intros fuel e self itemName retryNumber env s Hint Hfuel Hbound Hretry Hcont.
  - destruct fuel as [|fuel]; [lia|]. simpl. unfold bind.
    rewrite N.add_0_r in Hcont.
    by rewrite (reportItemError_run self _ _ itemName _ s _ Hint Hcont).
  - destruct fuel as [|fuel]; [lia|]. simpl. unfold bind.
    assert (Hfirst := Hretry 0%nat ltac:(lia)). rewrite N.add_0_r in Hfirst.
    rewrite (reportItemError_run self _ _ itemName _ s _ Hint Hfirst).
    assert (Hnext : size_t_wrap (retryNumber + 1) = (retryNumber + 1)%N).
    { unfold size_t_wrap. apply N.mod_small. lia. }
    rewrite Hnext.
    rewrite (IH fuel e self itemName (retryNumber + 1)%N env (answered s)); try done; try lia.
    + intros i Hi. replace (retryNumber + 1 + N.of_nat i)%N with (retryNumber + N.of_nat (S i))%N by lia.
      apply Hretry. lia.
    + replace (retryNumber + 1 + N.of_nat n)%N with (retryNumber + N.of_nat (S n))%N by lia. done.
Qed.

(** C2, as the code has it.  When the cancellation check passes, [onFolder]
    returns.  For a directory entry that the directory filter excludes
    (it does not pass, and no child might), at any level: no callback is
    returned, and the output (tree and both error maps) and the item count are
    what they were.  For any other entry: the folder node is added under the
    entry's name, and [failedFolderReads] is left alone.  At a level of at
    most 100 the callback returned is the child: same configuration, prefix
    extended by the name and the separator, the new node as output,
    level + 1.  At a level above 100 the "Cannot read directory - Endless
    recursion" error goes through [reportItemError] with retry numbers 0, 1,
    ...; once the observer answers CONTINUE (after [n] RETRY answers) the
    message is in [failedItemReads] under the folder's relative path and no
    callback is returned. *)
Theorem onFolder_descends_unless_too_deep
    (fuel : nat) (self : DirCallback) (fi : FolderInfo.t) (env : ThreadEnv) (s : ScanState)
    (current : FolderContainer.t) (n : nat) :
  interrupted env = false →
  FolderContainer.deref (output_ self) (folderCont (output s)) = Some current →
  let name := FolderInfo.itemName fi in
  let folderRelPath := parentRelPathPf_ self +:+ name in
  let flag := bool_decide (FolderInfo.symlinkInfo fi ≠ None) in
  let msg := zen.toString (endlessRecursion self folderRelPath) in
  let verdict := passDirFilter (TraverserConfig.filter (cfg_ self)) folderRelPath in
  (verdict.1 = true ∨ verdict.2 = true →
   100 < level_ self →
     (n < fuel)%nat ∧ (N.of_nat n < 2 ^ 64)%N
     ∧ (∀ i, (i < n)%nat →
          FillBufferCallback.reportError (foreground env) msg (N.of_nat i)
            = Some FillBufferCallback.ON_ERROR_RETRY)
     ∧ FillBufferCallback.reportError (foreground env) msg (N.of_nat n)
         = Some FillBufferCallback.ON_ERROR_CONTINUE) →
  ∃ rv s',
    onFolder fuel self fi env s = Returned rv s'
    ∧ if negb verdict.1 && negb verdict.2
      then rv = None
           ∧ output s' = output s
           ∧ AsyncCallback.itemsScanned_ (acb s') = AsyncCallback.itemsScanned_ (acb s)
      else FolderContainer.deref (output_ self) (folderCont (output s'))
           = Some (FolderContainer.addSubFolder name flag current)
           ∧ (∃ sub, FolderContainer.item (output_ self) name (folderCont (output s'))
                     = Some (FolderContainer.SubFolder flag sub))
           ∧ failedFolderReads (output s') = failedFolderReads (output s)
           ∧ if 100 <? level_ self
             then rv = None
                  ∧ failedItemReads (output s')
                    = <[folderRelPath := msg]> (failedItemReads (output s))
             else rv = Some {| cfg_ := cfg_ self;
                               parentRelPathPf_ :=
                                 folderRelPath +:+ String FILE_NAME_SEPARATOR EmptyString;
                               output_ := output_ self ++ [name];
                               level_ := level_ self + 1 |}
                  ∧ failedItemReads (output s') = failedItemReads (output s).
Proof.
  intros Hint Hcur name folderRelPath flag msg verdict Hdeep.
  unfold onFolder, bind, interruptionPoint. rewrite Hint.
  rewrite updateStatus_run. fold name folderRelPath.
  set (s1 := statusUpdated self folderRelPath env s).
  subst verdict.
  destruct (passDirFilter _ folderRelPath) as [passFilter might] eqn:Hverdict.
  cbn [fst snd] in *.
  destruct (negb passFilter && negb might) eqn:Hgo.
  { (* excluded: do NOT traverse subdirs *)
    exists None, s1. split; [reflexivity|]. split; [done|]. subst s1.
    by rewrite statusUpdated_output, statusUpdated_itemsScanned. }
  assert (Hpass : passFilter = true ∨ might = true)
    by (destruct passFilter, might; simpl in Hgo; first [by left | by right | done]).
  specialize (Hdeep Hpass).
  unfold modify_folder at 1.
  remember (endlessRecursion self folderRelPath) as e eqn:He.
  assert (Hd := deref_update (output_ self) (FolderContainer.addSubFolder name flag)
                  (folderCont (output s)) current Hcur).
  assert (Hitem : ∀ root, FolderContainer.deref (output_ self) root
                          = Some (FolderContainer.addSubFolder name flag current) →
                  ∃ sub, FolderContainer.item (output_ self) name root
                         = Some (FolderContainer.SubFolder flag sub)).
  { intros root Hr. unfold FolderContainer.item. rewrite Hr. simpl. apply addSubFolder_item. }
  match goal with |- context [when passFilter acb_incItemsScanned env ?st] => set (s2 := st) end.
  assert (Hout2 : output s2 =
                  {| folderCont := FolderContainer.update (output_ self)
                                     (FolderContainer.addSubFolder name flag) (folderCont (output s));
                     failedFolderReads := failedFolderReads (output s);
                     failedItemReads := failedItemReads (output s) |}).
  { subst s2 s1. unfold set_output. cbn [output]. by rewrite statusUpdated_output. }
  assert (Hs2 : ∃ s3, when passFilter acb_incItemsScanned env s2 = Returned tt s3
                      ∧ output s3 = output s2).
  { destruct passFilter; by eexists. }
  destruct Hs2 as [s3 [Hrun3 Hout3]]. rewrite Hrun3. clearbody s2. clear Hrun3.
  destruct (Z.ltb_spec 100 (level_ self)) as [Hlevel|Hlevel].
  - destruct (Hdeep Hlevel) as (Hfuel & Hbound & Hretry & Hcont).
    rewrite (tryReportingItemError_retries n fuel e self name 0%N env s3 Hint Hfuel);
      [|by rewrite N.add_0_l|by intros i Hi; rewrite N.add_0_l; apply Hretry
       |by rewrite N.add_0_l].
    cbn [negb]. unfold ret. eexists _, _. split; [reflexivity|].
    unfold set_output, answered, set_acb. cbn [output folderCont failedFolderReads failedItemReads].
    rewrite Hout3, Hout2. cbn [output folderCont failedFolderReads failedItemReads].
    repeat split; try done. by apply Hitem.
  - unfold ret. eexists _, _. split; [reflexivity|]. rewrite Hout3, Hout2.
    cbn [output folderCont failedFolderReads failedItemReads].
    repeat split; try done. by apply Hitem.
Qed.

(** *** What a call may change *)

(** Whatever the environment, the coordinator's answer leaves the output
    alone. *)
Lemma acb_reportError_output msg retryNumber env s :
  ∃ s1, output s1 = output s
        ∧ (acb_reportError msg retryNumber env s = ThreadInterruption s1
           ∨ ∃ rv, acb_reportError msg retryNumber env s = Returned rv s1).
Proof.
  unfold acb_reportError, AsyncCallback.reportError.
  destruct (interrupted env); [exists (set_acb (acb s) s); split; [done|by left]|].
  destruct (FillBufferCallback.reportError _ _ _) as [rv|]; eexists; (split; [|eauto]); done.
Qed.

Lemma reportDirError_effect self msg retryNumber env s s' :
  stateOf (reportDirError self msg retryNumber env s) = Some s' →
  folderCont (output s') = folderCont (output s)
  ∧ failedItemReads (output s') = failedItemReads (output s)
  ∧ (failedFolderReads (output s') = failedFolderReads (output s)
     ∨ failedFolderReads (output s')
       = <[zen.beforeLast (parentRelPathPf_ self) FILE_NAME_SEPARATOR zen.IF_MISSING_RETURN_NONE
           := msg]> (failedFolderReads (output s))).
Proof.
  unfold reportDirError, bind.
  destruct (acb_reportError_output msg retryNumber env s) as (s1 & Hout & [Hrun|[rv Hrun]]);
    rewrite Hrun; simpl.
  - intros [= <-]. rewrite Hout. settle.
  - destruct rv; simpl; intros [= <-]; simpl; rewrite Hout; settle.
Qed.

Lemma reportItemError_effect self msg retryNumber itemName env s s' :
  stateOf (reportItemError self msg retryNumber itemName env s) = Some s' →
  folderCont (output s') = folderCont (output s)
  ∧ failedFolderReads (output s') = failedFolderReads (output s)
  ∧ (failedItemReads (output s') = failedItemReads (output s)
     ∨ failedItemReads (output s')
       = <[parentRelPathPf_ self +:+ itemName := msg]> (failedItemReads (output s))).
Proof.
  unfold reportItemError, bind.
  destruct (acb_reportError_output msg retryNumber env s) as (s1 & Hout & [Hrun|[rv Hrun]]);
    rewrite Hrun; simpl.
  - intros [= <-]. rewrite Hout. settle.
  - destruct rv; simpl; intros [= <-]; simpl; rewrite Hout; settle.
Qed.

Lemma tryReportingItemError_effect (fuel : nat) :
  ∀ e self itemName retryNumber env s s',
    stateOf (tryReportingItemError fuel (λ _, Some e) (reportItemError self) itemName
               retryNumber env s) = Some s' →
    folderCont (output s') = folderCont (output s)
    ∧ failedFolderReads (output s') = failedFolderReads (output s)
    ∧ (failedItemReads (output s') = failedItemReads (output s)
       ∨ failedItemReads (output s')
         = <[parentRelPathPf_ self +:+ itemName := zen.toString e]> (failedItemReads (output s))).
Proof.
  induction fuel as [|fuel IH]; intros e self itemName retryNumber env s s'; simpl; [done|].
  unfold bind.
  destruct (reportItemError self (zen.toString e) retryNumber itemName env s) as [rv s1|s1|] eqn:Hrun;
    [| |done].
  - destruct rv.
    + (* RETRY: nothing was recorded *)
      assert (Hs1 : output s1 = output s).
      { revert Hrun. unfold reportItemError, bind.
        destruct (acb_reportError_output (zen.toString e) retryNumber env s)
          as (s0 & Hout & [Hr|[rv Hr]]); rewrite Hr; [done|].
        destruct rv; simpl; [|done]. intros [= <-]. done. }
      intros Hrest. apply IH in Hrest. by rewrite Hs1 in Hrest.
    + simpl. intros [= <-]. apply (reportItemError_effect self _ retryNumber itemName env s).
      by rewrite Hrun.
  - simpl. intros [= <-]. apply (reportItemError_effect self _ retryNumber itemName env s).
    by rewrite Hrun.
Qed.

Lemma onFile_effect self fi env s s' :
  stateOf (onFile self fi env s) = Some s' →
  failedFolderReads (output s') = failedFolderReads (output s)
  ∧ failedItemReads (output s') = failedItemReads (output s)
  ∧ (folderCont (output s') = folderCont (output s)
     ∨ passFileFilter (TraverserConfig.filter (cfg_ self))
         (parentRelPathPf_ self +:+ FileInfo.itemName fi) = true
       ∧ folderCont (output s')
         = FolderContainer.update (output_ self)
             (FolderContainer.addSubFile (FileInfo.itemName fi)
                {| fa_modTime := FileInfo.modTime fi; fa_fileSize := FileInfo.fileSize fi;
                   fa_fileId := FileInfo.fileId fi;
                   fa_isFollowedSymlink := bool_decide (FileInfo.symlinkInfo fi ≠ None) |})
             (folderCont (output s))).
Proof.
  unfold onFile, bind, interruptionPoint.
  destruct (interrupted env); [intros [= <-]; settle|].
  destruct (_ || _); [intros [= <-]; settle|].
  rewrite updateStatus_run.
  destruct (passFileFilter _ _) eqn:Hpass; simpl; intros [= <-]; simpl;
    rewrite !statusUpdated_output; settle.
Qed.

Lemma onSymlink_effect self si env s s' :
  stateOf (onSymlink self si env s) = Some s' →
  failedFolderReads (output s') = failedFolderReads (output s)
  ∧ failedItemReads (output s') = failedItemReads (output s)
  ∧ (folderCont (output s') = folderCont (output s)
     ∨ TraverserConfig.handleSymlinks (cfg_ self) = DIRECT
       ∧ passFileFilter (TraverserConfig.filter (cfg_ self))
           (parentRelPathPf_ self +:+ SymlinkInfo.itemName si) = true
       ∧ folderCont (output s')
         = FolderContainer.update (output_ self)
             (FolderContainer.addSubLink (SymlinkInfo.itemName si)
                {| la_modTime := SymlinkInfo.modTime si |})
             (folderCont (output s))).
Proof.
  unfold onSymlink, bind, interruptionPoint.
  destruct (interrupted env); [intros [= <-]; settle|].
  rewrite updateStatus_run.
  destruct (TraverserConfig.handleSymlinks _) eqn:Hmode.
  - intros [= <-]. rewrite !statusUpdated_output. settle.
  - destruct (passFileFilter _ _) eqn:Hpass; simpl; intros [= <-]; simpl;
      rewrite !statusUpdated_output; settle.
  - destruct (_ && _); intros [= <-]; rewrite !statusUpdated_output; settle.
Qed.

Lemma onFolder_effect fuel self fi env s s' :
  stateOf (onFolder fuel self fi env s) = Some s' →
  let folderRelPath := parentRelPathPf_ self +:+ FolderInfo.itemName fi in
  failedFolderReads (output s') = failedFolderReads (output s)
  ∧ (folderCont (output s') = folderCont (output s)
     ∧ failedItemReads (output s') = failedItemReads (output s)
     ∨ ((passDirFilter (TraverserConfig.filter (cfg_ self)) folderRelPath).1 = true
        ∨ (passDirFilter (TraverserConfig.filter (cfg_ self)) folderRelPath).2 = true)
       ∧ folderCont (output s')
         = FolderContainer.update (output_ self)
             (FolderContainer.addSubFolder (FolderInfo.itemName fi)
                (bool_decide (FolderInfo.symlinkInfo fi ≠ None)))
             (folderCont (output s))
       ∧ (failedItemReads (output s') = failedItemReads (output s)
          ∨ 100 < level_ self
            ∧ failedItemReads (output s')
              = <[folderRelPath := zen.toString (endlessRecursion self folderRelPath)]>
                  (failedItemReads (output s)))).
Proof.
  intros Hrun folderRelPath. revert Hrun.
  unfold onFolder, bind, interruptionPoint.
  destruct (interrupted env); [intros [= <-]; settle|].
  rewrite updateStatus_run. fold folderRelPath.
  set (s1 := statusUpdated self folderRelPath env s).
  destruct (passDirFilter _ folderRelPath) as [passFilter might] eqn:Hverdict.
  destruct (negb passFilter && negb might) eqn:Hgo.
  { intros [= <-]. subst s1. rewrite !statusUpdated_output. settle. }
  assert (Hadmit : passFilter = true ∨ might = true)
    by (destruct passFilter, might; simpl in Hgo; first [by left | by right | done]).
  unfold modify_folder at 1.
  remember (endlessRecursion self folderRelPath) as e eqn:He.
  match goal with |- context [when passFilter acb_incItemsScanned env ?st] => set (s2 := st) end.
  assert (Hout2 : output s2 =
                  {| folderCont := FolderContainer.update (output_ self)
                                     (FolderContainer.addSubFolder (FolderInfo.itemName fi)
                                        (bool_decide (FolderInfo.symlinkInfo fi ≠ None)))
                                     (folderCont (output s));
                     failedFolderReads := failedFolderReads (output s);
                     failedItemReads := failedItemReads (output s) |}).
  { subst s2 s1. unfold set_output. cbn [output]. by rewrite statusUpdated_output. }
  assert (Hs2 : ∃ s3, when passFilter acb_incItemsScanned env s2 = Returned tt s3
                      ∧ output s3 = output s2).
  { destruct passFilter; by eexists. }
  destruct Hs2 as [s3 [Hrun3 Hout3]]. rewrite Hrun3. clearbody s2. clear Hrun3.
  destruct (Z.ltb_spec 100 (level_ self)) as [Hlevel|Hlevel].
  - destruct (tryReportingItemError fuel _ _ _ _ env s3) as [ok s4|s4|] eqn:Htry; [| |done].
    + assert (Heff := tryReportingItemError_effect fuel e self (FolderInfo.itemName fi) 0%N env s3 s4).
      rewrite Htry in Heff. destruct (Heff eq_refl) as (Hc & Hf & Hi).
      assert (stateOf ((if negb ok then ret None else ret (Some _)) env s4 : Result (option DirCallback))
              = Some s4) as -> by (by destruct ok).
      intros [= <-]. rewrite Hc, Hf, Hout3, Hout2. simpl. split; [done|]. right.
      split; [done|]. split; [done|].
      destruct Hi as [Hi|Hi]; rewrite Hi, Hout3, Hout2; simpl; settle.
    + assert (Heff := tryReportingItemError_effect fuel e self (FolderInfo.itemName fi) 0%N env s3 s4).
      rewrite Htry in Heff. destruct (Heff eq_refl) as (Hc & Hf & Hi).
      intros [= <-]. rewrite Hc, Hf, Hout3, Hout2. simpl. split; [done|]. right.
      split; [done|]. split; [done|].
      destruct Hi as [Hi|Hi]; rewrite Hi, Hout3, Hout2; simpl; settle.
  - intros [= <-]. rewrite Hout3, Hout2. simpl. settle.
Qed.

(** C3, as the code has it.  Within one call the tree and the error maps are
    kept apart: [onFile] and [onSymlink] never touch [failedFolderReads] or
    [failedItemReads]; [reportDirError] and [reportItemError] never touch the
    tree; [onFolder] never touches [failedFolderReads], and touches
    [failedItemReads] only above level 100, where the key it writes is the
    relative path of the folder node it has just added.  (A folder may
    therefore be in the tree and be a key of an error map.) *)
Theorem callbacks_keep_tree_and_error_maps_apart
    (fuel : nat) (self : DirCallback) (env : ThreadEnv) (s : ScanState) :
  (∀ fi s', stateOf (onFile self fi env s) = Some s' →
     failedFolderReads (output s') = failedFolderReads (output s)
     ∧ failedItemReads (output s') = failedItemReads (output s))
  ∧ (∀ si s', stateOf (onSymlink self si env s) = Some s' →
       failedFolderReads (output s') = failedFolderReads (output s)
       ∧ failedItemReads (output s') = failedItemReads (output s))
  ∧ (∀ msg retryNumber s', stateOf (reportDirError self msg retryNumber env s) = Some s' →
       folderCont (output s') = folderCont (output s))
  ∧ (∀ msg retryNumber itemName s',
       stateOf (reportItemError self msg retryNumber itemName env s) = Some s' →
       folderCont (output s') = folderCont (output s))
  ∧ (∀ fi s', stateOf (onFolder fuel self fi env s) = Some s' →
       let folderRelPath := parentRelPathPf_ self +:+ FolderInfo.itemName fi in
       failedFolderReads (output s') = failedFolderReads (output s)
       ∧ (failedItemReads (output s') = failedItemReads (output s)
          ∨ 100 < level_ self
            ∧ failedItemReads (output s')
              = <[folderRelPath := zen.toString (endlessRecursion self folderRelPath)]>
                  (failedItemReads (output s))
            ∧ folderCont (output s')
              = FolderContainer.update (output_ self)
                  (FolderContainer.addSubFolder (FolderInfo.itemName fi)
                     (bool_decide (FolderInfo.symlinkInfo fi ≠ None)))
                  (folderCont (output s)))).
Proof.
  split; [|split; [|split; [|split]]].
  - intros fi s' Hrun. apply onFile_effect in Hrun as (? & ? & _). done.
  - intros si s' Hrun. apply onSymlink_effect in Hrun as (? & ? & _). done.
  - intros msg retryNumber s' Hrun. by apply reportDirError_effect in Hrun as (? & _).
  - intros msg retryNumber itemName s' Hrun. by apply reportItemError_effect in Hrun as (? & _).
  - intros fi s' Hrun folderRelPath.
    apply onFolder_effect in Hrun as (Hf & [[_ Hi]|(_ & Htree & [Hi|[Hlevel Hi]])]).
    + split; [done|by left].
    + split; [done|by left].
    + split; [done|]. right. done.
Qed.

(** The coordinator's answer leaves the item count alone. *)
Lemma acb_reportError_count msg retryNumber env s s1 :
  stateOf (acb_reportError msg retryNumber env s) = Some s1 →
  AsyncCallback.itemsScanned_ (acb s1) = AsyncCallback.itemsScanned_ (acb s).
Proof.
  unfold acb_reportError, AsyncCallback.reportError.
  destruct (interrupted env); [by intros [= <-]|].
  destruct (FillBufferCallback.reportError _ _ _); by intros [= <-].
Qed.

Lemma reportItemError_count self msg retryNumber itemName env s s' :
  stateOf (reportItemError self msg retryNumber itemName env s) = Some s' →
  AsyncCallback.itemsScanned_ (acb s') = AsyncCallback.itemsScanned_ (acb s).
Proof.
  unfold reportItemError, bind.
  assert (Hcount := acb_reportError_count msg retryNumber env s).
  destruct (acb_reportError msg retryNumber env s) as [rv s1|s1|]; [| |done].
  - specialize (Hcount s1 eq_refl). destruct rv; simpl; intros [= <-]; done.
  - specialize (Hcount s1 eq_refl). simpl. by intros [= <-].
Qed.

Lemma tryReportingItemError_count (fuel : nat) :
  ∀ e self itemName retryNumber env s s',
    stateOf (tryReportingItemError fuel (λ _, Some e) (reportItemError self) itemName
               retryNumber env s) = Some s' →
    AsyncCallback.itemsScanned_ (acb s') = AsyncCallback.itemsScanned_ (acb s).
Proof.
  induction fuel as [|fuel IH]; intros e self itemName retryNumber env s s'; simpl; [done|].
  unfold bind.
  assert (Hcount := reportItemError_count self (zen.toString e) retryNumber itemName env s).
  destruct (reportItemError self (zen.toString e) retryNumber itemName env s) as [rv s1|s1|];
    [| |done].
  - specialize (Hcount s1 eq_refl). destruct rv.
    + intros Hrest. apply IH in Hrest. by rewrite Hrest.
    + simpl. by intros [= <-].
  - specialize (Hcount s1 eq_refl). simpl. by intros [= <-].
Qed.

(** However a call of [onFolder] ends: an interrupted thread and an excluded
    folder leave tree and count alone; any other folder is added, and counted
    exactly when it passes the filter itself. *)
Lemma onFolder_count fuel self fi env s s' :
  stateOf (onFolder fuel self fi env s) = Some s' →
  let verdict := passDirFilter (TraverserConfig.filter (cfg_ self))
                   (parentRelPathPf_ self +:+ FolderInfo.itemName fi) in
  if interrupted env || negb verdict.1 && negb verdict.2
  then folderCont (output s') = folderCont (output s)
       ∧ AsyncCallback.itemsScanned_ (acb s') = AsyncCallback.itemsScanned_ (acb s)
  else (verdict.1 = true ∨ verdict.2 = true)
       ∧ folderCont (output s')
         = FolderContainer.update (output_ self)
             (FolderContainer.addSubFolder (FolderInfo.itemName fi)
                (bool_decide (FolderInfo.symlinkInfo fi ≠ None)))
             (folderCont (output s))
       ∧ AsyncCallback.itemsScanned_ (acb s')
         = if verdict.1 then int_wrap (AsyncCallback.itemsScanned_ (acb s) + 1)
           else AsyncCallback.itemsScanned_ (acb s).
Proof.
  intros Hrun verdict. revert Hrun. subst verdict.
  unfold onFolder, bind, interruptionPoint.
  destruct (interrupted env); [by intros [= <-]|].
  rewrite updateStatus_run.
  set (folderRelPath := parentRelPathPf_ self +:+ FolderInfo.itemName fi).
  set (s1 := statusUpdated self folderRelPath env s).
  destruct (passDirFilter _ folderRelPath) as [passFilter might] eqn:Hverdict.
  cbn [fst snd orb].
  destruct (negb passFilter && negb might) eqn:Hgo.
  { intros [= <-]. subst s1. by rewrite statusUpdated_output, statusUpdated_itemsScanned. }
  assert (Hadmit : passFilter = true ∨ might = true)
    by (destruct passFilter, might; simpl in Hgo; first [by left | by right | done]).
  unfold modify_folder at 1.
  remember (endlessRecursion self folderRelPath) as e eqn:He.
  match goal with |- context [when passFilter acb_incItemsScanned env ?st] => set (s2 := st) end.
  assert (Hout2 : folderCont (output s2)
                  = FolderContainer.update (output_ self)
                      (FolderContainer.addSubFolder (FolderInfo.itemName fi)
                         (bool_decide (FolderInfo.symlinkInfo fi ≠ None)))
                      (folderCont (output s))).
  { subst s2 s1. unfold set_output. cbn [output folderCont]. by rewrite statusUpdated_output. }
  assert (Hcount2 : AsyncCallback.itemsScanned_ (acb s2) = AsyncCallback.itemsScanned_ (acb s)).
  { subst s2 s1. unfold set_output. cbn [acb]. apply statusUpdated_itemsScanned. }
  assert (Hs2 : ∃ s3, when passFilter acb_incItemsScanned env s2 = Returned tt s3
                      ∧ output s3 = output s2
                      ∧ AsyncCallback.itemsScanned_ (acb s3)
                        = if passFilter then int_wrap (AsyncCallback.itemsScanned_ (acb s2) + 1)
                          else AsyncCallback.itemsScanned_ (acb s2)).
  { destruct passFilter; by eexists. }
  destruct Hs2 as (s3 & Hrun3 & Hout3 & Hcount3). rewrite Hrun3.
  rewrite Hcount2 in Hcount3. rewrite <- Hout3 in Hout2. clearbody s2. clear Hrun3.
  destruct (Z.ltb_spec 100 (level_ self)) as [Hlevel|Hlevel].
  - assert (Heff := tryReportingItemError_effect fuel e self (FolderInfo.itemName fi) 0%N env s3).
    assert (Hcnt := tryReportingItemError_count fuel e self (FolderInfo.itemName fi) 0%N env s3).
    destruct (tryReportingItemError fuel _ _ _ _ env s3) as [ok s4|s4|]; [| |done].
    + destruct (Heff s4 eq_refl) as (Hc & _). specialize (Hcnt s4 eq_refl).
      assert (stateOf ((if negb ok then ret None else ret (Some _)) env s4
                       : Result (option DirCallback)) = Some s4) as -> by (by destruct ok).
      intros [= <-]. by rewrite Hc, Hcnt.
    + destruct (Heff s4 eq_refl) as (Hc & _). specialize (Hcnt s4 eq_refl).
      intros [= <-]. by rewrite Hc, Hcnt.
  - intros [= <-]. done.
Qed.

(** C4, as the code has it.  A call changes the tree only by adding an item
    the filter admits: [onFile] adds the file only when [passFileFilter] of
    its relative path is true; [onSymlink] adds the link only in DIRECT mode
    and when [passFileFilter] is true; [onFolder] adds the folder node only
    when [passDirFilter] is true or reports that a child might match.
    However a call of [onFolder] ends, an interrupted thread and an excluded
    folder leave tree and item count alone, and any other folder is added and
    is counted in [itemsScanned_] exactly when it passes the filter itself.
    Up to level 100, a folder that does not pass itself but of which a child
    might match makes [onFolder] return a child callback, with the node added
    and the count unchanged. *)
Theorem callbacks_add_only_what_the_filter_admits
    (fuel : nat) (self : DirCallback) (env : ThreadEnv) (s : ScanState) :
  (∀ fi s', stateOf (onFile self fi env s) = Some s' →
     folderCont (output s') = folderCont (output s)
     ∨ passFileFilter (TraverserConfig.filter (cfg_ self))
         (parentRelPathPf_ self +:+ FileInfo.itemName fi) = true
       ∧ folderCont (output s')
         = FolderContainer.update (output_ self)
             (FolderContainer.addSubFile (FileInfo.itemName fi)
                {| fa_modTime := FileInfo.modTime fi; fa_fileSize := FileInfo.fileSize fi;
                   fa_fileId := FileInfo.fileId fi;
                   fa_isFollowedSymlink := bool_decide (FileInfo.symlinkInfo fi ≠ None) |})
             (folderCont (output s)))
  ∧ (∀ si s', stateOf (onSymlink self si env s) = Some s' →
       folderCont (output s') = folderCont (output s)
       ∨ TraverserConfig.handleSymlinks (cfg_ self) = DIRECT
         ∧ passFileFilter (TraverserConfig.filter (cfg_ self))
             (parentRelPathPf_ self +:+ SymlinkInfo.itemName si) = true
         ∧ folderCont (output s')
           = FolderContainer.update (output_ self)
               (FolderContainer.addSubLink (SymlinkInfo.itemName si)
                  {| la_modTime := SymlinkInfo.modTime si |})
               (folderCont (output s)))
  ∧ (∀ fi s', stateOf (onFolder fuel self fi env s) = Some s' →
       let verdict := passDirFilter (TraverserConfig.filter (cfg_ self))
                        (parentRelPathPf_ self +:+ FolderInfo.itemName fi) in
       if interrupted env || negb verdict.1 && negb verdict.2
       then folderCont (output s') = folderCont (output s)
            ∧ AsyncCallback.itemsScanned_ (acb s') = AsyncCallback.itemsScanned_ (acb s)
       else (verdict.1 = true ∨ verdict.2 = true)
            ∧ folderCont (output s')
              = FolderContainer.update (output_ self)
                  (FolderContainer.addSubFolder (FolderInfo.itemName fi)
                     (bool_decide (FolderInfo.symlinkInfo fi ≠ None)))
                  (folderCont (output s))
            ∧ AsyncCallback.itemsScanned_ (acb s')
              = if verdict.1 then int_wrap (AsyncCallback.itemsScanned_ (acb s) + 1)
                else AsyncCallback.itemsScanned_ (acb s))
  ∧ (∀ fi,
       interrupted env = false →
       level_ self ≤ 100 →
       passDirFilter (TraverserConfig.filter (cfg_ self))
         (parentRelPathPf_ self +:+ FolderInfo.itemName fi) = (false, true) →
       ∃ child s',
         onFolder fuel self fi env s = Returned (Some child) s'
         ∧ folderCont (output s')
           = FolderContainer.update (output_ self)
               (FolderContainer.addSubFolder (FolderInfo.itemName fi)
                  (bool_decide (FolderInfo.symlinkInfo fi ≠ None)))
               (folderCont (output s))
         ∧ AsyncCallback.itemsScanned_ (acb s') = AsyncCallback.itemsScanned_ (acb s)).
Proof.
  split; [|split; [|split]].
  - intros fi s' Hrun. by apply onFile_effect in Hrun as (_ & _ & ?).
  - intros si s' Hrun. by apply onSymlink_effect in Hrun as (_ & _ & ?).
  - intros fi s' Hrun. exact (onFolder_count fuel self fi env s s' Hrun).
  - intros fi Hint Hlevel Hverdict.
    assert (Hends : ∃ child s', onFolder fuel self fi env s = Returned (Some child) s').
    { unfold onFolder, bind, interruptionPoint. rewrite Hint, updateStatus_run, Hverdict.
      simpl. destruct (Z.ltb_spec 100 (level_ self)) as [?|_]; [lia|]. by eexists _, _. }
    destruct Hends as (child & s' & Hrun). exists child, s'. split; [exact Hrun|].
    assert (Hcount := onFolder_count fuel self fi env s s').
    rewrite Hrun, Hint, Hverdict in Hcount. by destruct (Hcount eq_refl) as (_ & ? & ?).
Qed.

End CallbackFacts.

(** ** The dispatcher *)

Section DispatcherFacts.
Context {afs : AFS}.
Variable legacy : bool.

Lemma perDeviceFolders_unfold foldersToRead :
  perDeviceFolders foldersToRead = foldl addToDevice ∅ (elements foldersToRead).
Proof. done. Qed.

Lemma group_lookup (l : list DirectoryKey.t) :
  ∀ (m0 : gmap AbstractPath (gset DirectoryKey.t)) r K,
    foldl addToDevice m0 l !! r = Some K →
    ∀ k, k ∈ K ↔ (k ∈ l ∧ rootOf k = r) ∨ (∃ K0, m0 !! r = Some K0 ∧ k ∈ K0).
Proof.
  induction l as [|k0 l IH]; simpl; intros m0 r K HK k.
  - split; [intros Hk; right; eauto|]. intros [[Hk _]|[K0 [? ?]]]; [by apply elem_of_nil in Hk|].
    congruence.
  - rewrite (IH _ _ _ HK k). unfold addToDevice. rewrite elem_of_cons. split.
    + intros [[Hk Hr]|[K0 [HK0 Hk]]]; [by left; split; [right|]|].
      destruct (decide (rootOf k0 = r)) as [<-|Hne].
      * rewrite lookup_insert_eq in HK0. injection HK0 as <-.
        apply elem_of_union in Hk as [Hk|Hk].
        -- apply elem_of_singleton in Hk as ->. left. split; [by left|done].
        -- right. destruct (m0 !! rootOf k0) as [K1|] eqn:E; simpl in Hk; [eauto|].
           by apply not_elem_of_empty in Hk.
      * rewrite lookup_insert_ne in HK0 by done. right. eauto.
    + intros [[[->|Hk] Hr]|[K0 [HK0 Hk]]].
      * right. subst r. eexists. rewrite lookup_insert_eq. split; [done|].
        apply elem_of_union. left. by apply elem_of_singleton.
      * left. done.
      * destruct (decide (rootOf k0 = r)) as [<-|Hne].
        -- right. eexists. rewrite lookup_insert_eq. split; [done|].
           apply elem_of_union. right. by rewrite HK0.
        -- right. exists K0. by rewrite lookup_insert_ne.
Qed.

Lemma group_cover (l : list DirectoryKey.t) :
  ∀ (m0 : gmap AbstractPath (gset DirectoryKey.t)) k,
    k ∈ l ∨ is_Some (m0 !! rootOf k) → is_Some (foldl addToDevice m0 l !! rootOf k).
Proof.
  induction l as [|k0 l IH]; simpl; intros m0 k Hk.
  - destruct Hk as [Hk|Hk]; [by apply elem_of_nil in Hk|done].
  - apply IH. unfold addToDevice.
    destruct (decide (rootOf k0 = rootOf k)) as [Heq|Hne].
    + right. rewrite Heq, lookup_insert_eq. eauto.
    + rewrite lookup_insert_ne by done.
      destruct Hk as [Hk|Hk]; [|by right].
      apply elem_of_cons in Hk as [->|Hk]; [done|by left].
Qed.

(** Partition of the requested keys by root device. *)
Lemma perDeviceFolders_spec foldersToRead r K :
  perDeviceFolders foldersToRead !! r = Some K →
  ∀ k, k ∈ K ↔ k ∈ foldersToRead ∧ rootOf k = r.
Proof.
  rewrite perDeviceFolders_unfold. intros HK k.
  rewrite (group_lookup _ _ _ _ HK k), elem_of_elements. split; [|by left].
  intros [?|[K0 [HK0 _]]]; [done|]. by rewrite lookup_empty in HK0.
Qed.

Lemma perDeviceFolders_cover foldersToRead k :
  k ∈ foldersToRead → is_Some (perDeviceFolders foldersToRead !! rootOf k).
Proof.
  intros Hk. rewrite perDeviceFolders_unfold. apply group_cover. left. by apply elem_of_elements.
Qed.

Lemma buf_index_present st k v : d_buf st !! k = Some v → buf_index st k = st.
Proof. unfold buf_index. by intros ->. Qed.

Lemma buf_index_missing st k :
  d_buf st !! k = None →
  buf_index st k = {| d_buf := <[k := DirectoryValue_default]> (d_buf st);
                      d_worker := d_worker st;
                      d_events := d_events st ++ [BufInsert k] |}.
Proof. unfold buf_index. by intros ->. Qed.

(** The inner loop: [workload.emplace(key, &buf[key])] for each key. *)
Lemma buf_index_fold (keys : list DirectoryKey.t) :
  ∀ st,
    d_worker (foldl buf_index st keys) = d_worker st
    ∧ dom (d_buf (foldl buf_index st keys)) = dom (d_buf st) ∪ list_to_set keys
    ∧ (NoDup keys → (∀ k, k ∈ keys → d_buf st !! k = None) →
       d_events (foldl buf_index st keys) = d_events st ++ (BufInsert <$> keys)).
Proof.
  induction keys as [|k keys IH]; intros st; simpl.
  - split; [done|]. split; [set_solver|]. intros _ _. by rewrite app_nil_r.
  - destruct (IH (buf_index st k)) as (Hw & Hdom & Hev).
    rewrite Hw, Hdom.
    destruct (d_buf st !! k) as [v|] eqn:Hk.
    + rewrite (buf_index_present _ _ _ Hk). split; [done|]. split.
      * apply elem_of_dom_2 in Hk. set_solver.
      * intros Hnd Habs. specialize (Habs k ltac:(by left)). congruence.
    + rewrite (buf_index_missing _ _ Hk) in *. simpl in *. split; [done|]. split.
      * rewrite dom_insert_L. set_solver.
      * intros Hnd Habs. apply NoDup_cons in Hnd as [Hnotin Hnd].
        rewrite Hev; [by rewrite <- app_assoc|done|].
        intros k' Hk'. rewrite lookup_insert_ne; [apply Habs; by right|]. by intros ->.
Qed.

(** The loop over the devices. *)
Lemma startWorker_fold deviceParallelOps (items : list (AbstractPath * gset DirectoryKey.t)) :
  ∀ st,
    ∃ started,
      d_worker (foldl (startWorker legacy deviceParallelOps) st items) = d_worker st ++ started
      ∧ w_rootPath <$> started = items.*1
      ∧ w_workload <$> started = (elements ∘ snd) <$> items
      ∧ Forall (λ w, (1 ≤ w_parallelOps w)%N ∧ (legacy = true → w_parallelOps w = 1%N)) started
      ∧ (∀ i w, started !! i = Some w →
           w_threadIdx w = int_wrap (Z.of_nat (length (d_worker st) + i)))
      ∧ dom (d_buf (foldl (startWorker legacy deviceParallelOps) st items))
        = dom (d_buf st) ∪ ⋃ items.*2
      ∧ ((∀ i j Ki Kj, items.*2 !! i = Some Ki → items.*2 !! j = Some Kj → i ≠ j → Ki ## Kj) →
         (∀ K, K ∈ items.*2 → K ## dom (d_buf st)) →
         d_events (foldl (startWorker legacy deviceParallelOps) st items)
           = d_events st ++ concat (spawnEvents <$> started)).
Proof.
  induction items as [|[r K] items IH]; intros st; simpl.
  - exists []. rewrite !app_nil_r.
    split; [done|]. split; [done|]. split; [done|]. split; [constructor|].
    split; [intros i w Hi; by rewrite lookup_nil in Hi|].
    split; [simpl; set_solver|done].
  - destruct (buf_index_fold (elements K) st) as (Hw & Hdom & Hev).
    set (st1 := startWorker legacy deviceParallelOps st (r, K)).
    assert (Hst1w : d_worker st1 = d_worker st ++
              [{| w_rootPath := r; w_workload := elements K;
                  w_threadIdx := int_wrap (Z.of_nat (length (d_worker st)));
                  w_parallelOps := if legacy then 1%N
                                   else N.max (default 1%N (deviceParallelOps !! r)) 1 |}]).
    { subst st1. unfold startWorker. simpl. by rewrite Hw. }
    assert (Hst1d : dom (d_buf st1) = dom (d_buf st) ∪ K).
    { subst st1. unfold startWorker. simpl. rewrite Hdom. by rewrite list_to_set_elements_L. }
    destruct (IH st1) as (started & Hws & Hroots & Hloads & Hpar & Hidx & Hdoms & Hevs).
    eexists (_ :: started). rewrite Hws, Hst1w, <- app_assoc.
    split; [done|]. rewrite !fmap_cons. cbn [w_rootPath w_workload fst snd compose].
    split; [by rewrite Hroots|]. split; [by rewrite Hloads|].
    split; [|split; [|split]].
    + constructor; [|done]. simpl. destruct legacy; [done|]. split; [lia|done].
    + intros [|i] w Hi; simpl in Hi.
      * injection Hi as <-. simpl. by rewrite Nat.add_0_r.
      * rewrite (Hidx i w Hi), Hst1w, length_app. simpl. f_equal. lia.
    + rewrite Hdoms, Hst1d. set_solver.
    + intros Hdisj Hfresh.
      rewrite Hevs.
      * subst st1. unfold startWorker. simpl. rewrite Hev.
        -- unfold spawnEvents at 2. simpl. by rewrite <- !app_assoc.
        -- apply NoDup_elements.
        -- intros k Hk. apply elem_of_elements in Hk. apply not_elem_of_dom.
           specialize (Hfresh K ltac:(by left)). set_solver.
      * intros i j Ki Kj Hi Hj Hij. apply (Hdisj (S i) (S j)); simpl; try done. lia.
      * intros K' HK'. rewrite Hst1d.
        assert (K' ## dom (d_buf st)) by (apply Hfresh; by right).
        apply list_elem_of_lookup in HK' as [i Hi].
        assert (K' ## K) by (apply (Hdisj (S i) 0%nat); simpl; done).
        set_solver.
Qed.

Lemma fillBuffer_unfold fuel scan foldersToRead buf deviceParallelOps callback cbInterval :
  let st := dispatched legacy deviceParallelOps foldersToRead in
  let run := fillBuffer legacy fuel scan foldersToRead buf deviceParallelOps callback cbInterval in
  buf_out run = map_imap (λ key value, Some (throughPointer scan key value)) (d_buf st)
  ∧ events run = d_events st
  ∧ threads run = d_worker st
  ∧ (exit run, calls run, acb_out run)
    = AsyncCallback.waitUntilDone fuel (interference scan (d_worker st)) callback 0 []
        (AsyncCallback.create
           (size_t_wrap (N.of_nat (size (perDeviceFolders foldersToRead)))) cbInterval).
Proof.
  intros st run. subst run. unfold fillBuffer. fold (dispatched legacy deviceParallelOps foldersToRead).
  fold st. by destruct (AsyncCallback.waitUntilDone _ _ _ _ _ _) as [[how received] a].
Qed.

Lemma devices_union foldersToRead :
  ⋃ (map_to_list (perDeviceFolders foldersToRead)).*2 = foldersToRead.
Proof.
  apply set_eq. intros k. rewrite elem_of_union_list. split.
  - intros (K & HK & Hk). apply list_elem_of_fmap in HK as ([r K'] & -> & Hin).
    apply elem_of_map_to_list in Hin. simpl in Hk.
    by apply (perDeviceFolders_spec _ _ _ Hin k) in Hk as [? _].
  - intros Hk. destruct (perDeviceFolders_cover _ _ Hk) as [K HK].
    exists K. split.
    + apply list_elem_of_fmap. exists (rootOf k, K). split; [done|].
      by apply elem_of_map_to_list.
    + by apply (perDeviceFolders_spec _ _ _ HK k).
Qed.

Lemma devices_disjoint foldersToRead i j Ki Kj :
  (map_to_list (perDeviceFolders foldersToRead)).*2 !! i = Some Ki →
  (map_to_list (perDeviceFolders foldersToRead)).*2 !! j = Some Kj →
  i ≠ j → Ki ## Kj.
Proof.
  rewrite !list_lookup_fmap. intros Hi Hj Hij.
  destruct (map_to_list _ !! i) as [[ri Ki']|] eqn:Ei; [|done].
  destruct (map_to_list _ !! j) as [[rj Kj']|] eqn:Ej; [|done].
  simpl in *. injection Hi as ->. injection Hj as ->.
  assert (ri ≠ rj).
  { intros ->. apply Hij.
    eapply (NoDup_lookup (map_to_list (perDeviceFolders foldersToRead)).*1).
    - apply NoDup_fst_map_to_list.
    - by rewrite list_lookup_fmap, Ei.
    - by rewrite list_lookup_fmap, Ej. }
  assert (Hin_i : perDeviceFolders foldersToRead !! ri = Some Ki).
  { apply elem_of_map_to_list. apply list_elem_of_lookup. eauto. }
  assert (Hin_j : perDeviceFolders foldersToRead !! rj = Some Kj).
  { apply elem_of_map_to_list. apply list_elem_of_lookup. eauto. }
  intros k Hki Hkj.
  apply (perDeviceFolders_spec _ _ _ Hin_i k) in Hki as [_ Hri].
  apply (perDeviceFolders_spec _ _ _ Hin_j k) in Hkj as [_ Hrj]. congruence.
Qed.

Lemma buf_index_default st k :
  map_Forall (λ _ v, v = DirectoryValue_default) (d_buf st) →
  map_Forall (λ _ v, v = DirectoryValue_default) (d_buf (buf_index st k)).
Proof.
  intros Hall. unfold buf_index. destruct (d_buf st !! k); [done|]. simpl.
  by apply map_Forall_insert_2.
Qed.

Lemma dispatched_default deviceParallelOps foldersToRead :
  map_Forall (λ _ v, v = DirectoryValue_default)
    (d_buf (dispatched legacy deviceParallelOps foldersToRead)).
Proof.
  unfold dispatched.
  generalize (map_to_list (perDeviceFolders foldersToRead)). intros items.
  assert (Hinit : map_Forall (λ _ v, v = DirectoryValue_default)
                    (d_buf {| d_buf := ∅; d_worker := []; d_events := [BufClear] |}))
    by apply map_Forall_empty.
  revert Hinit. generalize {| d_buf := ∅; d_worker := []; d_events := [BufClear] |}.
  induction items as [|[r K] items IH]; intros st Hst; simpl; [done|].
  apply IH. unfold startWorker. simpl.
  generalize (elements K). intros keys. revert st Hst.
  induction keys as [|k keys IHk]; intros st Hst; simpl; [done|].
  apply IHk. by apply buf_index_default.
Qed.

Lemma dispatched_spec deviceParallelOps foldersToRead :
  let st := dispatched legacy deviceParallelOps foldersToRead in
  dom (d_buf st) = foldersToRead
  ∧ d_events st = BufClear :: concat (spawnEvents <$> d_worker st)
  ∧ w_rootPath <$> d_worker st = (map_to_list (perDeviceFolders foldersToRead)).*1
  ∧ w_workload <$> d_worker st
    = (elements ∘ snd) <$> map_to_list (perDeviceFolders foldersToRead)
  ∧ Forall (λ w, (1 ≤ w_parallelOps w)%N ∧ (legacy = true → w_parallelOps w = 1%N)) (d_worker st)
  ∧ (∀ i w, d_worker st !! i = Some w → w_threadIdx w = int_wrap (Z.of_nat i)).
Proof.
  intros st. subst st. unfold dispatched.
  destruct (startWorker_fold deviceParallelOps (map_to_list (perDeviceFolders foldersToRead))
              {| d_buf := ∅; d_worker := []; d_events := [BufClear] |})
    as (started & Hw & Hroots & Hloads & Hpar & Hidx & Hdom & Hev).
  simpl in *. rewrite Hw, Hdom, devices_union, dom_empty_L.
  split; [set_solver|]. split; [|done].
  apply Hev; [apply devices_disjoint|]. intros K _. set_solver.
Qed.

(** C1.  Whatever [buf] holds on entry, and whatever the worker threads write
    through their pointers, when [fillBuffer] ends the keys of [buf] are the
    keys of [foldersToRead]: every requested key has one entry (the
    default-constructed value as its worker left it) and no other key has
    one.  This holds for every way the call ends, a normal return included. *)
Theorem fillBuffer_output_has_exactly_the_requested_keys
    (fuel : nat) (scan : WorkerThreads) (foldersToRead : gset DirectoryKey.t)
    (buf : gmap DirectoryKey.t DirectoryValue) (deviceParallelOps : gmap AbstractPath N)
    (callback : FillBufferCallback.t) (cbInterval : duration) :
  let run := fillBuffer legacy fuel scan foldersToRead buf deviceParallelOps callback cbInterval in
  dom (buf_out run) = foldersToRead
  ∧ ∀ key, buf_out run !! key =
           if decide (key ∈ foldersToRead)
           then Some (throughPointer scan key DirectoryValue_default)
           else None.
Proof.
  intros run.
  destruct (fillBuffer_unfold fuel scan foldersToRead buf deviceParallelOps callback cbInterval)
    as (Hbuf & _). fold run in Hbuf.
  destruct (dispatched_spec deviceParallelOps foldersToRead) as (Hdom & _).
  assert (Hlookup : ∀ key, buf_out run !! key =
             if decide (key ∈ foldersToRead)
             then Some (throughPointer scan key DirectoryValue_default) else None).
  { intros key. rewrite Hbuf, map_lookup_imap.
    destruct (d_buf (dispatched legacy deviceParallelOps foldersToRead) !! key) as [v|] eqn:Hk; simpl.
    - rewrite (dispatched_default _ _ _ _ Hk).
      apply elem_of_dom_2 in Hk. rewrite Hdom in Hk. by rewrite decide_True.
    - apply not_elem_of_dom in Hk. rewrite Hdom in Hk. by rewrite decide_False. }
  split; [|done].
  apply set_eq. intros key. rewrite elem_of_dom, Hlookup. case_decide; [|by rewrite is_Some_alt].
  split; [done|eauto].
Qed.

(** C9, as the code has it.  The foreground clears [buf] and then goes
    through the devices: for each one it inserts the entries of that device's
    keys and starts the device's thread, so the entries of a later device are
    inserted while the threads of earlier devices run.  Every worker's entries
    are inserted before that worker is started, every requested key belongs
    to the workload of some worker, and after the last thread is started
    [buf] is neither inserted into nor cleared. *)
Theorem fillBuffer_inserts_each_workload_before_its_thread
    (fuel : nat) (scan : WorkerThreads) (foldersToRead : gset DirectoryKey.t)
    (buf : gmap DirectoryKey.t DirectoryValue) (deviceParallelOps : gmap AbstractPath N)
    (callback : FillBufferCallback.t) (cbInterval : duration) :
  let run := fillBuffer legacy fuel scan foldersToRead buf deviceParallelOps callback cbInterval in
  events run = BufClear :: concat (spawnEvents <$> threads run)
  ∧ ∀ key, key ∈ foldersToRead ↔ ∃ w, w ∈ threads run ∧ key ∈ w_workload w.
Proof.
  intros run.
  destruct (fillBuffer_unfold fuel scan foldersToRead buf deviceParallelOps callback cbInterval)
    as (_ & Hev & Hth & _). fold run in Hev, Hth.
  destruct (dispatched_spec deviceParallelOps foldersToRead) as (_ & Hevents & _ & Hloads & _).
  rewrite Hev, Hth. split; [done|].
  intros key. rewrite <- (devices_union foldersToRead) at 1.
  rewrite elem_of_union_list. split.
  - intros (K & HK & Hkey).
    apply list_elem_of_fmap in HK as (item & -> & Hitem).
    assert (Hl : elements item.2 ∈ w_workload <$> d_worker (dispatched legacy deviceParallelOps foldersToRead)).
    { rewrite Hloads. apply list_elem_of_fmap. by exists item. }
    apply list_elem_of_fmap in Hl as (w & Hw & Hin).
    exists w. split; [done|]. rewrite <- Hw. by apply elem_of_elements.
  - intros (w & Hw & Hkey).
    assert (Hl : w_workload w ∈ (elements ∘ snd) <$> map_to_list (perDeviceFolders foldersToRead)).
    { rewrite <- Hloads. apply list_elem_of_fmap. by exists w. }
    apply list_elem_of_fmap in Hl as (item & Hitem & Hin).
    exists item.2. split; [apply list_elem_of_fmap; by exists item|].
    rewrite Hitem in Hkey. simpl in Hkey. by apply elem_of_elements in Hkey.
Qed.

Lemma perDeviceFolders_empty : perDeviceFolders ∅ = ∅.
Proof. unfold perDeviceFolders. by rewrite elements_empty. Qed.

(** C5, as the code has it.  With no folder to read, [fillBuffer] starts no
    thread and leaves [buf] empty; the observer receives no error and exactly
    one status: the last call "for accurate stat-reporting", with the bare
    scanning text and 0 items.  The call returns normally unless that status
    call throws. *)
Theorem fillBuffer_empty_input_reports_one_final_status
    (fuel : nat) (scan : WorkerThreads)
    (buf : gmap DirectoryKey.t DirectoryValue) (deviceParallelOps : gmap AbstractPath N)
    (callback : FillBufferCallback.t) (cbInterval : duration) :
  let run := fillBuffer legacy (S fuel) scan ∅ buf deviceParallelOps callback cbInterval in
  buf_out run = ∅
  ∧ threads run = []
  ∧ calls run = [FillBufferCallback.ReportStatus AsyncCallback.textScanning_ 0]
  ∧ exit run = if FillBufferCallback.reportStatus callback AsyncCallback.textScanning_ 0
               then AsyncCallback.NormalReturn else AsyncCallback.Thrown.
Proof.
  intros run. subst run. unfold fillBuffer.
  rewrite perDeviceFolders_empty, map_to_list_empty, map_size_empty. simpl.
  change (AsyncCallback.getCurrentStatus _) with AsyncCallback.textScanning_.
  destruct (FillBufferCallback.reportStatus callback AsyncCallback.textScanning_ 0); simpl;
    by rewrite map_imap_empty.
Qed.
End DispatcherFacts.

(** ** Concrete scans: counterexamples and instances *)

Section OnLinuxFacts.
#[local] Existing Instance mounts.
#[local] Existing Instance linux.

(** The "recursion bomb": 101 nested folders lead to [deepCallback] in
    [deepState]. *)
Lemma descend_reaches_level_101 :
  descend 101 (baseX passAll EXCLUDE) (calm 1000 continueAlways) (freshState 100)
  = Returned deepCallback deepState.
Proof. vm_compute. reflexivity. Qed.

(** C2, counterexample.  The folder [tmp] is excluded by the filter: at
    level 0, which is at most 100, [onFolder] returns no child callback, and
    no folder node is added. *)
Lemma excluded_folder_gets_no_child_callback :
  level_ (baseX noLogs EXCLUDE) ≤ 100
  ∧ ∃ s', onFolder 1 (baseX noLogs EXCLUDE) (folderNamed "tmp") (calm 1000 continueAlways)
            (freshState 100) = Returned None s'
          ∧ folderCont (output s') = FolderContainer.empty.
Proof. split; [done|]. eexists. split; [vm_compute; reflexivity|]. reflexivity. Qed.

(** C2, instance at level 101: the observer asks for two retries and then
    continues; no callback is returned and the error is in
    [failedItemReads] under the path of the 102nd folder. *)
Lemma onFolder_too_deep_witness :
  ∃ s', onFolder 3 deepCallback (folderNamed "d") (calm 2000 retryTwice) deepState
        = Returned None s'
        ∧ is_Some (failedItemReads (output s') !! (deepPrefix 101 +:+ "d"))
        ∧ is_Some (FolderContainer.item (replicate 101 "d") "d" (folderCont (output s'))).
Proof.
  destruct (onFolder_descends_unless_too_deep 3 deepCallback (folderNamed "d")
              (calm 2000 retryTwice) deepState FolderContainer.empty 2)
    as (rv & s' & Hrun & Hcase).
  - reflexivity.
  - vm_compute. reflexivity.
  - intros _ _. split; [lia|]. split; [lia|]. split; [|reflexivity].
    intros i Hi. destruct i as [|[|i]]; [reflexivity|reflexivity|lia].
  - change (passDirFilter _ _) with (true, true) in Hcase. cbv beta iota in Hcase.
    cbn [fst snd negb andb] in Hcase.
    destruct Hcase as (_ & [sub Hnode] & _ & Hdeep).
    change (100 <? level_ deepCallback) with true in Hdeep. destruct Hdeep as [-> Hrec].
    exists s'. split; [exact Hrun|]. split.
    + change (parentRelPathPf_ deepCallback) with (deepPrefix 101) in Hrec.
      change (FolderInfo.itemName (folderNamed "d")) with "d" in Hrec.
      rewrite Hrec, lookup_insert_eq. eauto.
    + change (output_ deepCallback) with (replicate 101 "d") in Hnode.
      change (FolderInfo.itemName (folderNamed "d")) with "d" in Hnode.
      rewrite Hnode. eauto.
Defined.

(** C3, counterexample.  The folder [sub] of [/dev1/x] cannot be listed and
    the observer continues: the resulting [DirectoryValue] has the folder
    node [sub] in its tree and the key [sub] in [failedFolderReads]. *)
Lemma unreadable_folder_is_recorded_and_failed :
  ∃ s', scanUnreadableSub (calm 1000 continueAlways) (freshState 100)
        = Returned TraverserCallback.ON_ERROR_CONTINUE s'
        ∧ recordedAt "sub" (folderCont (output s'))
          = Some (FolderContainer.SubFolder false FolderContainer.empty)
        ∧ failedFolderReads (output s') !! "sub" = Some "Cannot open directory /dev1/x/sub.".
Proof. eexists. split; [vm_compute; reflexivity|]. split; reflexivity. Qed.

(** C3, instance: [onFile] on [a.txt] records the file and leaves both error
    maps as they were. *)
Lemma onFile_leaves_error_maps_witness :
  ∃ s', onFile (baseX passAll EXCLUDE) fileA (calm 1000 continueAlways) (freshState 100)
        = Returned tt s'
        ∧ failedFolderReads (output s') = failedFolderReads (output (freshState 100))
        ∧ failedItemReads (output s') = failedItemReads (output (freshState 100)).
Proof.
  destruct (callbacks_keep_tree_and_error_maps_apart 1 (baseX passAll EXCLUDE)
              (calm 1000 continueAlways) (freshState 100)) as (Hfile & _).
  eexists. split; [vm_compute; reflexivity|].
  apply (Hfile fileA). vm_compute. reflexivity.
Defined.

(** C4, counterexample.  Under the include filter for [src/*] the folder
    [lib] does not pass [passDirFilter], yet its node is added, because a
    child might match. *)
Lemma folder_added_though_dir_filter_fails :
  (passDirFilter onlyBelowSrc "lib").1 = false
  ∧ ∃ child s', onFolder 1 (baseX onlyBelowSrc EXCLUDE) (folderNamed "lib")
                  (calm 1000 continueAlways) (freshState 100) = Returned (Some child) s'
                ∧ recordedAt "lib" (folderCont (output s'))
                  = Some (FolderContainer.SubFolder false FolderContainer.empty).
Proof. split; [reflexivity|]. eexists _, _. split; [vm_compute; reflexivity|]. reflexivity. Qed.

(** C4, instance: under the include filter for [src/*] the folder [lib]
    does not pass itself; its node is added, a child callback is returned,
    and the item count stays 0. *)
Lemma onFolder_adds_uncounted_folder_witness :
  ∃ child s',
    onFolder 1 (baseX onlyBelowSrc EXCLUDE) (folderNamed "lib") (calm 1000 continueAlways)
      (freshState 100) = Returned (Some child) s'
    ∧ folderCont (output s')
      = FolderContainer.update [] (FolderContainer.addSubFolder "lib" false)
          (folderCont (output (freshState 100)))
    ∧ AsyncCallback.itemsScanned_ (acb s') = 0.
Proof.
  destruct (callbacks_add_only_what_the_filter_admits 1 (baseX onlyBelowSrc EXCLUDE)
              (calm 1000 continueAlways) (freshState 100)) as (_ & _ & _ & Hfolder).
  apply (Hfolder (folderNamed "lib")).
  - reflexivity.
  - vm_compute. discriminate.
  - reflexivity.
Defined.

(** C5, counterexample.  With an empty set of folders the observer still
    receives one status call. *)
Lemma empty_input_still_reports_one_status :
  let run := fillBuffer false 1 quietWorkers ∅ ∅ ∅ continueAlways 100 in
  exit run = AsyncCallback.NormalReturn
  ∧ buf_out run = ∅
  ∧ calls run = [FillBufferCallback.ReportStatus "Scanning: " 0].
Proof. vm_compute. done. Qed.

(** C9, counterexample.  Two folders on two devices: the entry of the second
    device's key is inserted after the first worker has been started. *)
Lemma second_device_inserted_after_first_thread_started :
  events (fillBuffer false 2 quietWorkers {[keyX; keyY]} ∅ ∅ continueAlways 100)
  = [BufClear; BufInsert keyX; ThreadStart 0; BufInsert keyY; ThreadStart 1].
Proof. vm_compute. reflexivity. Qed.

(** C6, instance: [a.txt] of [/dev1/x] passes [passAll] and is recorded. *)
Lemma onFile_records_witness :
  ∃ s', onFile (baseX passAll EXCLUDE) fileA (calm 1000 continueAlways) (freshState 100)
        = Returned tt s'
        ∧ FolderContainer.item [] "a.txt" (folderCont (output s'))
          = Some (FolderContainer.FileRecord
                    {| fa_modTime := 1; fa_fileSize := 10; fa_fileId := "inode-17";
                       fa_isFollowedSymlink := false |})
        ∧ AsyncCallback.itemsScanned_ (acb s') = 1.
Proof.
  destruct (onFile_skips_filters_or_records (baseX passAll EXCLUDE) fileA
              (calm 1000 continueAlways) (freshState 100) FolderContainer.empty)
    as (s' & Hrun & Hcase).
  - reflexivity.
  - reflexivity.
  - unfold INT_MAX. simpl. lia.
  - exists s'. split; [exact Hrun|].
    change (zen.endsWith (FileInfo.itemName fileA) SYNC_DB_FILE_ENDING
            || zen.endsWith (FileInfo.itemName fileA) LOCK_FILE_ENDING) with false in Hcase.
    cbv beta iota in Hcase.
    change (passFileFilter _ _) with true in Hcase. cbv beta iota in Hcase.
    destruct Hcase as (_ & Hitem & _ & _ & Hcount). split; [exact Hitem|exact Hcount].
Defined.

(** C7, instance: the callback of folder [sub] reports an error and the
    observer continues. *)
Lemma error_recorded_witness :
  ∃ sDir sItem,
    reportDirError (baseX passAll EXCLUDE) "Cannot open directory." 0
      (calm 1000 continueAlways) (freshState 100)
    = Returned TraverserCallback.ON_ERROR_CONTINUE sDir
    ∧ failedFolderReads (output sDir) !! "" = Some "Cannot open directory."
    ∧ reportItemError (baseX passAll EXCLUDE) "Cannot read file attributes." 0 "weird"
        (calm 1000 continueAlways) (freshState 100)
      = Returned TraverserCallback.ON_ERROR_CONTINUE sItem
    ∧ failedItemReads (output sItem) !! "weird" = Some "Cannot read file attributes.".
Proof.
  destruct (error_recorded_on_continue_only (baseX passAll EXCLUDE) "Cannot open directory." 0
              "weird" (calm 1000 continueAlways) (freshState 100)
              FillBufferCallback.ON_ERROR_CONTINUE eq_refl eq_refl)
    as (sDir & _ & HrunD & HrecD & _).
  destruct (error_recorded_on_continue_only (baseX passAll EXCLUDE)
              "Cannot read file attributes." 0
              "weird" (calm 1000 continueAlways) (freshState 100)
              FillBufferCallback.ON_ERROR_CONTINUE eq_refl eq_refl)
    as (_ & sItem & _ & _ & _ & HrunI & HrecI & _).
  exists sDir, sItem. split; [exact HrunD|]. split; [|split; [exact HrunI|]].
  - rewrite HrecD. apply lookup_insert_eq.
  - rewrite HrecI. apply lookup_insert_eq.
Defined.

(** C10, instance: listing [/dev1/x] itself fails and the observer
    continues. *)
Lemma base_folder_error_witness :
  ∃ base s1 s2,
    BaseDirCallback filterTable keyX 0 (calm 1000 continueAlways) (freshState 100)
    = Returned base s1
    ∧ reportDirError base "Cannot open directory /dev1/x." 0 (calm 1001 continueAlways) s1
      = Returned TraverserCallback.ON_ERROR_CONTINUE s2
    ∧ failedFolderReads (output s2) !! "" = Some "Cannot open directory /dev1/x.".
Proof.
  destruct (base_folder_error_recorded_under_empty_path filterTable keyX 0
              (calm 1000 continueAlways) (freshState 100)
              "Cannot open directory /dev1/x." 0 (calm 1001 continueAlways) eq_refl eq_refl)
    as (base & s1 & s2 & Hbase & _ & _ & Hrun & _ & Hlookup).
  exists base, s1, s2. split; [exact Hbase|]. split; [exact Hrun|exact Hlookup].
Defined.

End OnLinuxFacts.

(** * Further properties of the callbacks *)

Section MoreCallbackFacts.
Context {afs : AFS} {platform : Platform}.

(** X1.  [onSymlink] decides by the symlink mode of the base folder.  It
    never touches the error maps.  EXCLUDE: the link is skipped and nothing
    is recorded.  DIRECT: the link is skipped; it is recorded as a symlink,
    and counted, exactly when the file filter lets it pass.  FOLLOW: nothing
    is recorded here; the link is followed unless the file filter, the
    directory filter and its "a child might match" flag all say no. *)
Theorem onSymlink_decides_by_mode
    (self : DirCallback) (si : SymlinkInfo.t) (env : ThreadEnv) (s : ScanState)
    (current : FolderContainer.t) :
  interrupted env = false →
  FolderContainer.deref (output_ self) (folderCont (output s)) = Some current →
  0 ≤ AsyncCallback.itemsScanned_ (acb s) < INT_MAX →
  let linkRelPath := parentRelPathPf_ self +:+ SymlinkInfo.itemName si in
  let flt := TraverserConfig.filter (cfg_ self) in
  ∃ rv s',
    onSymlink self si env s = Returned rv s'
    ∧ failedFolderReads (output s') = failedFolderReads (output s)
    ∧ failedItemReads (output s') = failedItemReads (output s)
    ∧ match TraverserConfig.handleSymlinks (cfg_ self) with
      | EXCLUDE =>
          rv = TraverserCallback.LINK_SKIP
          ∧ output s' = output s
          ∧ AsyncCallback.itemsScanned_ (acb s') = AsyncCallback.itemsScanned_ (acb s)
      | DIRECT =>
          rv = TraverserCallback.LINK_SKIP
          ∧ if passFileFilter flt linkRelPath
            then FolderContainer.item (output_ self) (SymlinkInfo.itemName si)
                   (folderCont (output s'))
                 = Some (FolderContainer.SymlinkRecord {| la_modTime := SymlinkInfo.modTime si |})
                 ∧ AsyncCallback.itemsScanned_ (acb s')
                   = AsyncCallback.itemsScanned_ (acb s) + 1
            else output s' = output s
                 ∧ AsyncCallback.itemsScanned_ (acb s') = AsyncCallback.itemsScanned_ (acb s)
      | FOLLOW =>
          output s' = output s
          ∧ AsyncCallback.itemsScanned_ (acb s') = AsyncCallback.itemsScanned_ (acb s)
          ∧ rv = if negb (passFileFilter flt linkRelPath)
                    && negb (passDirFilter flt linkRelPath).1
                    && negb (passDirFilter flt linkRelPath).2
                 then TraverserCallback.LINK_SKIP
                 else TraverserCallback.LINK_FOLLOW
      end.
Proof.
  intros Hint Hcur Hcount linkRelPath flt.
  unfold onSymlink, bind, interruptionPoint. rewrite Hint.
  rewrite updateStatus_run. fold linkRelPath flt.
  set (s1 := statusUpdated self linkRelPath env s).
  assert (Ho : output s1 = output s) by apply statusUpdated_output.
  assert (Hc : AsyncCallback.itemsScanned_ (acb s1) = AsyncCallback.itemsScanned_ (acb s))
    by apply statusUpdated_itemsScanned.
  destruct (TraverserConfig.handleSymlinks (cfg_ self)).
  - exists TraverserCallback.LINK_SKIP, s1. by rewrite Ho, Hc.
  - destruct (passFileFilter flt linkRelPath); simpl.
    + eexists _, _. split; [reflexivity|]. simpl. rewrite Ho, Hc.
      repeat split; try done.
      * unfold FolderContainer.item.
        rewrite (deref_update _ (FolderContainer.addSubLink (SymlinkInfo.itemName si)
                                   {| la_modTime := SymlinkInfo.modTime si |}) _ _ Hcur).
        simpl. apply lookup_insert_eq.
      * apply int_wrap_succ. unfold INT_MAX in *. lia.
    + exists TraverserCallback.LINK_SKIP, s1. by rewrite Ho, Hc.
  - destruct (_ && _); eexists _, s1; by rewrite Ho, Hc.
Qed.

Lemma set_acb_same s : set_acb (acb s) s = s.
Proof. by destruct s. Qed.

(** X2.  An interrupted worker thread leaves every callback with
    ThreadInterruption, and the state is exactly what it was: nothing is
    recorded, counted or displayed. *)
Theorem interrupted_callbacks_throw_and_change_nothing
    (fuel : nat) (self : DirCallback) (env : ThreadEnv) (s : ScanState) :
  interrupted env = true →
  (∀ fi, onFile self fi env s = ThreadInterruption s)
  ∧ (∀ fi, onFolder fuel self fi env s = ThreadInterruption s)
  ∧ (∀ si, onSymlink self si env s = ThreadInterruption s)
  ∧ (∀ msg retryNumber, reportDirError self msg retryNumber env s = ThreadInterruption s)
  ∧ (∀ msg retryNumber itemName,
       reportItemError self msg retryNumber itemName env s = ThreadInterruption s).
Proof.
  intros Hint. repeat split; intros.
  - unfold onFile, bind, interruptionPoint. by rewrite Hint.
  - unfold onFolder, bind, interruptionPoint. by rewrite Hint.
  - unfold onSymlink, bind, interruptionPoint. by rewrite Hint.
  - unfold reportDirError, bind, acb_reportError, AsyncCallback.reportError.
    by rewrite Hint, set_acb_same.
  - unfold reportItemError, bind, acb_reportError, AsyncCallback.reportError.
    by rewrite Hint, set_acb_same.
Qed.

(** X3.  Up to level 100, [onFolder] returns no child callback exactly when
    the directory filter excludes the folder together with everything below
    it, and it counts the folder exactly when the folder itself passes. *)
Theorem onFolder_counts_only_passing_folders
    (fuel : nat) (self : DirCallback) (fi : FolderInfo.t) (env : ThreadEnv) (s : ScanState) :
  interrupted env = false →
  level_ self ≤ 100 →
  0 ≤ AsyncCallback.itemsScanned_ (acb s) < INT_MAX →
  let verdict := passDirFilter (TraverserConfig.filter (cfg_ self))
                   (parentRelPathPf_ self +:+ FolderInfo.itemName fi) in
  ∃ rv s',
    onFolder fuel self fi env s = Returned rv s'
    ∧ (rv = None ↔ verdict.1 = false ∧ verdict.2 = false)
    ∧ AsyncCallback.itemsScanned_ (acb s')
      = AsyncCallback.itemsScanned_ (acb s) + (if verdict.1 then 1 else 0).
Proof.
  intros Hint Hlevel Hcount verdict.
  unfold onFolder, bind, interruptionPoint. rewrite Hint.
  rewrite updateStatus_run.
  set (rel := parentRelPathPf_ self +:+ FolderInfo.itemName fi) in *.
  set (s1 := statusUpdated self rel env s).
  assert (Hc : AsyncCallback.itemsScanned_ (acb s1) = AsyncCallback.itemsScanned_ (acb s))
    by apply statusUpdated_itemsScanned.
  subst verdict.
  destruct (passDirFilter _ rel) as [passFilter might]. simpl.
  destruct (Z.ltb_spec 100 (level_ self)) as [?|_]; [lia|].
  destruct passFilter, might; simpl; eexists _, _; (split; [reflexivity|]); simpl;
    rewrite ?Hc;
    (split; [naive_solver | first [lia | apply int_wrap_succ; unfold INT_MAX in *; lia]]).
Qed.

(** X4.  The status line is updated before any filter is asked: also for a
    file or link that is filtered out, and for an excluded folder, the
    displayed path and the report time are renewed whenever this thread may
    report. *)
Theorem status_is_updated_whatever_the_filter_says
    (self : DirCallback) (env : ThreadEnv) (s : ScanState) :
  interrupted env = false →
  let may := (AsyncCallback.mayReportCurrentFile (TraverserConfig.threadIdx (cfg_ self))
                (steady_clock_now env) (lastReportTime s) (acb s)).1 in
  let shown itemName :=
    getDisplayPath (appendRelPath (TraverserConfig.baseFolderPath (cfg_ self))
                      (parentRelPathPf_ self +:+ itemName)) in
  (∀ fi,
     zen.endsWith (FileInfo.itemName fi) SYNC_DB_FILE_ENDING
     || zen.endsWith (FileInfo.itemName fi) LOCK_FILE_ENDING = false →
     ∃ s', onFile self fi env s = Returned tt s'
           ∧ AsyncCallback.currentFile_ (acb s')
             = (if may then shown (FileInfo.itemName fi) else AsyncCallback.currentFile_ (acb s))
           ∧ lastReportTime s' = (if may then steady_clock_now env else lastReportTime s))
  ∧ (∀ si,
       ∃ rv s', onSymlink self si env s = Returned rv s'
                ∧ AsyncCallback.currentFile_ (acb s')
                  = (if may then shown (SymlinkInfo.itemName si)
                     else AsyncCallback.currentFile_ (acb s))
                ∧ lastReportTime s' = (if may then steady_clock_now env else lastReportTime s))
  ∧ (∀ fuel fi,
       passDirFilter (TraverserConfig.filter (cfg_ self))
         (parentRelPathPf_ self +:+ FolderInfo.itemName fi) = (false, false) →
       ∃ s', onFolder fuel self fi env s = Returned None s'
             ∧ AsyncCallback.currentFile_ (acb s')
               = (if may then shown (FolderInfo.itemName fi)
                  else AsyncCallback.currentFile_ (acb s))
             ∧ lastReportTime s' = (if may then steady_clock_now env else lastReportTime s)).
Proof.
  intros Hint may shown.
  assert (Hupd : ∀ p, AsyncCallback.currentFile_ (acb (statusUpdated self p env s))
                      = (if may
                         then getDisplayPath
                                (appendRelPath (TraverserConfig.baseFolderPath (cfg_ self)) p)
                         else AsyncCallback.currentFile_ (acb s))
                      ∧ lastReportTime (statusUpdated self p env s)
                        = (if may then steady_clock_now env else lastReportTime s)).
  { intros p. unfold statusUpdated. fold may. by destruct may. }
  split; [|split].
  - intros fi Hname. unfold onFile, bind, interruptionPoint. rewrite Hint, Hname.
    rewrite updateStatus_run.
    destruct (Hupd (parentRelPathPf_ self +:+ FileInfo.itemName fi)) as [Hfile Htime].
    destruct (passFileFilter _ _); simpl; eexists; (split; [reflexivity|]); by simpl.
  - intros si. unfold onSymlink, bind, interruptionPoint. rewrite Hint.
    rewrite updateStatus_run.
    destruct (Hupd (parentRelPathPf_ self +:+ SymlinkInfo.itemName si)) as [Hfile Htime].
    destruct (TraverserConfig.handleSymlinks _).
    + by eexists _, _.
    + destruct (passFileFilter _ _); simpl; eexists _, _; (split; [reflexivity|]); by simpl.
    + destruct (_ && _); by eexists _, _.
  - intros fuel fi Hverdict. unfold onFolder, bind, interruptionPoint. rewrite Hint.
    rewrite updateStatus_run, Hverdict. simpl.
    destruct (Hupd (parentRelPathPf_ self +:+ FolderInfo.itemName fi)) as [Hfile Htime].
    by eexists.
Qed.

(** X5.  The constructor of [BaseDirCallback] always succeeds: it builds the
    root callback of the key (empty relative prefix, level 0), leaves output
    and item count alone, and displays the base folder when this thread may
    report. *)
Theorem BaseDirCallback_builds_the_root_callback
    (filters : FilterRef → HardFilter) (key : DirectoryKey.t) (threadIdx : Z)
    (env : ThreadEnv) (s : ScanState) :
  let may := (AsyncCallback.mayReportCurrentFile threadIdx (steady_clock_now env)
                (lastReportTime s) (acb s)).1 in
  ∃ s',
    BaseDirCallback filters key threadIdx env s
    = Returned {| cfg_ := {| TraverserConfig.baseFolderPath := DirectoryKey.folderPath key;
                             TraverserConfig.filter := filters (DirectoryKey.filter key);
                             TraverserConfig.handleSymlinks := DirectoryKey.handleSymlinks key;
                             TraverserConfig.threadIdx := threadIdx |};
                  parentRelPathPf_ := EmptyString; output_ := []; level_ := 0 |} s'
    ∧ output s' = output s
    ∧ AsyncCallback.itemsScanned_ (acb s') = AsyncCallback.itemsScanned_ (acb s)
    ∧ AsyncCallback.currentFile_ (acb s')
      = (if may then getDisplayPath (DirectoryKey.folderPath key)
         else AsyncCallback.currentFile_ (acb s))
    ∧ lastReportTime s' = (if may then steady_clock_now env else lastReportTime s).
Proof.
  intros may. subst may.
  unfold BaseDirCallback, bind, acb_mayReportCurrentFile, when, acb_reportCurrentFile, ret.
  rewrite (surjective_pairing (AsyncCallback.mayReportCurrentFile _ _ _ _)).
  unfold AsyncCallback.mayReportCurrentFile.
  destruct (negb _); simpl; [by eexists|].
  destruct (_ <? _); simpl; by eexists.
Qed.

Lemma append_assoc (a b c : string) : (a +:+ b) +:+ c = a +:+ (b +:+ c).
Proof.
  induction a as [|x a IH]; [done|].
  change (String x ((a +:+ b) +:+ c) = String x (a +:+ (b +:+ c))). by rewrite IH.
Qed.

Lemma append_nil_r (a : string) : a +:+ EmptyString = a.
Proof.
  induction a as [|x a IH]; [done|].
  change (String x (a +:+ EmptyString) = String x a). by rewrite IH.
Qed.

Lemma prefixOf_snoc names name :
  prefixOf (names ++ [name])
  = (prefixOf names +:+ name) +:+ String FILE_NAME_SEPARATOR EmptyString.
Proof.
  induction names as [|n names IH]; simpl.
  - done.
  - rewrite IH. by rewrite !append_assoc.
Qed.

(** An action that always fails is never reported as a success. *)
Lemma tryReportingItemError_never_succeeds (fuel : nat) :
  ∀ e report itemName retryNumber env s s',
    tryReportingItemError fuel (λ _, Some e) report itemName retryNumber env s
    ≠ Returned true s'.
Proof.
  induction fuel as [|fuel IH]; intros e report itemName retryNumber env s s'; simpl; [done|].
  unfold bind. destruct (report _ _ _ env s) as [rv s1|s1|]; [|done|done].
  destruct rv; [apply IH|done].
Qed.

Lemma onFolder_child fuel parent fi env s child s' :
  onFolder fuel parent fi env s = Returned (Some child) s' →
  level_ parent ≤ 100
  ∧ child = {| cfg_ := cfg_ parent;
               parentRelPathPf_ := (parentRelPathPf_ parent +:+ FolderInfo.itemName fi)
                                   +:+ String FILE_NAME_SEPARATOR EmptyString;
               output_ := output_ parent ++ [FolderInfo.itemName fi];
               level_ := level_ parent + 1 |}.
Proof.
  unfold onFolder, bind, interruptionPoint.
  destruct (interrupted env); [done|].
  rewrite updateStatus_run.
  destruct (passDirFilter _ _) as [passFilter might].
  destruct (negb passFilter && negb might); [done|].
  unfold modify_folder at 1.
  match goal with |- context [when passFilter acb_incItemsScanned env ?st] => generalize st end.
  intros s2.
  assert (Hs2 : ∃ s3, when passFilter acb_incItemsScanned env s2 = Returned tt s3)
    by (destruct passFilter; by eexists).
  destruct Hs2 as [s3 ->].
  destruct (Z.ltb_spec 100 (level_ parent)) as [Hdeep|Hok].
  - destruct (tryReportingItemError fuel _ _ _ _ env s3) as [ok s4|s4|] eqn:Htry; [|done|done].
    destruct ok; [|done].
    by apply tryReportingItemError_never_succeeds in Htry.
  - intros [= <- _]. done.
Qed.

(** X6.  Every callback a traversal can hold shares the configuration of
    the base callback; its level is the length of its path in the tree, its
    relative prefix is that path with a separator after every name, and its
    level never exceeds 101. *)
Theorem reachable_callbacks_are_consistent_and_bounded (base cb : DirCallback) :
  level_ base = 0 →
  parentRelPathPf_ base = EmptyString →
  output_ base = [] →
  Reachable base cb →
  cfg_ cb = cfg_ base
  ∧ level_ cb = Z.of_nat (length (output_ cb))
  ∧ parentRelPathPf_ cb = prefixOf (output_ cb)
  ∧ level_ cb ≤ 101.
Proof.
  intros Hlevel Hprefix Hout Hreach.
  induction Hreach as [|fuel parent fi env s child s' Hparent IH Hrun].
  - rewrite Hlevel, Hprefix, Hout. simpl. repeat split; try done.
  - destruct IH as (Hcfg & Hlen & Hpf & _).
    apply onFolder_child in Hrun as [Hdepth ->]. simpl.
    rewrite length_app, prefixOf_snoc, Hcfg, Hpf, Hlen. simpl.
    repeat split; try done; lia.
Qed.
End MoreCallbackFacts.

(** * Further properties of the coordinator *)

Section CoordinatorFacts.
Import FillBufferCallback.

(** X7.  Status updates are throttled: a thread that was just allowed to
    report keeps the time of that report, and is refused at any time within
    [cbInterval_] of it. *)
Theorem report_is_throttled
    (a : AsyncCallback.t) (threadIdx : Z) (now lastReportTime now' : time_point) :
  (AsyncCallback.mayReportCurrentFile threadIdx now lastReportTime a).1 = true →
  zen.dist now' now ≤ AsyncCallback.cbInterval_ a →
  (AsyncCallback.mayReportCurrentFile threadIdx now lastReportTime a).2 = now
  ∧ AsyncCallback.mayReportCurrentFile threadIdx now' now a = (false, now).
Proof.
  rewrite !mayReport_spec. case_bool_decide as Hfirst; simpl; [|done].
  intros _ Hsoon. split; [done|].
  rewrite bool_decide_eq_false_2; [done|]. lia.
Qed.

Lemma erase_emplace k v m :
  stdmap.ordered m → k ∉ stdmap.keys m → stdmap.erase k (stdmap.emplace k v m) = m.
Proof.
  unfold stdmap.ordered, stdmap.keys.
  induction m as [|[k0 v0] m IH]; simpl; intros Hs Hk.
  - by rewrite Z.eqb_refl.
  - apply StronglySorted_inv in Hs as [Hs Hall].
    rewrite not_elem_of_cons in Hk. destruct Hk as [Hne Hk].
    destruct (Z.ltb_spec k k0); simpl.
    + by rewrite Z.eqb_refl.
    + destruct (Z.eqb_spec k k0); [done|]. simpl.
      destruct (Z.eqb_spec k k0); [done|]. by rewrite IH.
Qed.

Lemma emplace_present k v m :
  stdmap.ordered m → k ∈ stdmap.keys m → stdmap.emplace k v m = m.
Proof.
  unfold stdmap.ordered, stdmap.keys.
  induction m as [|[k0 v0] m IH]; simpl; intros Hs Hk.
  - by apply elem_of_nil in Hk.
  - apply StronglySorted_inv in Hs as [Hs Hall]. rewrite Forall_forall in Hall.
    apply elem_of_cons in Hk as [->|Hk].
    + rewrite Z.ltb_irrefl. by rewrite Z.eqb_refl.
    + specialize (Hall _ Hk). destruct (Z.ltb_spec k k0); [lia|].
      destruct (Z.eqb_spec k k0); [done|]. by rewrite IH.
Qed.

(** X9.  A worker that announces its begin and then its end leaves the
    map of active threads as it was, up to its own index; the notifying
    thread is the least active index (0 when none is left); the number of
    threads to finish drops by one, wrapping as [size_t] does; nothing else of
    the coordinator changes. *)
Theorem work_begin_then_end_restores_the_active_map
    (threadIdx : Z) (parallelOps : N) (a : AsyncCallback.t) :
  stdmap.ordered (AsyncCallback.activeThreadIdxs_ a) →
  let a' := AsyncCallback.notifyWorkEnd threadIdx
              (AsyncCallback.notifyWorkBegin threadIdx parallelOps a) in
  AsyncCallback.activeThreadIdxs_ a'
  = (if bool_decide (threadIdx ∈ stdmap.keys (AsyncCallback.activeThreadIdxs_ a))
     then stdmap.erase threadIdx (AsyncCallback.activeThreadIdxs_ a)
     else AsyncCallback.activeThreadIdxs_ a)
  ∧ AsyncCallback.notifyingThreadIdx_ a'
    = match AsyncCallback.activeThreadIdxs_ a' with
      | [] => 0
      | (first, _) :: _ => first
      end
  ∧ AsyncCallback.threadsToFinish_ a'
    = size_t_wrap (AsyncCallback.threadsToFinish_ a + (2 ^ 64 - 1))
  ∧ ((0 < AsyncCallback.threadsToFinish_ a < 2 ^ 64)%N →
     AsyncCallback.threadsToFinish_ a' = (AsyncCallback.threadsToFinish_ a - 1)%N)
  ∧ AsyncCallback.itemsScanned_ a' = AsyncCallback.itemsScanned_ a
  ∧ AsyncCallback.currentFile_ a' = AsyncCallback.currentFile_ a
  ∧ AsyncCallback.errorRequest_ a' = AsyncCallback.errorRequest_ a
  ∧ AsyncCallback.errorResponse_ a' = AsyncCallback.errorResponse_ a.
Proof.
  intros Hord a'. subst a'. simpl.
  split; [|split; [|split; [|split; [|done]]]].
  - case_bool_decide as Hin.
    + by rewrite emplace_present.
    + by rewrite erase_emplace.
  - by destruct (stdmap.erase _ _) as [|[? ?] ?].
  - done.
  - intros Hn. unfold size_t_wrap.
    replace (AsyncCallback.threadsToFinish_ a + (2 ^ 64 - 1))%N
      with ((AsyncCallback.threadsToFinish_ a - 1) + 1 * 2 ^ 64)%N by lia.
    rewrite N.Div0.mod_add. apply N.mod_small. lia.
Qed.

Lemma activeAfter_snoc history e k :
  activeAfter (history ++ [e]) k =
    match e with
    | WorkBegin threadIdx _ => if threadIdx =? k then true else activeAfter history k
    | WorkEnd threadIdx => if threadIdx =? k then false else activeAfter history k
    end.
Proof. unfold activeAfter. by rewrite foldl_snoc. Qed.

Lemma endsIn_snoc history e :
  endsIn (history ++ [e]) =
    match e with WorkEnd _ => (endsIn history + 1)%N | WorkBegin _ _ => endsIn history end.
Proof. unfold endsIn. by rewrite foldl_snoc. Qed.

Lemma wrap_minus_one (n : N) :
  size_t_wrap (size_t_wrap n + (2 ^ 64 - 1)) = size_t_wrap (n + (2 ^ 64 - 1)).
Proof. unfold size_t_wrap. by rewrite N.Div0.add_mod_idemp_l. Qed.

Lemma notify_frame a e :
  AsyncCallback.itemsScanned_ (notify a e) = AsyncCallback.itemsScanned_ a
  ∧ AsyncCallback.errorRequest_ (notify a e) = AsyncCallback.errorRequest_ a
  ∧ AsyncCallback.errorResponse_ (notify a e) = AsyncCallback.errorResponse_ a
  ∧ AsyncCallback.currentFile_ (notify a e) = AsyncCallback.currentFile_ a
  ∧ AsyncCallback.cbInterval_ (notify a e) = AsyncCallback.cbInterval_ a.
Proof. by destruct e. Qed.

(** X8.  After any history of begin and end notifications on a new
    coordinator, the active threads are those whose last notification was a
    begin, and the number of threads to finish is the initial one minus the
    number of ends (modulo 2^64); no item is counted and no error slot is
    filled. *)
Theorem coordinator_tracks_the_history
    (threadsToFinish : N) (cbInterval : duration) (history : list WorkNotice) :
  (threadsToFinish < 2 ^ 64)%N →
  let a := foldl notify (AsyncCallback.create threadsToFinish cbInterval) history in
  (∀ k, k ∈ stdmap.keys (AsyncCallback.activeThreadIdxs_ a) ↔ activeAfter history k = true)
  ∧ AsyncCallback.threadsToFinish_ a
    = size_t_wrap (threadsToFinish + endsIn history * (2 ^ 64 - 1))
  ∧ ((endsIn history ≤ threadsToFinish)%N →
     AsyncCallback.threadsToFinish_ a = (threadsToFinish - endsIn history)%N)
  ∧ AsyncCallback.itemsScanned_ a = 0
  ∧ AsyncCallback.errorRequest_ a = None ∧ AsyncCallback.errorResponse_ a = None.
Proof.
  intros Hsize a. subst a.
  set (run h := foldl notify (AsyncCallback.create threadsToFinish cbInterval) h).
  assert (Hmain : (∀ k, k ∈ stdmap.keys (AsyncCallback.activeThreadIdxs_ (run history))
                        ↔ activeAfter history k = true)
          ∧ AsyncCallback.threadsToFinish_ (run history)
            = size_t_wrap (threadsToFinish + endsIn history * (2 ^ 64 - 1))
          ∧ AsyncCallback.itemsScanned_ (run history) = 0
          ∧ AsyncCallback.errorRequest_ (run history) = None
          ∧ AsyncCallback.errorResponse_ (run history) = None).
  { induction history as [|e history IH] using rev_ind.
    - simpl. split; [|split; [|done]].
      + intros k. unfold stdmap.keys. simpl. by rewrite elem_of_nil.
      + unfold size_t_wrap, endsIn. simpl. rewrite N.add_0_r. symmetry. by apply N.mod_small.
    - destruct IH as (Hkeys & Hcount & Hitems & Hreq & Hresp).
      assert (Hord : stdmap.ordered (AsyncCallback.activeThreadIdxs_ (run history)))
        by (apply history_ordered; constructor).
      unfold run. rewrite foldl_snoc. fold (run history).
      destruct (notify_frame (run history) e) as (Hi & Hq & Hp & _).
      rewrite Hi, Hq, Hp. split; [|split; [|done]].
      + intros k. rewrite activeAfter_snoc. destruct e as [i p|i]; simpl.
        * rewrite emplace_keys, Hkeys. destruct (Z.eqb_spec i k); naive_solver.
        * rewrite (erase_keys _ _ _ Hord), Hkeys. destruct (Z.eqb_spec i k); naive_solver.
      + rewrite endsIn_snoc. destruct e as [i p|i]; simpl; [done|].
        rewrite Hcount, wrap_minus_one. f_equal. lia. }
  destruct Hmain as (Hkeys & Hcount & Hitems & Hreq & Hresp).
  fold (run history). split; [done|]. split; [done|]. split; [|done].
  intros Hends. rewrite Hcount. unfold size_t_wrap.
  replace (threadsToFinish + endsIn history * (2 ^ 64 - 1))%N
    with ((threadsToFinish - endsIn history) + endsIn history * 2 ^ 64)%N by lia.
  rewrite N.Div0.mod_add. apply N.mod_small. lia.
Qed.

Lemma exitSound_later callback calls c r :
  exitSound callback (calls ++ [c]) r → exitSound callback calls r.
Proof.
  intros [Hp Hl]. split; [|done]. etrans; [|exact Hp]. by apply prefix_app_r.
Qed.

Lemma exitSound_final callback calls a :
  (AsyncCallback.threadsToFinish_ a =? 0)%N = true →
  exitSound callback calls
    (let status := AsyncCallback.getCurrentStatus a in
     let calls' := calls ++ [ReportStatus status (AsyncCallback.itemsScanned_ a)] in
     if reportStatus callback status (AsyncCallback.itemsScanned_ a)
     then (AsyncCallback.NormalReturn, calls', a)
     else (AsyncCallback.Thrown, calls', a)).
Proof.
  intros Hdone%N.eqb_eq. simpl.
  destruct (reportStatus callback _ _) eqn:Hst; (split; [by apply prefix_app_r|]); simpl.
  - by rewrite last_snoc.
  - eexists. by rewrite last_snoc.
Qed.

(** X10.  However [waitUntilDone] ends, the calls made before are kept.  It
    returns only when no thread is left to finish, and its last call is then
    the status of the final state, accepted by the observer.  When it is
    left by an exception, the last call is the one that threw. *)
Theorem waitUntilDone_ends_with_the_call_that_ended_it
    (fuel : nat) (workers : nat → AsyncCallback.t → AsyncCallback.t)
    (callback : FillBufferCallback.t) (n : nat) (calls : list Call) (a : AsyncCallback.t) :
  let r := AsyncCallback.waitUntilDone fuel workers callback n calls a in
  calls `prefix_of` r.1.2
  ∧ match r.1.1 with
    | AsyncCallback.NormalReturn =>
        AsyncCallback.threadsToFinish_ r.2 = 0%N
        ∧ last r.1.2 = Some (ReportStatus (AsyncCallback.getCurrentStatus r.2)
                               (AsyncCallback.itemsScanned_ r.2))
        ∧ reportStatus callback (AsyncCallback.getCurrentStatus r.2)
            (AsyncCallback.itemsScanned_ r.2) = true
    | AsyncCallback.Thrown =>
        ∃ c, last r.1.2 = Some c
             ∧ match c with
               | ReportStatus text items => reportStatus callback text items = false
               | ReportError msg retryNumber => reportError callback msg retryNumber = None
               end
    | AsyncCallback.StillWaiting => True
    end.
Proof.
  change (exitSound callback calls
            (AsyncCallback.waitUntilDone fuel workers callback n calls a)).
  revert workers callback n calls a.
  induction fuel as [|fuel IH]; intros workers callback n calls a; simpl.
  - by split.
  - set (a1 := if AsyncCallback.newRequestOrDone a then a else workers n a).
    destruct (AsyncCallback.newRequestOrDone a1) eqn:Hwake; simpl.
    + destruct (AsyncCallback.errorRequest_ a1) as [[msg retryNumber]|] eqn:Hreq;
        [destruct (AsyncCallback.errorResponse_ a1) as [resp|] eqn:Hresp|].
      * destruct (AsyncCallback.threadsToFinish_ a1 =? 0)%N eqn:Hdone; [|apply IH].
        by apply exitSound_final.
      * destruct (reportError callback msg retryNumber) as [rv|] eqn:Hans; simpl.
        -- destruct (AsyncCallback.threadsToFinish_ a1 =? 0)%N eqn:Hdone.
           ++ apply exitSound_later with (c := ReportError msg retryNumber).
              by apply (exitSound_final callback _
                          (AsyncCallback.set_slots (Some (msg, retryNumber)) (Some rv) a1)).
           ++ apply exitSound_later with (c := ReportError msg retryNumber). apply IH.
        -- split; [by apply prefix_app_r|]. simpl. eexists. by rewrite last_snoc.
      * destruct (AsyncCallback.threadsToFinish_ a1 =? 0)%N eqn:Hdone; [|apply IH].
        by apply exitSound_final.
    + destruct (reportStatus callback _ _) eqn:Hst; simpl.
      * eapply exitSound_later. apply IH.
      * split; [by apply prefix_app_r|]. simpl. eexists. by rewrite last_snoc.
Qed.

(** X11.  [waitUntilDone] calls the observer's [reportError] only on
    request: as long as no worker installs an error request, every call it
    makes is a status call. *)
Theorem observer_sees_errors_only_on_request (fuel : nat) :
  ∀ (workers : nat → AsyncCallback.t → AsyncCallback.t) callback n calls a,
    (∀ n a, AsyncCallback.errorRequest_ a = None →
            AsyncCallback.errorRequest_ (workers n a) = None) →
    AsyncCallback.errorRequest_ a = None →
    let r := AsyncCallback.waitUntilDone fuel workers callback n calls a in
    ∃ more, r.1.2 = calls ++ more
            ∧ Forall (λ c, isStatusCall c = true) more
            ∧ AsyncCallback.errorRequest_ r.2 = None.
Proof.
  induction fuel as [|fuel IH]; intros workers callback n calls a Hquiet Hnone; simpl.
  - exists []. by rewrite app_nil_r.
  - set (a1 := if AsyncCallback.newRequestOrDone a then a else workers n a).
    assert (Hnone1 : AsyncCallback.errorRequest_ a1 = None).
    { subst a1. destruct (AsyncCallback.newRequestOrDone a); [done|by apply Hquiet]. }
    rewrite Hnone1.
    destruct (AsyncCallback.newRequestOrDone a1); simpl.
    + destruct (AsyncCallback.threadsToFinish_ a1 =? 0)%N.
      * exists [ReportStatus (AsyncCallback.getCurrentStatus a1) (AsyncCallback.itemsScanned_ a1)].
        destruct (reportStatus callback _ _); simpl; by repeat constructor.
      * by apply IH.
    + destruct (reportStatus callback _ _); simpl.
      * destruct (IH workers callback (S n)
                    (calls ++ [ReportStatus (AsyncCallback.getCurrentStatus a1)
                                 (AsyncCallback.itemsScanned_ a1)]) a1 Hquiet Hnone1)
          as (more & Hcalls & Hall & Hreq).
        exists (ReportStatus (AsyncCallback.getCurrentStatus a1)
                  (AsyncCallback.itemsScanned_ a1) :: more).
        rewrite Hcalls, <- app_assoc. split; [done|]. split; [by constructor|done].
      * exists [ReportStatus (AsyncCallback.getCurrentStatus a1) (AsyncCallback.itemsScanned_ a1)].
        by repeat constructor.
Qed.

(** X12.  The round trip of an error report.  The worker installs its
    request; while it is pending no other request can be installed and no
    response can be taken; one round of [waitUntilDone] passes the request to
    the observer, once, and stores its decision; the worker takes the
    decision, and the coordinator is back in the state it started from.  The
    blocking [reportError] collapses these steps. *)
Theorem error_round_trip
    (workers : nat → AsyncCallback.t → AsyncCallback.t) (callback : FillBufferCallback.t)
    (n : nat) (calls : list Call) (a : AsyncCallback.t)
    (msg : wstring) (retryNumber : N) (decision : HandleError) :
  AsyncCallback.errorRequest_ a = None →
  AsyncCallback.errorResponse_ a = None →
  AsyncCallback.threadsToFinish_ a ≠ 0%N →
  reportError callback msg retryNumber = Some decision →
  ∃ a1 a2,
    reportError_install msg retryNumber a = Some a1
    ∧ (∀ msg' retryNumber', reportError_install msg' retryNumber' a1 = None)
    ∧ reportError_take a1 = None
    ∧ AsyncCallback.waitUntilDone 1 workers callback n calls a1
      = (AsyncCallback.StillWaiting, calls ++ [ReportError msg retryNumber], a2)
    ∧ (∀ msg' retryNumber', reportError_install msg' retryNumber' a2 = None)
    ∧ reportError_take a2 = Some (decision, a)
    ∧ AsyncCallback.reportError false callback msg retryNumber a = (Some decision, a).
Proof.
  intros Hreq Hresp Hbusy Hans.
  assert (Hsame : AsyncCallback.set_slots None None a = a).
  { destruct a. simpl in *. by subst. }
  eexists _, _. unfold reportError_install. rewrite Hreq, Hresp.
  split; [reflexivity|]. split; [done|]. split; [done|]. simpl.
  unfold AsyncCallback.newRequestOrDone. simpl. rewrite Hans.
  cbn [AsyncCallback.threadsToFinish_ AsyncCallback.set_slots].
  apply N.eqb_neq in Hbusy. rewrite Hbusy.
  split; [reflexivity|]. split; [done|].
  unfold reportError_take, AsyncCallback.reportError. simpl.
  split; [|by rewrite Hsame]. do 2 f_equal.
  transitivity (AsyncCallback.set_slots None None a); [reflexivity|exact Hsame].
Qed.

End CoordinatorFacts.

(** * Further properties of the dispatcher *)

Section MoreDispatcherFacts.
Context {afs : AFS}.
Variable legacy : bool.

Lemma startWorker_parallelOps deviceParallelOps (items : list (AbstractPath * gset DirectoryKey.t)) :
  ∀ st,
    let sane w := w_parallelOps w
                  = if legacy then 1%N
                    else N.max (default 1%N (deviceParallelOps !! w_rootPath w)) 1 in
    Forall sane (d_worker st) →
    Forall sane (d_worker (foldl (startWorker legacy deviceParallelOps) st items)).
Proof.
  induction items as [|[r K] items IH]; intros st sane Hst; simpl; [done|].
  apply IH. unfold startWorker. simpl.
  destruct (buf_index_fold (elements K) st) as (-> & _).
  apply Forall_app. split; [done|]. by repeat constructor.
Qed.

Lemma group_nonempty (l : list DirectoryKey.t) :
  ∀ (m0 : gmap AbstractPath (gset DirectoryKey.t)),
    (∀ r K, m0 !! r = Some K → ∃ k, k ∈ K) →
    ∀ r K, foldl addToDevice m0 l !! r = Some K → ∃ k, k ∈ K.
Proof.
  induction l as [|k0 l IH]; simpl; intros m0 Hm0 r K HK; [by eapply Hm0|].
  eapply IH; [|exact HK]. intros r' K'. unfold addToDevice.
  destruct (decide (rootOf k0 = r')) as [<-|Hne].
  - rewrite lookup_insert_eq. intros [= <-]. exists k0. apply elem_of_union. left.
    by apply elem_of_singleton.
  - rewrite lookup_insert_ne by done. apply Hm0.
Qed.

Lemma perDeviceFolders_nonempty foldersToRead r K :
  perDeviceFolders foldersToRead !! r = Some K → ∃ k, k ∈ K.
Proof.
  rewrite perDeviceFolders_unfold. apply group_nonempty.
  intros r' K'. by rewrite lookup_empty.
Qed.

(** X13.  [fillBuffer] starts one thread per root device of the requested
    folders: the root paths of the threads are distinct and are exactly the
    root devices of the keys; the thread indexes count from 0 in starting
    order; [parallelOps] is at least 1: it is 1 in the legacy build, and else
    the device's configured value, sanitized. *)
Theorem fillBuffer_starts_one_thread_per_root_device
    (fuel : nat) (scan : WorkerThreads) (foldersToRead : gset DirectoryKey.t)
    (buf : gmap DirectoryKey.t DirectoryValue) (deviceParallelOps : gmap AbstractPath N)
    (callback : FillBufferCallback.t) (cbInterval : duration) :
  let run := fillBuffer legacy fuel scan foldersToRead buf deviceParallelOps callback cbInterval in
  length (threads run) = size (perDeviceFolders foldersToRead)
  ∧ NoDup (w_rootPath <$> threads run)
  ∧ (∀ root, root ∈ (w_rootPath <$> threads run)
             ↔ ∃ key, key ∈ foldersToRead ∧ rootOf key = root)
  ∧ (∀ i w, threads run !! i = Some w →
       w_threadIdx w = int_wrap (Z.of_nat i)
       ∧ (1 ≤ w_parallelOps w)%N
       ∧ w_parallelOps w
         = if legacy then 1%N
           else N.max (default 1%N (deviceParallelOps !! w_rootPath w)) 1).
Proof.
  intros run.
  destruct (fillBuffer_unfold legacy fuel scan foldersToRead buf deviceParallelOps callback
              cbInterval) as (_ & _ & Hth & _). fold run in Hth. rewrite Hth.
  destruct (dispatched_spec legacy deviceParallelOps foldersToRead)
    as (_ & _ & Hroots & _ & Hpar & Hidx).
  split; [|split; [|split]].
  - rewrite <- (length_fmap w_rootPath), Hroots, length_fmap. apply length_map_to_list.
  - rewrite Hroots. apply NoDup_fst_map_to_list.
  - intros root. rewrite Hroots. split.
    + intros ([r K] & -> & Hin)%list_elem_of_fmap. apply elem_of_map_to_list in Hin. simpl.
      destruct (perDeviceFolders_nonempty _ _ _ Hin) as [key Hkey].
      exists key. by apply (perDeviceFolders_spec _ _ _ Hin).
    + intros (key & Hkey & <-).
      destruct (perDeviceFolders_cover _ _ Hkey) as [K HK].
      apply list_elem_of_fmap. exists (rootOf key, K). split; [done|].
      by apply elem_of_map_to_list.
  - intros i w Hw. split; [by apply Hidx|].
    rewrite Forall_forall in Hpar. split; [apply Hpar; by eapply list_elem_of_lookup_2|].
    assert (Hsane := startWorker_parallelOps deviceParallelOps
                       (map_to_list (perDeviceFolders foldersToRead))
                       {| d_buf := ∅; d_worker := []; d_events := [BufClear] |}
                       (Forall_nil_2 _)).
    rewrite Forall_forall in Hsane. apply Hsane. by eapply list_elem_of_lookup_2.
Qed.

(** X14.  The workloads partition the requested folders by root device:
    the workload of a thread is not empty, holds no key twice, and consists of
    the requested keys on the thread's root device (so the worker's assertion
    on [pc.rootPath] holds); no key is given to two threads. *)
Theorem workloads_partition_the_request_by_root_device
    (fuel : nat) (scan : WorkerThreads) (foldersToRead : gset DirectoryKey.t)
    (buf : gmap DirectoryKey.t DirectoryValue) (deviceParallelOps : gmap AbstractPath N)
    (callback : FillBufferCallback.t) (cbInterval : duration) :
  let run := fillBuffer legacy fuel scan foldersToRead buf deviceParallelOps callback cbInterval in
  (∀ w, w ∈ threads run →
     w_workload w ≠ []
     ∧ NoDup (w_workload w)
     ∧ ∀ key, key ∈ w_workload w ↔ key ∈ foldersToRead ∧ rootOf key = w_rootPath w)
  ∧ (∀ i j wi wj key,
       threads run !! i = Some wi → threads run !! j = Some wj →
       key ∈ w_workload wi → key ∈ w_workload wj → i = j).
Proof.
  intros run.
  destruct (fillBuffer_unfold legacy fuel scan foldersToRead buf deviceParallelOps callback
              cbInterval) as (_ & _ & Hth & _). fold run in Hth. rewrite Hth.
  destruct (dispatched_spec legacy deviceParallelOps foldersToRead)
    as (_ & _ & Hroots & Hloads & _ & _).
  set (workers := d_worker (dispatched legacy deviceParallelOps foldersToRead)) in *.
  set (items := map_to_list (perDeviceFolders foldersToRead)) in *.
  assert (Hat : ∀ i w, workers !! i = Some w →
            ∃ K, items !! i = Some (w_rootPath w, K) ∧ w_workload w = elements K
                 ∧ perDeviceFolders foldersToRead !! w_rootPath w = Some K).
  { intros i w Hw.
    assert (Hr : (w_rootPath <$> workers) !! i = Some (w_rootPath w))
      by (by rewrite list_lookup_fmap, Hw).
    assert (Hl : (w_workload <$> workers) !! i = Some (w_workload w))
      by (by rewrite list_lookup_fmap, Hw).
    rewrite Hroots, list_lookup_fmap in Hr. rewrite Hloads, list_lookup_fmap in Hl.
    destruct (items !! i) as [[r K]|] eqn:Hitem; [|done]. simpl in *.
    injection Hr as <-. injection Hl as <-. exists K. split; [done|]. split; [done|].
    apply elem_of_map_to_list. by eapply list_elem_of_lookup_2. }
  split.
  - intros w Hw. apply list_elem_of_lookup in Hw as [i Hw].
    destruct (Hat i w Hw) as (K & _ & -> & HK).
    destruct (perDeviceFolders_nonempty _ _ _ HK) as [k Hk].
    split; [|split].
    + intros Hnil. apply elem_of_elements in Hk. rewrite Hnil in Hk. by apply elem_of_nil in Hk.
    + apply NoDup_elements.
    + intros key. rewrite elem_of_elements. by apply perDeviceFolders_spec.
  - intros i j wi wj key Hi Hj Hki Hkj.
    destruct (Hat i wi Hi) as (Ki & Hitem_i & Hwi & HKi).
    destruct (Hat j wj Hj) as (Kj & Hitem_j & Hwj & HKj).
    rewrite Hwi, elem_of_elements in Hki. rewrite Hwj, elem_of_elements in Hkj.
    apply (perDeviceFolders_spec _ _ _ HKi) in Hki as [_ Hri].
    apply (perDeviceFolders_spec _ _ _ HKj) in Hkj as [_ Hrj].
    eapply (NoDup_lookup items.*1); [apply NoDup_fst_map_to_list| |].
    + by rewrite list_lookup_fmap, Hitem_i.
    + rewrite list_lookup_fmap, Hitem_j. simpl. congruence.
Qed.

Lemma size_t_wrap_bound n : (size_t_wrap n < 2 ^ 64)%N.
Proof. unfold size_t_wrap. apply N.mod_lt. done. Qed.

Lemma all_ended (n : N) : size_t_wrap (size_t_wrap n + n * (2 ^ 64 - 1)) = 0%N.
Proof.
  unfold size_t_wrap. rewrite N.Div0.add_mod_idemp_l.
  replace (n + n * (2 ^ 64 - 1))%N with (n * 2 ^ 64)%N by lia.
  apply N.Div0.mod_mul.
Qed.

(** [addCallback] is the constructor of [BaseDirCallback], run on the
    coordinator and on the thread's [lastReportTime]. *)
Lemma addCallback_constructs filters threadIdx clock travWorkload key env s :
  steady_clock_now env = clock key →
  ∃ callback s',
    BaseDirCallback filters key threadIdx env s = Returned callback s'
    ∧ output s' = output s
    ∧ addCallback filters threadIdx clock (travWorkload, acb s, lastReportTime s) key
      = (travWorkload ++ [(relPath (getPathComponents (DirectoryKey.folderPath key)), callback)],
         acb s', lastReportTime s').
Proof.
  intros Hnow.
  unfold BaseDirCallback, bind, acb_mayReportCurrentFile, when, acb_reportCurrentFile, ret,
    addCallback.
  rewrite Hnow.
  destruct (AsyncCallback.mayReportCurrentFile _ _ _ _) as [[] t]; simpl; by eexists _, _.
Qed.

(** What the constructors of a thread leave alone in the coordinator. *)
Lemma addCallback_frame filters threadIdx clock (keys : list DirectoryKey.t) :
  ∀ st,
    let st' := foldl (addCallback filters threadIdx clock) st keys in
    AsyncCallback.activeThreadIdxs_ st'.1.2 = AsyncCallback.activeThreadIdxs_ st.1.2
    ∧ AsyncCallback.threadsToFinish_ st'.1.2 = AsyncCallback.threadsToFinish_ st.1.2
    ∧ AsyncCallback.errorRequest_ st'.1.2 = AsyncCallback.errorRequest_ st.1.2.
Proof.
  induction keys as [|key keys IH]; intros st; [done|].
  cbn [foldl]. destruct (IH (addCallback filters threadIdx clock st key)) as (Ha & Hn & Hr).
  cbv zeta. rewrite Ha, Hn, Hr. destruct st as [[travWorkload a] t]. unfold addCallback.
  destruct (AsyncCallback.mayReportCurrentFile _ _ _ _) as [[] t']; done.
Qed.

Section EveryThreadEnds.
Variable filters : FilterRef → HardFilter.
Variable clock : DirectoryKey.t → time_point.
Variable traverse : AbstractPath → TraverserWorkload → N → AsyncCallback.t → AsyncCallback.t.

(** The traversal reaches the coordinator through the callbacks, which
    display paths and count items. *)
Hypothesis traverse_frame :
  ∀ root travWorkload parallelOps a,
    AsyncCallback.activeThreadIdxs_ (traverse root travWorkload parallelOps a)
    = AsyncCallback.activeThreadIdxs_ a
    ∧ AsyncCallback.threadsToFinish_ (traverse root travWorkload parallelOps a)
      = AsyncCallback.threadsToFinish_ a
    ∧ AsyncCallback.errorRequest_ (traverse root travWorkload parallelOps a)
      = AsyncCallback.errorRequest_ a.

Lemma workerThread_effect (w : Worker) (a : AsyncCallback.t) :
  AsyncCallback.activeThreadIdxs_ a = [] →
  AsyncCallback.activeThreadIdxs_ (workerThread filters clock traverse w a) = []
  ∧ AsyncCallback.threadsToFinish_ (workerThread filters clock traverse w a)
    = size_t_wrap (AsyncCallback.threadsToFinish_ a + (2 ^ 64 - 1))
  ∧ AsyncCallback.errorRequest_ (workerThread filters clock traverse w a)
    = AsyncCallback.errorRequest_ a.
Proof.
  intros Hnone. unfold workerThread.
  set (a0 := AsyncCallback.notifyWorkBegin (w_threadIdx w) (w_parallelOps w) a).
  assert (Hframe := addCallback_frame filters (w_threadIdx w) clock (w_workload w) ([], a0, 0)).
  destruct (foldl _ _ (w_workload w)) as [[travWorkload a1] t]. cbv zeta in Hframe.
  cbn [fst snd] in Hframe. destruct Hframe as (Ha & Hn & Hr).
  destruct (traverse_frame (w_rootPath w) travWorkload (w_parallelOps w) a1) as (Ha' & Hn' & Hr').
  set (a2 := traverse (w_rootPath w) travWorkload (w_parallelOps w) a1) in *.
  cbn [AsyncCallback.notifyWorkEnd AsyncCallback.set_threadsToFinish AsyncCallback.set_active
       AsyncCallback.activeThreadIdxs_ AsyncCallback.threadsToFinish_
       AsyncCallback.errorRequest_].
  rewrite Ha', Hn', Hr', Ha, Hn, Hr. subst a0. simpl. rewrite Hnone. simpl.
  by rewrite Z.eqb_refl.
Qed.

Lemma workerThreads_effect (started : list Worker) :
  ∀ a,
    AsyncCallback.activeThreadIdxs_ a = [] →
    (AsyncCallback.threadsToFinish_ a < 2 ^ 64)%N →
    let a' := foldl (λ a w, workerThread filters clock traverse w a) a started in
    AsyncCallback.activeThreadIdxs_ a' = []
    ∧ AsyncCallback.threadsToFinish_ a'
      = size_t_wrap (AsyncCallback.threadsToFinish_ a
                     + N.of_nat (length started) * (2 ^ 64 - 1))
    ∧ AsyncCallback.errorRequest_ a' = AsyncCallback.errorRequest_ a.
Proof.
  induction started as [|w started IH]; intros a Hnone Hsize.
  - simpl. split; [done|]. split; [|done].
    rewrite N.add_0_r. unfold size_t_wrap. symmetry. by apply N.mod_small.
  - cbn [foldl].
    destruct (workerThread_effect w a Hnone) as (Hactive & Hcount & Hreq).
    destruct (IH (workerThread filters clock traverse w a) Hactive) as (Hact & Hfin & Hrq).
    { rewrite Hcount. apply size_t_wrap_bound. }
    split; [exact Hact|]. split; [|by rewrite Hrq].
    rewrite Hfin, Hcount. unfold size_t_wrap. rewrite N.Div0.add_mod_idemp_l.
    f_equal. cbn [length]. lia.
Qed.

Lemma interference_workerThreads (scan : WorkerThreads) (started : list Worker) :
  (∀ w, w ∈ started →
        ∀ a, onCoordinator scan (w_threadIdx w) 0 a = workerThread filters clock traverse w a) →
  ∀ a, interference scan started 0 a
       = foldl (λ a w, workerThread filters clock traverse w a) a started.
Proof.
  unfold interference. induction started as [|w l IH]; intros Hscan a; [done|].
  simpl. rewrite Hscan by (apply elem_of_cons; by left).
  apply IH. intros w' Hw'. apply Hscan. apply elem_of_cons. by right.
Qed.

(** X15.  When every worker thread runs its thread function from begin to
    end while the foreground is in its first wait, and no traversal reports
    an error, [fillBuffer] makes exactly one observer call: the final status,
    which shows the scanning text followed by the path displayed last,
    without a thread count, and the number of items counted.  It returns
    normally unless that call throws.  No thread is then left to finish and
    none is active: the number of threads to finish the coordinator was
    created with is the number of threads started. *)
Theorem fillBuffer_returns_once_every_thread_has_ended
    (fuel : nat) (scan : WorkerThreads) (foldersToRead : gset DirectoryKey.t)
    (buf : gmap DirectoryKey.t DirectoryValue) (deviceParallelOps : gmap AbstractPath N)
    (callback : FillBufferCallback.t) (cbInterval : duration) :
  let run := fillBuffer legacy (S fuel) scan foldersToRead buf deviceParallelOps callback
               cbInterval in
  let text := AsyncCallback.textScanning_ +:+ AsyncCallback.currentFile_ (acb_out run) in
  let items := AsyncCallback.itemsScanned_ (acb_out run) in
  (∀ w, w ∈ threads run →
        ∀ a, onCoordinator scan (w_threadIdx w) 0 a = workerThread filters clock traverse w a) →
  calls run = [FillBufferCallback.ReportStatus text items]
  ∧ exit run = (if FillBufferCallback.reportStatus callback text items
                then AsyncCallback.NormalReturn else AsyncCallback.Thrown)
  ∧ AsyncCallback.threadsToFinish_ (acb_out run) = 0%N
  ∧ AsyncCallback.activeThreadIdxs_ (acb_out run) = [].
Proof.
  intros run text items Hscan. subst text items.
  destruct (fillBuffer_unfold legacy (S fuel) scan foldersToRead buf deviceParallelOps callback
              cbInterval) as (_ & _ & Hth & Hwait). fold run in Hth, Hwait.
  rewrite Hth in Hscan.
  destruct (dispatched_spec legacy deviceParallelOps foldersToRead)
    as (_ & _ & Hroots & _).
  set (started := d_worker (dispatched legacy deviceParallelOps foldersToRead)) in *.
  assert (Hlen : length started = size (perDeviceFolders foldersToRead)).
  { rewrite <- (length_fmap w_rootPath), Hroots, length_fmap. apply length_map_to_list. }
  set (a0 := AsyncCallback.create
               (size_t_wrap (N.of_nat (size (perDeviceFolders foldersToRead)))) cbInterval) in *.
  destruct (workerThreads_effect started a0 eq_refl (size_t_wrap_bound _))
    as (Hact & Hfin & Hreq).
  rewrite <- (interference_workerThreads scan started Hscan) in Hact, Hfin, Hreq.
  rewrite Hlen in Hfin. change (AsyncCallback.threadsToFinish_ a0)
    with (size_t_wrap (N.of_nat (size (perDeviceFolders foldersToRead)))) in Hfin.
  rewrite all_ended in Hfin.
  set (a1 := if AsyncCallback.newRequestOrDone a0 then a0 else interference scan started 0 a0).
  assert (Hend : AsyncCallback.threadsToFinish_ a1 = 0%N
                 ∧ AsyncCallback.activeThreadIdxs_ a1 = []
                 ∧ AsyncCallback.errorRequest_ a1 = None).
  { subst a1. destruct (AsyncCallback.newRequestOrDone a0) eqn:Hnow.
    - assert (Hz : (AsyncCallback.threadsToFinish_ a0 =? 0)%N = true) by exact Hnow.
      apply N.eqb_eq in Hz. split; [exact Hz|done].
    - by rewrite Hfin, Hact, Hreq. }
  destruct Hend as (Hdone & Hnone & Hrq).
  assert (Hstatus : AsyncCallback.getCurrentStatus a1
                    = AsyncCallback.textScanning_ +:+ AsyncCallback.currentFile_ a1).
  { unfold AsyncCallback.getCurrentStatus. by rewrite Hnone. }
  cbn [AsyncCallback.waitUntilDone] in Hwait. fold a1 in Hwait.
  assert (Hwake : AsyncCallback.newRequestOrDone a1 = true).
  { unfold AsyncCallback.newRequestOrDone. rewrite Hdone. apply orb_true_r. }
  rewrite Hwake, Hrq in Hwait. cbn [negb] in Hwait. cbv beta iota in Hwait.
  rewrite Hdone in Hwait. simpl in Hwait. rewrite Hstatus in Hwait.
  destruct (FillBufferCallback.reportStatus callback _ _) eqn:Hobs;
    injection Hwait as -> -> ->; by rewrite Hobs, Hdone, Hnone.
Qed.

End EveryThreadEnds.

End MoreDispatcherFacts.

(** * Instances of the further properties *)

Section MoreOnLinuxFacts.
#[local] Existing Instance mounts.
#[local] Existing Instance linux.

(** Every callback [descend] passes through is one a traversal can hold. *)
Lemma descend_reachable (base : DirCallback) (n : nat) :
  ∀ cb env s cb' s',
    Reachable base cb →
    descend n cb env s = Returned cb' s' →
    Reachable base cb'.
Proof.
  induction n as [|n IH]; intros cb env s cb' s' Hcb; simpl.
  - by intros [= <- _].
  - unfold bind.
    destruct (onFolder 1 cb (folderNamed "d") env s) as [[child|] s1|s1|] eqn:Hstep; try done.
    + apply IH. by eapply reach_child.
    + by intros [= <- _].
Qed.

(** X1, instance: in DIRECT mode the link [l] of [/dev1/x] is recorded and
    counted. *)
Lemma onSymlink_direct_witness :
  ∃ s', onSymlink (baseX passAll DIRECT) linkL (calm 1000 continueAlways) (freshState 100)
        = Returned TraverserCallback.LINK_SKIP s'
        ∧ FolderContainer.item [] "l" (folderCont (output s'))
          = Some (FolderContainer.SymlinkRecord {| la_modTime := 7 |})
        ∧ AsyncCallback.itemsScanned_ (acb s') = 1.
Proof.
  destruct (onSymlink_decides_by_mode (baseX passAll DIRECT) linkL
              (calm 1000 continueAlways) (freshState 100) FolderContainer.empty)
    as (rv & s' & Hrun & _ & _ & Hcase).
  - reflexivity.
  - reflexivity.
  - unfold INT_MAX. simpl. lia.
  - change (TraverserConfig.handleSymlinks (cfg_ (baseX passAll DIRECT))) with DIRECT in Hcase.
    cbv beta iota in Hcase. destruct Hcase as [-> Hcase].
    change (passFileFilter _ _) with true in Hcase. cbv beta iota in Hcase.
    destruct Hcase as [Hitem Hcount].
    exists s'. split; [exact Hrun|]. split; [exact Hitem|exact Hcount].
Defined.

(** X2, instance: an interrupted worker is told about [a.txt]. *)
Lemma interrupted_onFile_witness :
  onFile (baseX passAll EXCLUDE) fileA
    {| interrupted := true; steady_clock_now := 1000; foreground := continueAlways |}
    (freshState 100)
  = ThreadInterruption (freshState 100).
Proof.
  destruct (interrupted_callbacks_throw_and_change_nothing 1 (baseX passAll EXCLUDE)
              {| interrupted := true; steady_clock_now := 1000; foreground := continueAlways |}
              (freshState 100) eq_refl) as (Hfile & _).
  apply Hfile.
Defined.

(** X3, instance: under the include filter for [src/*] the folder [lib]
    gets a child callback, but is not counted. *)
Lemma onFolder_lib_not_counted_witness :
  ∃ rv s', onFolder 1 (baseX onlyBelowSrc EXCLUDE) (folderNamed "lib")
             (calm 1000 continueAlways) (freshState 100) = Returned rv s'
           ∧ rv ≠ None
           ∧ AsyncCallback.itemsScanned_ (acb s') = 0.
Proof.
  destruct (onFolder_counts_only_passing_folders 1 (baseX onlyBelowSrc EXCLUDE)
              (folderNamed "lib") (calm 1000 continueAlways) (freshState 100))
    as (rv & s' & Hrun & Hnone & Hcount).
  - reflexivity.
  - vm_compute. discriminate.
  - unfold INT_MAX. simpl. lia.
  - exists rv, s'. split; [exact Hrun|]. split; [|exact Hcount].
    intros Hrv. apply Hnone in Hrv as [_ Hmight]. vm_compute in Hmight. discriminate Hmight.
Defined.

(** X4, instance: in EXCLUDE mode the link [l] is skipped, and displayed. *)
Lemma skipped_link_is_displayed_witness :
  ∃ rv s', onSymlink (baseX passAll EXCLUDE) linkL (calm 1000 continueAlways) (freshState 100)
           = Returned rv s'
           ∧ AsyncCallback.currentFile_ (acb s') = "/dev1/x/l"
           ∧ lastReportTime s' = 1000.
Proof.
  destruct (status_is_updated_whatever_the_filter_says (baseX passAll EXCLUDE)
              (calm 1000 continueAlways) (freshState 100) eq_refl) as (_ & Hlink & _).
  exact (Hlink linkL).
Defined.

(** X6, instance: the callback 101 folders below [/dev1/x]. *)
Lemma deep_callback_is_consistent_witness :
  cfg_ deepCallback = cfg_ (baseX passAll EXCLUDE)
  ∧ level_ deepCallback = Z.of_nat (length (output_ deepCallback))
  ∧ parentRelPathPf_ deepCallback = prefixOf (output_ deepCallback)
  ∧ level_ deepCallback ≤ 101.
Proof.
  apply (reachable_callbacks_are_consistent_and_bounded (baseX passAll EXCLUDE) deepCallback
           eq_refl eq_refl eq_refl).
  eapply descend_reachable; [apply reach_base|apply descend_reaches_level_101].
Defined.

(** X7, instance: a report at time 1000, interval 100, next attempt at time
    1050. *)
Lemma report_is_throttled_witness :
  (AsyncCallback.mayReportCurrentFile 0 1000 0 (acb (freshState 100))).2 = 1000
  ∧ AsyncCallback.mayReportCurrentFile 0 1050 1000 (acb (freshState 100)) = (false, 1000).
Proof.
  apply (report_is_throttled (acb (freshState 100)) 0 1000 0 1050).
  - reflexivity.
  - unfold zen.dist. simpl. lia.
Defined.

(** X8, instance: two threads begin, the first one ends. *)
Lemma coordinator_tracks_the_history_witness :
  AsyncCallback.threadsToFinish_
    (foldl notify (AsyncCallback.create 2 100) [WorkBegin 0 1; WorkBegin 1 2; WorkEnd 0])
  = (2 - endsIn [WorkBegin 0 1; WorkBegin 1 2; WorkEnd 0])%N.
Proof.
  destruct (coordinator_tracks_the_history 2 100 [WorkBegin 0 1; WorkBegin 1 2; WorkEnd 0])
    as (_ & _ & Hcount & _).
  - reflexivity.
  - apply Hcount. vm_compute. discriminate.
Defined.

(** X9, instance: the only worker of a new coordinator begins and ends. *)
Lemma work_begin_then_end_witness :
  AsyncCallback.threadsToFinish_
    (AsyncCallback.notifyWorkEnd 0 (AsyncCallback.notifyWorkBegin 0 1 (AsyncCallback.create 1 100)))
  = (AsyncCallback.threadsToFinish_ (AsyncCallback.create 1 100) - 1)%N.
Proof.
  destruct (work_begin_then_end_restores_the_active_map 0 1 (AsyncCallback.create 1 100))
    as (_ & _ & _ & Hcount & _).
  - constructor.
  - apply Hcount. simpl. lia.
Defined.

(** X11, instance: workers that never touch the coordinator. *)
Lemma quiet_wait_makes_status_calls_only_witness :
  ∃ more,
    (AsyncCallback.waitUntilDone 3 (λ _ a, a) continueAlways 0 [] (AsyncCallback.create 1 100)).1.2
    = [] ++ more
    ∧ Forall (λ c, isStatusCall c = true) more
    ∧ AsyncCallback.errorRequest_
        (AsyncCallback.waitUntilDone 3 (λ _ a, a) continueAlways 0 []
           (AsyncCallback.create 1 100)).2 = None.
Proof.
  apply (observer_sees_errors_only_on_request 3 (λ _ a, a) continueAlways 0 []
           (AsyncCallback.create 1 100)).
  - intros _ a Hnone. exact Hnone.
  - reflexivity.
Defined.

(** X12, instance: one error, an observer that continues. *)
Lemma error_round_trip_witness :
  ∃ a1 a2,
    reportError_install "Cannot read." 0 (AsyncCallback.create 1 100) = Some a1
    ∧ (∀ msg' retryNumber', reportError_install msg' retryNumber' a1 = None)
    ∧ reportError_take a1 = None
    ∧ AsyncCallback.waitUntilDone 1 (λ _ a, a) continueAlways 0 [] a1
      = (AsyncCallback.StillWaiting, [] ++ [FillBufferCallback.ReportError "Cannot read." 0], a2)
    ∧ (∀ msg' retryNumber', reportError_install msg' retryNumber' a2 = None)
    ∧ reportError_take a2
      = Some (FillBufferCallback.ON_ERROR_CONTINUE, AsyncCallback.create 1 100)
    ∧ AsyncCallback.reportError false continueAlways "Cannot read." 0 (AsyncCallback.create 1 100)
      = (Some FillBufferCallback.ON_ERROR_CONTINUE, AsyncCallback.create 1 100).
Proof.
  apply (error_round_trip (λ _ a, a) continueAlways 0 [] (AsyncCallback.create 1 100)
           "Cannot read." 0 FillBufferCallback.ON_ERROR_CONTINUE).
  - reflexivity.
  - reflexivity.
  - discriminate.
  - reflexivity.
Defined.

(** X15, instance: the scan of the empty folders [/dev1/x] and [/dev2/y];
    the folder displayed last is the base folder of the second thread. *)
Lemma fillBuffer_two_devices_returns_witness :
  calls (fillBuffer false 1 quietWorkers {[keyX; keyY]} ∅ ∅ continueAlways 100)
  = [FillBufferCallback.ReportStatus "Scanning: /dev2/y" 0]
  ∧ exit (fillBuffer false 1 quietWorkers {[keyX; keyY]} ∅ ∅ continueAlways 100)
    = AsyncCallback.NormalReturn
  ∧ AsyncCallback.threadsToFinish_
      (acb_out (fillBuffer false 1 quietWorkers {[keyX; keyY]} ∅ ∅ continueAlways 100)) = 0%N.
Proof.
  destruct (fillBuffer_returns_once_every_thread_has_ended false filterTable (λ _, 1000)
              (λ _ _ _ a, a) (λ _ _ _ _, conj eq_refl (conj eq_refl eq_refl))
              0 quietWorkers {[keyX; keyY]} ∅ ∅ continueAlways 100)
    as (Hcalls & Hexit & Hdone & _).
  - assert (Hthreads : threads (fillBuffer false 1 quietWorkers {[keyX; keyY]} ∅ ∅
                                  continueAlways 100) = [workerX; workerY])
      by (vm_compute; reflexivity).
    rewrite Hthreads. intros w Hw a.
    apply elem_of_cons in Hw as [->|Hw]; [reflexivity|].
    apply list_elem_of_singleton in Hw as ->. reflexivity.
  - split; [|split; [|exact Hdone]].
    + rewrite Hcalls. vm_compute. reflexivity.
    + rewrite Hexit. reflexivity.
Defined.

End MoreOnLinuxFacts.
